(** * Catalogue integrity and account views of the e-commerce store

    A shallow embedding of [products/models.py] (pricing properties,
    [Category.save], [ProductImage.save]) and of [accounts/views.py]
    (token issuance, password change, logout, scoped listings), with the
    properties the specification states about them. *)

From Stdlib Require Import ZArith Lia Bool List String Ascii.
From stdpp Require Import base option list gmap strings.

(** ** Exceptions and results *)

(** The exceptions the modelled code can raise. *)
Inductive PyExc :=
  | DivisionByZero      (* decimal.DivisionByZero, a ZeroDivisionError *)
  | InvalidOperation    (* decimal.InvalidOperation *)
  | TypeError
  | ValueError
  | NotImplementedError
  | AttributeError
  | DoesNotExist        (* ObjectDoesNotExist and its subclasses *)
  | IntegrityError.     (* django.db.IntegrityError *)

Inductive Result (A : Type) :=
  | Ok (a : A)
  | Raise (e : PyExc).
Arguments Ok {A} a.
Arguments Raise {A} e.

Definition rbind {A B} (r : Result A) (k : A -> Result B) : Result B :=
  match r with
  | Ok a => k a
  | Raise e => Raise e
  end.

Notation "x <~ e ;; k" := (rbind e (fun x => k))
  (at level 100, e at next level, k at level 200, right associativity).

(** ** Python's [decimal.Decimal] under the default context *)

Module PyDecimal.
Local Open Scope Z_scope.

(** A finite Decimal: signed coefficient and exponent, denoting
    [coef * 10 ^ expo]. *)
Record Decimal := mkDec { coef : Z; expo : Z }.

(** [decimal.getcontext().prec] *)
Definition prec : Z := 28.

(** [len(str(n))] for [0 <= n]. *)
Fixpoint ndigits_aux (fuel : nat) (n : Z) : Z :=
  match fuel with
  | O => 1
  | S f => if n <? 10 then 1 else 1 + ndigits_aux f (n / 10)
  end.

Definition ndigits (n : Z) : Z := ndigits_aux (Z.to_nat (Z.log2 n)) n.

(** [num / den] rounded to the nearest integer, ties to the even one
    (ROUND_HALF_EVEN), for [0 <= num] and [0 < den]. *)
Definition div_half_even (num den : Z) : Z :=
  let q := num / den in
  let r := num mod den in
  if 2 * r <? den then q
  else if den <? 2 * r then q + 1
  else if Z.even q then q else q + 1.

(** [Decimal._fix]: round the coefficient to at most [prec] digits. A
    rounding that carries to [10 ^ prec] is kept as it is (Python writes
    the same value with one digit less), and the exponent limits Emin and
    Emax (-999999, 999999), out of reach of the fields modelled here, are
    left out. *)
Definition fix_ (d : Decimal) : Decimal :=
  let n := ndigits (Z.abs (coef d)) in
  if n <=? prec then d
  else
    let k := n - prec in
    mkDec (Z.sgn (coef d) * div_half_even (Z.abs (coef d)) (10 ^ k))
          (expo d + k).

(** [a - b]: exact difference at the smaller exponent, then [_fix]. *)
Definition dec_sub (a b : Decimal) : Decimal :=
  let e := Z.min (expo a) (expo b) in
  fix_ (mkDec (coef a * 10 ^ (expo a - e) - coef b * 10 ^ (expo b - e)) e).

(** [a * b]: exact product, then [_fix]. *)
Definition dec_mul (a b : Decimal) : Decimal :=
  fix_ (mkDec (coef a * coef b) (expo a + expo b)).

(** [Decimal(n)] for a Python int. *)
Definition of_int (n : Z) : Decimal := mkDec n 0.

(** Value comparison, as [Decimal.__lt__] and [__eq__] do it. *)
Definition dec_cmp (a b : Decimal) : comparison :=
  let e := Z.min (expo a) (expo b) in
  (coef a * 10 ^ (expo a - e)) ?= (coef b * 10 ^ (expo b - e)).

Definition dec_ltb (a b : Decimal) : bool :=
  match dec_cmp a b with Lt => true | _ => false end.

Definition dec_eqb (a b : Decimal) : bool :=
  match dec_cmp a b with Eq => true | _ => false end.

(** [a * 10^s / b] rounded half-even, for a scale [s] of either sign. *)
Definition scaled_quot (a b s : Z) : Z :=
  if 0 <=? s then div_half_even (a * 10 ^ s) b
  else div_half_even a (b * 10 ^ (- s)).

(** Whether [b * 10^(na - nb) <= a], where [na], [nb] are the digit counts. *)
Definition quot_has_extra_digit (a b : Z) : bool :=
  let na := ndigits a in
  let nb := ndigits b in
  if nb <=? na then b * 10 ^ (na - nb) <=? a
  else b <=? a * 10 ^ (nb - na).

(** [x / y]: the exact quotient correctly rounded (half-even) to [prec]
    significant digits; a zero divisor signals DivisionByZero
    (InvalidOperation for 0/0), both trapped by the default context.
    The coefficient is kept at full precision: Python also strips the
    trailing zeros of an exact quotient towards the ideal exponent, which
    changes the representation and not the value. *)
Definition dec_div (x y : Decimal) : Result Decimal :=
  if coef y =? 0 then
    Raise (if coef x =? 0 then InvalidOperation else DivisionByZero)
  else if coef x =? 0 then Ok (mkDec 0 (expo x - expo y))
  else
    let a := Z.abs (coef x) in
    let b := Z.abs (coef y) in
    let s0 := ndigits b - ndigits a + prec in
    let s := if quot_has_extra_digit a b then s0 - 1 else s0 in
    Ok (mkDec (Z.sgn (coef x) * Z.sgn (coef y) * scaled_quot a b s)
              (expo x - expo y - s)).

(** [d.quantize(Decimal((0, (1,), e)))]: the coefficient of the same value
    at exponent [e], rounded half-even when digits are dropped;
    InvalidOperation when the result needs more than [prec] digits. *)
Definition rescale (d : Decimal) (e : Z) : Z :=
  if e <=? expo d then coef d * 10 ^ (expo d - e)
  else Z.sgn (coef d) * div_half_even (Z.abs (coef d)) (10 ^ (e - expo d)).

Definition quantize (d : Decimal) (e : Z) : Result Decimal :=
  let c := rescale d e in
  if ndigits (Z.abs c) <=? prec then Ok (mkDec c e) else Raise InvalidOperation.

(** [round(d, n)], that is [Decimal.__round__(n)] with an int [n]. *)
Definition py_round (d : Decimal) (n : Z) : Result Decimal := quantize d (- n).

(** [m] is [num / den] rounded to nearest, ties to even. *)
Definition nearest_even (num den m : Z) : Prop :=
  - den <= 2 * (num - m * den) <= den /\
  (2 * (num - m * den) = den \/ 2 * (num - m * den) = - den -> Z.even m = true).

End PyDecimal.

(** ** The storage layer: a table, [Model.save] and [QuerySet.update]

    The connection runs in autocommit mode (no ATOMIC_REQUESTS in the
    settings), so every statement commits on its own and a statement that
    violates a constraint raises IntegrityError and leaves the table as it
    was. *)

Module Orm.
Section Table.
Context {R : Type}.
(** [instance.pk] and its assignment after an INSERT. *)
Variable get_pk : R -> option nat.
Variable set_pk : nat -> R -> R.
(** The constraints the table declares (unique, unique_together,
    foreign keys), checked on the rows a statement leaves. *)
Variable constraints_ok : list R -> bool.

Record Table := mkTable { rows : list R; next_pk : nat }.

Definition empty : Table := mkTable [] 1.

(** A database action: the result, or the exception, and the table. *)
Definition DB (A : Type) : Type := Table -> Result A * Table.

Definition ret {A} (a : A) : DB A := fun t => (Ok a, t).

Definition bind {A B} (m : DB A) (k : A -> DB B) : DB B :=
  fun t =>
    match m t with
    | (Ok a, t') => k a t'
    | (Raise e, t') => (Raise e, t')
    end.

Definition has_pk (k : nat) (r : R) : bool :=
  match get_pk r with
  | Some k' => Nat.eqb k' k
  | None => false
  end.

(** UPDATE ... WHERE pk = k *)
Definition replace_row (k : nat) (r : R) (l : list R) : list R :=
  map (fun x => if has_pk k x then r else x) l.

(** What [Model.save] writes: an UPDATE of the row with the instance's pk
    when there is one, else an INSERT (with the next automatic pk when the
    instance has none). *)
Definition written (r : R) (t : Table) : R * Table :=
  match get_pk r with
  | Some k =>
      if existsb (has_pk k) (rows t)
      then (r, mkTable (replace_row k r (rows t)) (next_pk t))
      else (r, mkTable (rows t ++ [r]) (Nat.max (next_pk t) (S k)))
  | None =>
      let r' := set_pk (next_pk t) r in
      (r', mkTable (rows t ++ [r']) (S (next_pk t)))
  end.

(** [models.Model.save] *)
Definition model_save (r : R) : DB R :=
  fun t =>
    let '(r', t') := written r t in
    if constraints_ok (rows t') then (Ok r', t')
    else (Raise IntegrityError, t).

(** [queryset.filter(sel).update(f)]: one UPDATE statement, returning the
    number of rows matched. *)
Definition qs_update (sel : R -> bool) (f : R -> R) : DB nat :=
  fun t =>
    let rows' := map (fun x => if sel x then f x else x) (rows t) in
    if constraints_ok rows'
    then (Ok (length (List.filter sel (rows t))), mkTable rows' (next_pk t))
    else (Raise IntegrityError, t).

(** The rows carry distinct pks, all below the next automatic one. *)
Definition pks_ok (t : Table) : Prop :=
  NoDup (map get_pk (rows t)) /\
  forall r, In r (rows t) -> exists k, get_pk r = Some k /\ k < next_pk t.
End Table.

Arguments Table R : clear implicits.
Arguments DB R A : clear implicits.
End Orm.

Notation "x <- e ;;; k" := (Orm.bind e (fun x => k))
  (at level 100, e at next level, k at level 200, right associativity).

(** ** products/models.py *)

Module Products.
Import PyDecimal.

(** *** Product: the pricing fields and properties *)

Module Product.

(** What a Python number-valued property returns here: the int [0] or a
    Decimal. *)
Inductive PyNum :=
  | PyInt (n : Z)
  | PyDec (d : Decimal).

(** [price] and [discount_price] are
    [DecimalField(max_digits=10, decimal_places=2)], the second nullable;
    [stock] is an IntegerField. *)
Record t := mk {
  price : Decimal;
  discount_price : option Decimal;
  stock : Z
}.

Definition has_discount (self : t) : bool :=
  match discount_price self with
  | None => false
  | Some d => dec_ltb d (price self)
  end.

Definition discount_percentage (self : t) : Result PyNum :=
  if has_discount self then
    match discount_price self with
    | Some d =>
        q <~ dec_div (dec_sub (price self) d) (price self) ;;
        let discount := dec_mul q (of_int 100) in
        r <~ py_round discount 2 ;;
        Ok (PyDec r)
    | None => Raise TypeError
    end
  else Ok (PyInt 0).

Definition is_in_stock (self : t) : bool := (0 <? stock self)%Z.

(** [a == b] between the numbers a property returns. *)
Definition as_decimal (n : PyNum) : Decimal :=
  match n with
  | PyInt k => of_int k
  | PyDec d => d
  end.

Definition py_eq (a b : PyNum) : bool := dec_eqb (as_decimal a) (as_decimal b).

(** A value as the field stores it: exponent -2 and at most ten digits. *)
Definition stored_decimal (d : Decimal) : Prop :=
  expo d = (-2)%Z /\ (Z.abs (coef d) < 10 ^ 10)%Z.

Definition stored_product (p : t) : Prop :=
  stored_decimal (price p) /\
  match discount_price p with
  | Some d => stored_decimal d
  | None => True
  end.

(** The specification's wording of the percentage, on the stored values in
    cents [P] and [D]: 0 when there is no discount price or it is not below
    the price, else [round(100 * (P - D) / P, 2)] over the rationals with
    Python's [round] (ties to even), in hundredths of a percent. A zero
    price leaves the quotient undefined. *)
Definition round_ratio (num den : Z) : Z :=
  (Z.sgn num * Z.sgn den * div_half_even (Z.abs num) (Z.abs den))%Z.

Definition spec_discount_percentage (P : Z) (D : option Z) : option Z :=
  match D with
  | None => Some 0%Z
  | Some d =>
      if (P <=? d)%Z then Some 0%Z
      else if (P =? 0)%Z then None
      else Some (round_ratio (100 * (100 * (P - d))) P)
  end.

End Product.

(** *** [django.utils.text.slugify] on ASCII text

    NFKD normalisation and the ASCII encoding leave ASCII text as it is, and
    on such text this is Django's function. On other text Django first
    decomposes (an accented letter keeps its base letter), which the drop
    of the bytes outside ASCII here does not render: what is proved of a
    derived slug is stated for names that are ASCII ([is_ascii]). *)

Module Slug.

Definition code (c : ascii) : nat := nat_of_ascii c.

Definition between (lo hi : nat) (c : ascii) : bool :=
  Nat.leb lo (code c) && Nat.leb (code c) hi.

Definition lower (c : ascii) : ascii :=
  if between 65 90 c then ascii_of_nat (code c + 32) else c.

(** [\w] on ASCII text *)
Definition is_word (c : ascii) : bool :=
  between 48 57 c || between 65 90 c || between 97 122 c || Nat.eqb (code c) 95.

(** [\s] of a str pattern, on ASCII text *)
Definition is_space (c : ascii) : bool :=
  between 9 13 c || between 28 32 c.

Definition is_hyphen (c : ascii) : bool := Nat.eqb (code c) 45.

Definition is_sep (c : ascii) : bool := is_hyphen c || is_space c.

(** [re.sub(r'[-\s]+', '-', value)] *)
Fixpoint collapse (after_sep : bool) (l : list ascii) : list ascii :=
  match l with
  | [] => []
  | c :: l' =>
      if is_sep c
      then (if after_sep then collapse true l' else "-"%char :: collapse true l')
      else c :: collapse false l'
  end.

Fixpoint lstrip (l : list ascii) : list ascii :=
  match l with
  | [] => []
  | c :: l' => if is_hyphen c || Nat.eqb (code c) 95 then lstrip l' else l
  end.

(** [value.strip('-_')] *)
Definition strip (l : list ascii) : list ascii :=
  rev (lstrip (rev (lstrip l))).

(** Text within the ASCII range. *)
Definition is_ascii (value : string) : bool :=
  forallb (between 0 127) (list_ascii_of_string value).

Definition slugify (value : string) : string :=
  let ascii_only := List.filter (between 0 127) (list_ascii_of_string value) in
  let lowered := map lower ascii_only in
  let kept := List.filter (fun c => is_word c || is_space c || is_hyphen c) lowered in
  string_of_list_ascii (strip (collapse false kept)).

End Slug.

(** *** Brand *)

Module Brand.

(** The fields the write path reads: [name] and [slug] are unique. The
    other columns are left out, the timestamps among them ([updated_at] is
    rewritten by every save). *)
Record t := mk {
  pk : option nat;
  name : string;
  slug : string
}.

Definition set_pk (k : nat) (b : t) : t := mk (Some k) (name b) (slug b).
Definition set_slug (s : string) (b : t) : t := mk (pk b) (name b) s.

(** [unique=True] on name and on slug. *)
Definition constraints_ok (l : list t) : bool :=
  bool_decide (NoDup (map name l)) && bool_decide (NoDup (map slug l)).

Definition Table := Orm.Table t.

(** The slug the save writes: the given one, or the one derived from the
    name when none is given. *)
Definition written_slug (self : t) : string :=
  if String.eqb (slug self) EmptyString then Slug.slugify (name self) else slug self.

Definition save (self : t) : Orm.DB t t :=
  let self := if String.eqb (slug self) EmptyString then set_slug (Slug.slugify (name self)) self
              else self in
  Orm.model_save pk set_pk constraints_ok self.

End Brand.

(** *** Category *)

Module Category.

(** The fields the write path reads: [name] and [slug] are unique, [parent]
    is a nullable foreign key to the same table. *)
Record t := mk {
  pk : option nat;
  name : string;
  slug : string;
  parent : option nat
}.

Definition set_pk (k : nat) (c : t) : t := mk (Some k) (name c) (slug c) (parent c).
Definition set_slug (s : string) (c : t) : t := mk (pk c) (name c) s (parent c).
Definition set_parent (p : option nat) (c : t) : t := mk (pk c) (name c) (slug c) p.

(** [unique=True] on name and on slug; the foreign key of [parent]. *)
Definition constraints_ok (l : list t) : bool :=
  bool_decide (NoDup (map name l)) &&
  bool_decide (NoDup (map slug l)) &&
  forallb (fun c => match parent c with
                    | None => true
                    | Some k => existsb (Orm.has_pk pk k) l
                    end) l.

Definition Table := Orm.Table t.

Definition save (self : t) : Orm.DB t t :=
  let self := if String.eqb (slug self) EmptyString then set_slug (Slug.slugify (name self)) self
              else self in
  Orm.model_save pk set_pk constraints_ok self.

(** The slug the save writes: the given one, or the one derived from the
    name when none is given. *)
Definition written_slug (self : t) : string :=
  if String.eqb (slug self) EmptyString then Slug.slugify (name self) else slug self.

(** The table as the store keeps it: the constraints hold and no two rows
    share a pk. *)
Definition table_ok (tb : Table) : Prop :=
  constraints_ok (Orm.rows tb) = true /\ NoDup (map pk (Orm.rows tb)).

(** The parent of the category with pk [k]. *)
Definition parent_of (l : list t) (k : nat) : option nat :=
  match find (Orm.has_pk pk k) l with
  | Some c => parent c
  | None => None
  end.

(** The chain of parents of the category with pk [k], at most [fuel] long. *)
Fixpoint ancestors (fuel : nat) (l : list t) (k : nat) : list nat :=
  match fuel with
  | O => []
  | S f =>
      match parent_of l k with
      | Some p => p :: ancestors f l p
      | None => []
      end
  end.

(** Category [k] is reached again by following parents from it. *)
Definition own_ancestor (l : list t) (k : nat) : bool :=
  existsb (Nat.eqb k) (ancestors (length l) l k).

End Category.

(** *** ProductImage *)

Module ProductImage.

(** [product] is the foreign key, [is_primary] and [order] as declared; the
    file and text fields play no part in the write rule. *)
Record t := mk {
  pk : option nat;
  product : nat;
  is_primary : bool;
  order : nat
}.

Definition set_pk (k : nat) (i : t) : t := mk (Some k) (product i) (is_primary i) (order i).
Definition set_is_primary (b : bool) (i : t) : t := mk (pk i) (product i) b (order i).

(** [unique_together = ('product', 'is_primary')] *)
Definition key (i : t) : nat * bool := (product i, is_primary i).

Definition constraints_ok (l : list t) : bool := bool_decide (NoDup (map key l)).

Definition Table := Orm.Table t.

(** [ProductImage.objects.filter(product=p, is_primary=True)] *)
Definition primary_of (p : nat) (i : t) : bool :=
  Nat.eqb (product i) p && is_primary i.

(** The rows that update leaves. *)
Abbreviation demoted p l :=
  (map (fun x => if primary_of p x then set_is_primary false x else x) l).

(** [ProductImage.save] over a store that checks the constraints [ck]:
    the UPDATE and the write are two statements, each committed on its own.
    [self.product] is taken to resolve, and a statement fails by [ck]
    only. *)
Definition save_under (ck : list t -> bool) (self : t) : Orm.DB t t :=
  _ <- (if is_primary self
        then Orm.qs_update ck (primary_of (product self)) (set_is_primary false)
        else Orm.ret 0%nat) ;;;
  Orm.model_save pk set_pk ck self.

(** [ProductImage.save], the store checking the declared constraint. *)
Definition save : t -> Orm.DB t t := save_under constraints_ok.

(** The other images of a product. *)
Definition secondary_of (p : nat) (i : t) : bool :=
  Nat.eqb (product i) p && negb (is_primary i).

(** A run of saves from a table, whatever each of them returns. *)
Fixpoint save_all_under (ck : list t -> bool) (l : list t) (tb : Table) : Table :=
  match l with
  | [] => tb
  | i :: l' => save_all_under ck l' (snd (save_under ck i tb))
  end.

Definition save_all : list t -> Table -> Table := save_all_under constraints_ok.

(** The rows carry distinct pks, all below the next automatic one. *)
Definition pks_ok (tb : Table) : Prop :=
  NoDup (map pk (Orm.rows tb)) /\
  forall r, In r (Orm.rows tb) -> exists k, pk r = Some k /\ k < Orm.next_pk tb.

(** No two rows are primary for one product. *)
Definition one_primary (l : list t) : Prop :=
  forall p r1 r2, In r1 l -> In r2 l ->
    primary_of p r1 = true -> primary_of p r2 = true -> r1 = r2.

(** The images of product [p]. *)
Definition images_of (p : nat) (l : list t) : list t :=
  List.filter (fun i => Nat.eqb (product i) p) l.

End ProductImage.

End Products.

(** ** accounts/views.py *)

Module Accounts.

(** Request data and serializer errors: field name to text, field name to
    messages. *)
Definition Data : Type := list (string * string).
Definition Errors : Type := list (string * list string).

Module User.
(** The fields of the user model the views read and write. *)
Record t := mk {
  pk : option nat;
  username : string;
  password : string;      (* the encoded hash *)
  is_active : bool;
  is_staff : bool
}.

Definition set_pk (k : nat) (u : t) : t :=
  mk (Some k) (username u) (password u) (is_active u) (is_staff u).
Definition set_password_hash (h : string) (u : t) : t :=
  mk (pk u) (username u) h (is_active u) (is_staff u).
Definition set_is_active (b : bool) (u : t) : t :=
  mk (pk u) (username u) (password u) b (is_staff u).

(** [username] is unique. *)
Definition constraints_ok (l : list t) : bool :=
  bool_decide (NoDup (map username l)).
End User.

Module Token.
(** [rest_framework.authtoken.models.Token]: [key] is the primary key,
    [user] a one-to-one reference. *)
Record t := mk { key : string; user_id : nat }.
End Token.

Module UserProfile.
Record t := mk { pk : option nat; user_id : nat }.
End UserProfile.

(** [request.user] as the authentication classes resolved it. A request is
    its caller and its parsed data: the refusals that precede them (a
    method other than the routed one, unparsable data, a throttle, a token
    the authentication rejects) are not rendered. *)
Inductive Caller :=
  | AnonymousUser
  | AuthUser (u : User.t).

Record Request := mkRequest { user : Caller; data : Data }.

Inductive Body :=
  | AuthPayload (u : User.t) (token : string) (message : string)
  | Message (m : string)
  | FieldErrors (e : Errors)
  | ErrorBody (e : string)
  | Detail (d : string)
  | UserList (l : list User.t)
  | UserBody (u : User.t)
  | ProfileList (l : list UserProfile.t)
  | Page (count : nat) (next : bool) (results : Body)
  | Traceback (e : PyExc).

Record Response := mkResponse { status : nat; body : Body }.

(** The stored state the views work on; [entropy] counts the random draws
    made so far (token keys, salts). *)
Record World := mkWorld {
  users : Orm.Table User.t;
  tokens : list Token.t;
  profiles : list UserProfile.t;
  entropy : nat
}.

Definition set_users (t : Orm.Table User.t) (w : World) : World :=
  mkWorld t (tokens w) (profiles w) (entropy w).
Definition set_tokens (l : list Token.t) (w : World) : World :=
  mkWorld (users w) l (profiles w) (entropy w).
Definition draw (w : World) : World :=
  mkWorld (users w) (tokens w) (profiles w) (S (entropy w)).

(** What the views call from outside accounts/views.py: the random token
    key and the password hasher of the libraries, and the three serializers
    of accounts/serializers.py, each as the function of the stored users
    and the request data that [is_valid] and [validated_data] compute. The
    registration serializer yields the user its [save] inserts; the login
    one the user it authenticated. *)
Record Env := mkEnv {
  generate_key : nat -> string;
  make_password : nat -> string -> string;
  check_password : string -> string -> bool;
  UserRegistrationSerializer : Orm.Table User.t -> Data -> Errors + User.t;
  UserLoginSerializer : Orm.Table User.t -> Data -> Errors + User.t;
  ChangePasswordSerializer : Data -> Errors + (string * string)
}.

(** A computation of a view: a value or an exception, and the world. *)
Definition View (A : Type) : Type := World -> Result A * World.

Definition ret {A} (a : A) : View A := fun w => (Ok a, w).

Definition raise {A} (e : PyExc) : View A := fun w => (Raise e, w).

Definition bind {A B} (m : View A) (k : A -> View B) : View B :=
  fun w =>
    match m w with
    | (Ok a, w') => k a w'
    | (Raise e, w') => (Raise e, w')
    end.

(** [try: m except Exception as e: h e] *)
Definition try_except {A} (m : View A) (h : PyExc -> View A) : View A :=
  fun w =>
    match m w with
    | (Ok a, w') => (Ok a, w')
    | (Raise e, w') => h e w'
    end.

(** A statement on the user table. *)
Definition on_users {A} (m : Orm.DB User.t A) : View A :=
  fun w => let '(r, t) := m (users w) in (r, set_users t w).

(** An exception no view catches becomes the 500 response. *)
Definition respond (v : View Response) (w : World) : Response * World :=
  match v w with
  | (Ok r, w') => (r, w')
  | (Raise e, w') => (mkResponse 500 (Traceback e), w')
  end.

Notation "x <<- e ;; k" := (bind e (fun x => k))
  (at level 100, e at next level, k at level 200, right associativity).

(** *** The framework around a view *)

(** The responses the views and the framework answer with. *)
Definition denied : Response :=
  mkResponse 403 (Detail "You do not have permission to perform this action.").

Definition unauthenticated : Response :=
  mkResponse 401 (Detail "Authentication credentials were not provided.").

Definition wrong_password : Response :=
  mkResponse 400 (FieldErrors [("old_password"%string, ["Wrong password."%string])]).

Definition logged_out : Response := mkResponse 200 (Message "Logged out successfully").

Definition password_changed : Response :=
  mkResponse 200 (Message "Password changed successfully").

Definition not_found : Response := mkResponse 404 (Detail "Not found.").

Inductive Permission := AllowAny | IsAuthenticated | IsAdminUser.

Definition has_permission (p : Permission) (req : Request) : bool :=
  match p, user req with
  | AllowAny, _ => true
  | IsAuthenticated, AuthUser _ => true
  | IsAdminUser, AuthUser u => User.is_staff u
  | _, AnonymousUser => false
  end.

(** [APIView.check_permissions] before the handler runs: a caller who was
    not authenticated gets 401 (the first authentication class is
    TokenAuthentication), an authenticated one 403. Throttling is left
    out. *)
Definition check_permissions (perms : list Permission) (req : Request)
    (handler : View Response) : View Response :=
  if forallb (fun p => has_permission p req) perms then handler
  else
    match user req with
    | AnonymousUser => ret unauthenticated
    | AuthUser _ => ret denied
    end.

(** settings.py: [DEFAULT_PAGINATION_CLASS] is PageNumberPagination, with
    PAGE_SIZE 20 unless the configuration of the deployment names another
    size. *)
Definition PAGE_SIZE : nat := 20.

(** The paginated response of [ListModelMixin.list] to a request that names
    no page: the count of the rows of the queryset, whether a next page
    exists, and the first PAGE_SIZE rows as [results]; [previous] is null
    on the first page and left out. The requests of this model carry no
    query string, so no page other than the first is asked for and the
    filter backends select nothing. *)
Definition first_page {A} (body : list A -> Body) (qs : list A) : Body :=
  Page (length qs) (Nat.ltb PAGE_SIZE (length qs)) (body (List.firstn PAGE_SIZE qs)).

(** The actions the two viewsets route. *)
Inductive Action :=
  | act_create | act_list | act_retrieve | act_update | act_partial_update
  | act_destroy | act_me | act_change_password | act_logout
  | act_deactivate | act_activate | act_my_profile.

(** [str(e)] for the exceptions the logout handler can catch. *)
Definition exc_str (e : PyExc) : string :=
  match e with
  | DoesNotExist => "CustomUser has no auth_token."
  | AttributeError => "'AnonymousUser' object has no attribute 'auth_token'"
  | _ => "error"
  end.

(** *** Tokens *)

Definition token_of (k : nat) (l : list Token.t) : option Token.t :=
  find (fun t => Nat.eqb (Token.user_id t) k) l.

(** [Token.objects.get_or_create(user=user)]: the stored token of the user,
    or a new one under a fresh random key; a key already in use violates
    the primary key. *)
Definition get_or_create (env : Env) (u : User.t) : View (Token.t * bool) :=
  fun w =>
    match User.pk u with
    | None => (Raise ValueError, w)
    | Some k =>
        match token_of k (tokens w) with
        | Some t => (Ok (t, false), w)
        | None =>
            let key := generate_key env (entropy w) in
            if existsb (fun t => String.eqb (Token.key t) key) (tokens w)
            then (Raise IntegrityError, draw w)
            else
              let t := Token.mk key k in
              (Ok (t, true), draw (set_tokens (tokens w ++ [t]) w))
        end
    end.

(** [request.user.auth_token] *)
Definition auth_token (c : Caller) : View Token.t :=
  fun w =>
    match c with
    | AnonymousUser => (Raise AttributeError, w)
    | AuthUser u =>
        match User.pk u with
        | None => (Raise DoesNotExist, w)
        | Some k =>
            match token_of k (tokens w) with
            | Some t => (Ok t, w)
            | None => (Raise DoesNotExist, w)
            end
        end
    end.

(** The world without the token of key [Token.key t]. *)
Definition without_token (t : Token.t) (w : World) : World :=
  set_tokens
    (List.filter (fun x => negb (String.eqb (Token.key x) (Token.key t))) (tokens w)) w.

(** [token.delete()] *)
Definition token_delete (t : Token.t) : View unit :=
  fun w => (Ok tt, without_token t w).

Definition user_save (u : User.t) : View User.t :=
  on_users (Orm.model_save User.pk User.set_pk User.constraints_ok u).

(** *** UserRegistrationViewSet, register_view *)

(** Modelled from the spec: accounts/serializers.py is not among the
    sources. [serializer.save()] of a registration "creates the principal
    with the credential stored only in hashed form": the validated user,
    which carries the hash, is saved. *)
Definition registration_save (validated : User.t) : View User.t :=
  user_save validated.

Module UserRegistrationViewSet.
Definition create (env : Env) (req : Request) : View Response :=
  fun w =>
    match UserRegistrationSerializer env (users w) (data req) with
    | inr validated =>
        (u <<- registration_save validated ;;
         tc <<- get_or_create env u ;;
         ret (mkResponse 201
                (AuthPayload u (Token.key (fst tc)) "User registered successfully"))) w
    | inl errors => (Ok (mkResponse 400 (FieldErrors errors)), w)
    end.
End UserRegistrationViewSet.

Definition register_view (env : Env) (req : Request) : World -> Response * World :=
  respond (check_permissions [AllowAny] req (UserRegistrationViewSet.create env req)).

(** *** UserLoginViewSet, login_view *)

Module UserLoginViewSet.
Definition create (env : Env) (req : Request) : View Response :=
  fun w =>
    match UserLoginSerializer env (users w) (data req) with
    | inr u =>
        (tc <<- get_or_create env u ;;
         ret (mkResponse 200 (AuthPayload u (Token.key (fst tc)) "Login successful"))) w
    | inl errors => (Ok (mkResponse 401 (FieldErrors errors)), w)
    end.
End UserLoginViewSet.

Definition login_view (env : Env) (req : Request) : World -> Response * World :=
  respond (check_permissions [AllowAny] req (UserLoginViewSet.create env req)).

(** *** UserViewSet *)

Module UserViewSet.

Definition get_queryset (req : Request) (w : World) : list User.t :=
  match user req with
  | AuthUser u =>
      if User.is_staff u then Orm.rows (users w)
      else List.filter (fun x => bool_decide (User.pk x = User.pk u)) (Orm.rows (users w))
  | AnonymousUser =>
      (* AnonymousUser.is_staff is False and its id is None *)
      List.filter (fun x => bool_decide (User.pk x = None)) (Orm.rows (users w))
  end.

Definition get_permissions (action : Action) : list Permission :=
  match action with
  | act_create | act_list => [IsAdminUser]
  | act_retrieve | act_update | act_partial_update => [IsAuthenticated]
  | act_destroy => [IsAdminUser]
  | _ => [IsAuthenticated]
  end.

(** [ListModelMixin.list] on the viewset's queryset, paginated. *)
Definition list (req : Request) : View Response :=
  fun w => (Ok (mkResponse 200 (first_page UserList (get_queryset req w))), w).

(** [UserBody u] stands for [UserSerializer(request.user).data], whose
    fields are those of a serializer that is not among the sources. *)
Definition me (req : Request) : View Response :=
  match user req with
  | AuthUser u => ret (mkResponse 200 (UserBody u))
  | AnonymousUser => raise AttributeError
  end.

(** [user.check_password] compares against the hash the request's user
    carries; its upgrade of an outdated hash, which only a matching
    password triggers, is left out. *)
Definition change_password (env : Env) (req : Request) : View Response :=
  fun w =>
    match ChangePasswordSerializer env (data req) with
    | inr (old_password, new_password) =>
        match user req with
        | AuthUser u =>
            if check_password env old_password (User.password u) then
              (* user.set_password(new_password); user.save() *)
              let u' := User.set_password_hash
                          (make_password env (entropy w) new_password) u in
              (_ <<- user_save u' ;; ret password_changed) (draw w)
            else (Ok wrong_password, w)
        | AnonymousUser => (Raise NotImplementedError, w)
        end
    | inl errors => (Ok (mkResponse 400 (FieldErrors errors)), w)
    end.

Definition logout (req : Request) : View Response :=
  try_except
    (t <<- auth_token (user req) ;;
     _ <<- token_delete t ;;
     ret logged_out)
    (fun e => ret (mkResponse 400 (ErrorBody (exc_str e)))).

(** The routed actions: permissions of [get_permissions], then the
    handler. *)
Definition list_endpoint (req : Request) : World -> Response * World :=
  respond (check_permissions (get_permissions act_list) req (list req)).

Definition change_password_endpoint (env : Env) (req : Request)
    : World -> Response * World :=
  respond (check_permissions (get_permissions act_change_password) req
             (change_password env req)).

Definition logout_endpoint (req : Request) : World -> Response * World :=
  respond (check_permissions (get_permissions act_logout) req (logout req)).

(** [get_object]: the row of [get_queryset] under the pk of the URL; the
    missing row is answered 404. *)
Definition get_object (req : Request) (pk : nat) (w : World) : option User.t :=
  find (Orm.has_pk User.pk pk) (get_queryset req w).

Definition deactivate (req : Request) (pk : nat) : View Response :=
  fun w =>
    match get_object req pk w with
    | Some u =>
        (u' <<- user_save (User.set_is_active false u) ;;
         ret (mkResponse 200
                (Message (String.append "User "
                            (String.append (User.username u') " has been deactivated"))))) w
    | None => (Ok not_found, w)
    end.

Definition activate (req : Request) (pk : nat) : View Response :=
  fun w =>
    match get_object req pk w with
    | Some u =>
        (u' <<- user_save (User.set_is_active true u) ;;
         ret (mkResponse 200
                (Message (String.append "User "
                            (String.append (User.username u') " has been activated"))))) w
    | None => (Ok not_found, w)
    end.

(** The routing of an action: [get_permissions] decides, whatever the
    decorator of the action declares. *)
Definition route (action : Action) (req : Request) (handler : View Response)
    : World -> Response * World :=
  respond (check_permissions (get_permissions action) req handler).

Definition deactivate_endpoint (req : Request) (pk : nat) : World -> Response * World :=
  route act_deactivate req (deactivate req pk).

Definition activate_endpoint (req : Request) (pk : nat) : World -> Response * World :=
  route act_activate req (activate req pk).

End UserViewSet.

(** *** UserProfileViewSet *)

Module UserProfileViewSet.

(** [filter(user=request.user)] cannot be built from an AnonymousUser. *)
Definition get_queryset (req : Request) (w : World) : Result (list UserProfile.t) :=
  match user req with
  | AuthUser u =>
      if User.is_staff u then Ok (profiles w)
      else Ok (List.filter
                 (fun x => bool_decide (Some (UserProfile.user_id x) = User.pk u))
                 (profiles w))
  | AnonymousUser => Raise TypeError
  end.

Definition get_permissions (action : Action) : list Permission :=
  match action with
  | act_list | act_destroy => [IsAdminUser]
  | act_retrieve | act_update | act_partial_update | act_create => [IsAuthenticated]
  | _ => [IsAuthenticated]
  end.

Definition list (req : Request) : View Response :=
  fun w =>
    match get_queryset req w with
    | Ok l => (Ok (mkResponse 200 (first_page ProfileList l)), w)
    | Raise e => (Raise e, w)
    end.

Definition list_endpoint (req : Request) : World -> Response * World :=
  respond (check_permissions (get_permissions act_list) req (list req)).

Definition route (action : Action) (req : Request) (handler : View Response)
    : World -> Response * World :=
  respond (check_permissions (get_permissions action) req handler).

End UserProfileViewSet.

(** *** logout_view *)

Definition logout_view (req : Request) : World -> Response * World :=
  respond
    (check_permissions [AllowAny] req
       (try_except
          (t <<- auth_token (user req) ;;
           _ <<- token_delete t ;;
           ret logged_out)
          (fun _ => ret (mkResponse 400 (ErrorBody "Logout failed"))))).

(** *** What the specification asks of the hashing service *)

(** [verify(p, hash(p))] holds. *)
Definition hasher_verifies (env : Env) : Prop :=
  forall n raw, check_password env raw (make_password env n raw) = true.

(** The stored hash of the user with pk [k]. *)
Definition stored_password (w : World) (k : nat) : option string :=
  match find (Orm.has_pk User.pk k) (Orm.rows (users w)) with
  | Some u => Some (User.password u)
  | None => None
  end.

(** The world where the row of pk [k] is [u] with its flag set to [b]. *)
Definition with_is_active (b : bool) (u : User.t) (k : nat) (w : World) : World :=
  set_users
    (Orm.mkTable (Orm.replace_row User.pk k (User.set_is_active b u) (Orm.rows (users w)))
                 (Orm.next_pk (users w))) w.

(** The tokens as the store keeps them: [key] is the primary key and
    [user] a one-to-one field, so no two tokens share a key or a user. *)
Definition tokens_ok (w : World) : Prop :=
  NoDup (map Token.user_id (tokens w)) /\ NoDup (map Token.key (tokens w)).

(** A computation keeps a property of the world. *)
Definition preserves (P : World -> Prop) {A} (v : View A) : Prop :=
  forall w, P w -> P (snd (v w)).

(** *** A concrete environment for the examples *)

Module Example.

Definition field (name : string) (d : Data) : option string :=
  match find (fun kv => String.eqb (fst kv) name) d with
  | Some kv => Some (snd kv)
  | None => None
  end.

(** A stand-in for the hasher: the plaintext under a tag. *)
Definition make_password (n : nat) (raw : string) : string :=
  String.append "plain$" raw.

Definition check_password (raw encoded : string) : bool :=
  String.eqb encoded (String.append "plain$" raw).

(** A stand-in for the random key: the draw number in unary. *)
Fixpoint generate_key (n : nat) : string :=
  match n with
  | O => "k"
  | S m => String "k"%char (generate_key m)
  end.

Definition all_digits (s : string) : bool :=
  forallb (Products.Slug.between 48 57) (list_ascii_of_string s).

Definition generic_failure : Errors :=
  [("non_field_errors"%string, ["Unable to log in with provided credentials."%string])].

(** Modelled from the spec: accounts/serializers.py is not among the
    sources. Registration accepts a login identifier, a credential and its
    confirmation; the identifier must be new, the credential at least
    eight characters long and not purely numeric (the common-credential
    and similarity checks are left out), and the principal is created with
    the credential in hashed form. *)
Definition UserRegistrationSerializer (us : Orm.Table User.t) (d : Data)
    : Errors + User.t :=
  match field "username" d, field "password" d, field "password2" d with
  | Some n, Some p, Some p2 =>
      if existsb (fun u => String.eqb (User.username u) n) (Orm.rows us)
      then inl [("username"%string, ["A user with that username already exists."%string])]
      else if negb (String.eqb p p2)
      then inl [("password"%string, ["Password fields didn't match."%string])]
      else if Nat.ltb (String.length p) 8 || all_digits p
      then inl [("password"%string, ["This password is not strong enough."%string])]
      else inr (User.mk None n (make_password 0 p) true false)
  | _, _, _ => inl [("non_field_errors"%string, ["This field is required."%string])]
  end.

(** Modelled from the spec: login verifies that the identifier resolves to
    an active principal and that the credential matches the stored hash,
    and fails with one generic error otherwise. *)
Definition UserLoginSerializer (us : Orm.Table User.t) (d : Data)
    : Errors + User.t :=
  match field "username" d, field "password" d with
  | Some n, Some p =>
      match find (fun u => String.eqb (User.username u) n) (Orm.rows us) with
      | Some u =>
          if User.is_active u && check_password p (User.password u) then inr u
          else inl generic_failure
      | None => inl generic_failure
      end
  | _, _ => inl generic_failure
  end.

(** Modelled from the spec: the change of password takes the current
    credential and a new one, which passes the strength validation of
    registration. *)
Definition ChangePasswordSerializer (d : Data) : Errors + (string * string) :=
  match field "old_password" d, field "new_password" d with
  | Some o, Some n =>
      if Nat.ltb (String.length n) 8 || all_digits n
      then inl [("new_password"%string, ["This password is not strong enough."%string])]
      else inr (o, n)
  | _, _ => inl [("non_field_errors"%string, ["This field is required."%string])]
  end.

Definition env : Env :=
  mkEnv generate_key make_password check_password
        UserRegistrationSerializer UserLoginSerializer ChangePasswordSerializer.

Definition empty_world : World := mkWorld Orm.empty [] [] 0.

End Example.

End Accounts.

(** ** Sample data for the examples *)

Module Samples.
Import PyDecimal Products Accounts.

(** price 100.00, discount price 75.00 *)
Definition sample_product : Product.t :=
  Product.mk (mkDec 10000 (-2)) (Some (mkDec 7500 (-2))) 3.

(** price 100.00, discount price 80.00 *)
Definition cheaper_product : Product.t :=
  Product.mk (mkDec 10000 (-2)) (Some (mkDec 8000 (-2))) 3.

Definition first_image : ProductImage.t := ProductImage.mk None 7 true 0.
Definition second_image : ProductImage.t := ProductImage.mk None 7 true 1.
Definition other_image : ProductImage.t := ProductImage.mk None 7 false 0.
Definition image_of_8 : ProductImage.t := ProductImage.mk None 8 true 0.

Definition shoes : Category.t := Category.mk None "Shoes" EmptyString None.
Definition boots : Category.t := Category.mk None "Boots" EmptyString (Some 1).
Definition stored_shoes : Category.t := Category.mk (Some 1) "Shoes" "shoes" None.
Definition nike : Brand.t := Brand.mk None "Nike" EmptyString.
Definition stored_nike : Brand.t := Brand.mk (Some 1) "Nike" "nike".
Definition orphan : Category.t := Category.mk None "Sandals" EmptyString (Some 5).

Definition alice : User.t := User.mk (Some 1) "a@x.com" "plain$Str0ngPass!" true false.
Definition bob : User.t := User.mk (Some 2) "b@x.com" "plain$An0therPass!" true false.

Definition two_users : World :=
  mkWorld (Orm.mkTable [alice; bob] 3) []
          [UserProfile.mk (Some 1) 1; UserProfile.mk (Some 2) 2] 0.

Definition registration : Request :=
  mkRequest AnonymousUser
    [("username", "a@x.com"); ("password", "Str0ngPass!"); ("password2", "Str0ngPass!")]%string.

Definition credentials : Request :=
  mkRequest AnonymousUser [("username", "a@x.com"); ("password", "Str0ngPass!")]%string.

Definition registered : World :=
  mkWorld (Orm.mkTable [alice] 2) [Token.mk "k" 1] [] 1.

(** An administrator. *)
Definition carol : User.t := User.mk (Some 3) "c@x.com" "plain$Adm1nPass!" true true.

Definition three_users : World :=
  mkWorld (Orm.mkTable [alice; bob; carol] 4) [Token.mk "k" 1; Token.mk "kk" 2] [] 2.

End Samples.

(** * Properties *)

(** ** Rounding and digit counts *)

Module PyDecimalFacts.
Import PyDecimal.
Local Open Scope Z_scope.

Lemma pow10_pos (k : Z) : 0 <= k -> 0 < 10 ^ k.
Proof. intros Hk. apply Z.pow_pos_nonneg; lia. Qed.

Lemma pow10_split (j k : Z) : 0 <= j -> 0 <= k -> 10 ^ (j + k) = 10 ^ j * 10 ^ k.
Proof. intros. apply Z.pow_add_r; lia. Qed.

Lemma pow10_le (j k : Z) : 0 <= j <= k -> 10 ^ j <= 10 ^ k.
Proof. intros. apply Z.pow_le_mono_r; lia. Qed.

Lemma pow10_succ (k : Z) : 0 <= k -> 10 ^ (k + 1) = 10 * 10 ^ k.
Proof. intros. rewrite Z.add_1_r, Z.pow_succ_r; lia. Qed.

(** The digit count brackets its argument between powers of ten. *)
Lemma ndigits_aux_spec (fuel : nat) :
  forall n, 0 <= n < 2 ^ (Z.of_nat fuel + 1) ->
    1 <= ndigits_aux fuel n /\
    n < 10 ^ ndigits_aux fuel n /\
    (0 < n -> 10 ^ (ndigits_aux fuel n - 1) <= n).
Proof.
  induction fuel as [|f IH]; intros n Hn.
  - simpl in *. change (2 ^ 1) with 2 in Hn. repeat split; try lia.
  - cbn [ndigits_aux]. destruct (Z.ltb_spec n 10) as [Hlt|Hge].
    + repeat split; try lia; intros; simpl; lia.
    + assert (Hq : 0 <= n / 10 < 2 ^ (Z.of_nat f + 1)).
      { split; [apply Z.div_pos; lia|].
        apply Z.div_lt_upper_bound; [lia|].
        replace (Z.of_nat (S f) + 1) with (Z.succ (Z.of_nat f + 1)) in Hn by lia.
        rewrite Z.pow_succ_r in Hn by lia. lia. }
      destruct (IH _ Hq) as (H1 & H2 & H3).
      set (d := ndigits_aux f (n / 10)) in *.
      assert (Hdm : n = 10 * (n / 10) + n mod 10) by (apply Z.div_mod; lia).
      assert (Hr : 0 <= n mod 10 < 10) by (apply Z.mod_pos_bound; lia).
      repeat split; try lia.
      * replace (1 + d) with (d + 1) by lia. rewrite pow10_succ by lia. lia.
      * intros _. replace (1 + d - 1) with (d - 1 + 1) by lia.
        rewrite pow10_succ by lia.
        assert (0 < n / 10) by (apply Z.div_str_pos; lia). lia.
Qed.

Lemma ndigits_spec (n : Z) : 0 <= n ->
  1 <= ndigits n /\ n < 10 ^ ndigits n /\ (0 < n -> 10 ^ (ndigits n - 1) <= n).
Proof.
  intros Hn. unfold ndigits. apply ndigits_aux_spec.
  split; [lia|].
  destruct (Z.eq_dec n 0) as [->|Hnz]; [simpl; lia|].
  rewrite Z2Nat.id by apply Z.log2_nonneg.
  rewrite Z.add_1_r. apply Z.log2_spec. lia.
Qed.

Lemma ndigits_upper (n k : Z) : 0 <= n < 10 ^ k -> 1 <= k -> ndigits n <= k.
Proof.
  intros [Hn Hlt] Hk.
  destruct (ndigits_spec n Hn) as (H1 & H2 & H3).
  destruct (Z.eq_dec n 0) as [->|Hnz].
  - unfold ndigits; simpl; lia.
  - destruct (Z_le_gt_dec (ndigits n) k) as [|Hgt]; [assumption|exfalso].
    assert (10 ^ k <= 10 ^ (ndigits n - 1)) by (apply pow10_le; lia).
    specialize (H3 ltac:(lia)). lia.
Qed.

Lemma ndigits_lower (n k : Z) : 0 <= k -> 10 ^ k <= n -> k + 1 <= ndigits n.
Proof.
  intros Hk Hle.
  assert (Hn : 0 <= n) by (pose proof (pow10_pos k Hk); lia).
  destruct (ndigits_spec n Hn) as (H1 & H2 & _).
  destruct (Z_le_gt_dec (k + 1) (ndigits n)) as [|Hgt]; [assumption|exfalso].
  assert (10 ^ ndigits n <= 10 ^ k) by (apply pow10_le; lia). lia.
Qed.

Lemma div_half_even_nearest (num den : Z) :
  0 < den -> nearest_even num den (div_half_even num den).
Proof.
  intros Hd. unfold div_half_even, nearest_even.
  pose proof (Z.div_mod num den ltac:(lia)) as Hdm.
  pose proof (Z.mod_pos_bound num den Hd) as Hr.
  set (q := num / den) in *. set (r := num mod den) in *.
  destruct (Z.ltb_spec (2 * r) den) as [H1|H1].
  - split; [nia|]. intros [H|H]; nia.
  - destruct (Z.ltb_spec den (2 * r)) as [H2|H2].
    + split; [nia|]. intros [H|H]; nia.
    + destruct (Z.even q) eqn:Hev.
      * split; [nia|]. intros _. exact Hev.
      * split; [nia|]. intros _. rewrite Z.even_add, Hev. reflexivity.
Qed.

Lemma nearest_even_unique (num den m m' : Z) :
  0 < den -> nearest_even num den m -> nearest_even num den m' -> m = m'.
Proof.
  intros Hd [Hm Hme] [Hm' Hme'].
  assert (Hclose : -1 <= m - m' <= 1) by nia.
  destruct (Z.eq_dec m m') as [|Hne]; [assumption|exfalso].
  assert (Hcase : m' = m + 1 \/ m = m' + 1) by lia.
  destruct Hcase as [->| ->].
  - assert (E1 : 2 * (num - m * den) = den) by nia.
    assert (E2 : 2 * (num - (m + 1) * den) = - den) by nia.
    specialize (Hme (or_introl E1)). specialize (Hme' (or_intror E2)).
    rewrite Z.even_add, Hme in Hme'. discriminate.
  - assert (E1 : 2 * (num - m' * den) = den) by nia.
    assert (E2 : 2 * (num - (m' + 1) * den) = - den) by nia.
    specialize (Hme' (or_introl E1)). specialize (Hme (or_intror E2)).
    rewrite Z.even_add, Hme' in Hme. discriminate.
Qed.

Lemma div_half_even_unique (num den m : Z) :
  0 < den -> nearest_even num den m -> div_half_even num den = m.
Proof.
  intros Hd Hm. eapply nearest_even_unique; eauto using div_half_even_nearest.
Qed.

Lemma div_half_even_nonneg (num den : Z) :
  0 <= num -> 0 < den -> 0 <= div_half_even num den.
Proof.
  intros Hn Hd. destruct (div_half_even_nearest num den Hd) as [H _]. nia.
Qed.

Lemma div_half_even_exact (m den : Z) : 0 < den -> div_half_even (m * den) den = m.
Proof.
  intros Hd. apply div_half_even_unique; [assumption|].
  split; [lia|]. intros [H|H]; lia.
Qed.

(** Rounding does not depend on a common factor of both parts. *)
Lemma div_half_even_scale (num den k : Z) :
  0 < den -> 0 < k -> div_half_even (num * k) (den * k) = div_half_even num den.
Proof.
  intros Hd Hk. apply div_half_even_unique; [nia|].
  destruct (div_half_even_nearest num den Hd) as [H He].
  set (m := div_half_even num den) in *.
  split; [nia|]. intros [E|E]; apply He; [left|right]; nia.
Qed.

(** Rounding at a fine scale [N] first does not change the rounding to an
    integer, as long as the denominator is below [N]: no quotient by [b]
    comes closer than [1/(2b)] to a tie without being one. *)
Lemma div_half_even_twice (A b N : Z) :
  0 < b < N -> Z.even N = true ->
  div_half_even (div_half_even (A * N) b) N = div_half_even A b.
Proof.
  intros [Hb HbN] HevN. symmetry. apply div_half_even_unique; [lia|].
  destruct (div_half_even_nearest (A * N) b Hb) as [Hc _].
  set (c := div_half_even (A * N) b) in *.
  destruct (div_half_even_nearest c N ltac:(lia)) as [Hr Hre].
  set (r := div_half_even c N) in *.
  apply Z.even_spec in HevN as [N' HN'].
  assert (Hsum : 2 * N * (A - r * b) = 2 * (A * N - c * b) + b * (2 * (c - r * N))) by ring.
  set (u := 2 * (A * N - c * b)) in *. set (v := 2 * (c - r * N)) in *.
  set (X := A - r * b) in *.
  assert (Hup : 2 * X <= b).
  { destruct (Z_le_gt_dec (2 * X) b) as [|Hgt]; [assumption|exfalso].
    assert (N * (b + 1) <= N * (2 * X)) by (apply Z.mul_le_mono_nonneg_l; lia). nia. }
  assert (Hlo : - b <= 2 * X).
  { destruct (Z_le_gt_dec (- b) (2 * X)) as [|Hgt]; [assumption|exfalso].
    assert (N * (2 * X) <= N * (- b - 1)) by (apply Z.mul_le_mono_nonneg_l; lia). nia. }
  split; [lia|].
  intros [E|E]; apply Hre.
  - left. assert (Hu : u = b * (N - v)) by nia.
    assert (-1 <= N - v <= 1) by nia.
    unfold v in *. lia.
  - right. assert (Hu : u = b * (- N - v)) by nia.
    assert (-1 <= - N - v <= 1) by nia.
    unfold v in *. lia.
Qed.

Lemma fix_small (d : Decimal) : Z.abs (coef d) < 10 ^ prec -> fix_ d = d.
Proof.
  intros H. unfold fix_.
  assert (ndigits (Z.abs (coef d)) <= prec)
    by (apply ndigits_upper; [lia | unfold prec; lia]).
  destruct (Z.leb_spec (ndigits (Z.abs (coef d))) prec); [reflexivity | lia].
Qed.

(** The scale the division picks leaves a quotient below [10 ^ prec]. *)
Lemma quot_scale_bound (a b s : Z) :
  0 < a -> 0 < b ->
  s = (if quot_has_extra_digit a b
       then ndigits b - ndigits a + prec - 1
       else ndigits b - ndigits a + prec) ->
  0 <= s -> a * 10 ^ s < b * 10 ^ prec.
Proof.
  intros Ha Hb Hs Hs0.
  destruct (ndigits_spec a ltac:(lia)) as (Ha1 & Ha2 & Ha3).
  destruct (ndigits_spec b ltac:(lia)) as (Hb1 & Hb2 & Hb3).
  specialize (Ha3 Ha). specialize (Hb3 Hb).
  unfold quot_has_extra_digit in Hs.
  set (na := ndigits a) in *. set (nb := ndigits b) in *.
  assert (Hextra : 0 <= nb - na + prec - 1 ->
                   a * 10 ^ (nb - na + prec - 1) < b * 10 ^ prec).
  { intros Hnn.
    apply Z.lt_le_trans with (10 ^ na * 10 ^ (nb - na + prec - 1)).
    - apply Z.mul_lt_mono_pos_r; [apply pow10_pos; lia | lia].
    - rewrite <- pow10_split by lia.
      replace (na + (nb - na + prec - 1)) with ((nb - 1) + prec) by lia.
      rewrite pow10_split by (unfold prec; lia).
      apply Z.mul_le_mono_nonneg_r; [unfold prec; lia | lia]. }
  destruct (Z.leb_spec nb na) as [Hle|Hgt].
  - destruct (Z.leb_spec (b * 10 ^ (na - nb)) a) as [Hx|Hx];
      subst s; [apply Hextra; assumption|].
    apply Z.lt_le_trans with (b * 10 ^ (na - nb) * 10 ^ (nb - na + prec)).
    + apply Z.mul_lt_mono_pos_r; [apply pow10_pos; lia | lia].
    + rewrite <- Z.mul_assoc, <- pow10_split by lia.
      replace (na - nb + (nb - na + prec)) with prec by lia. lia.
  - destruct (Z.leb_spec b (a * 10 ^ (nb - na))) as [Hx|Hx];
      subst s; [apply Hextra; assumption|].
    rewrite pow10_split by (unfold prec; lia).
    rewrite Z.mul_assoc.
    apply Z.mul_lt_mono_pos_r; [unfold prec; lia | lia].
Qed.

(** A quotient below [10 ^ prec] rounds to at most [10 ^ prec]. *)
Lemma div_half_even_le (num den B : Z) :
  0 < den -> num <= den * B -> div_half_even num den <= B.
Proof.
  intros Hd Hn. destruct (div_half_even_nearest num den Hd) as [H _]. nia.
Qed.

(** After a multiplication by 100 the rounding of [_fix] drops zeros only,
    so it does not show in a later [quantize]. *)
Lemma rescale_fix_mul100 (sg c e t : Z) :
  sg = 1 \/ sg = -1 -> 0 <= c <= 10 ^ prec -> e + 4 <= t ->
  rescale (fix_ (mkDec (sg * c * 100) e)) t = rescale (mkDec (sg * c * 100) e) t.
Proof.
  intros Hsg Hc Ht. unfold fix_. cbn [coef expo].
  assert (Habs : Z.abs (sg * c * 100) = c * 100) by (destruct Hsg; subst; lia).
  rewrite Habs.
  destruct (Z.leb_spec (ndigits (c * 100)) prec) as [|Hn]; [reflexivity|].
  assert (Hn31 : ndigits (c * 100) <= 31)
    by (apply ndigits_upper; unfold prec in *; lia).
  destruct (ndigits_spec (c * 100) ltac:(lia)) as (_ & _ & Hlow).
  assert (Hcpos : 0 < c).
  { destruct (Z.eq_dec c 0) as [->|]; [|lia]. vm_compute in Hn. discriminate. }
  specialize (Hlow ltac:(lia)).
  set (n := ndigits (c * 100)) in *.
  assert (Hm : exists m, 0 < m /\ c * 100 = m * 10 ^ (n - prec)).
  { assert (Hk : n = 29 \/ n = 30 \/ n = 31) by (unfold prec in *; lia).
    unfold prec in *.
    destruct Hk as [Hk|[Hk|Hk]]; rewrite Hk in *.
    - exists (c * 10). change (10 ^ (29 - 28)) with 10. lia.
    - exists c. change (10 ^ (30 - 28)) with 100. lia.
    - exists (10 ^ 27). change (10 ^ (31 - 28)) with 1000.
      change (10 ^ (31 - 1)) with (10 ^ 28 * 100) in Hlow. lia. }
  destruct Hm as (m & Hm0 & Hm).
  assert (Hk : 1 <= n - prec <= 3) by (unfold prec in *; lia).
  set (k := n - prec) in *.
  pose proof (pow10_pos k ltac:(lia)) as Hpk.
  rewrite Hm, div_half_even_exact by assumption.
  unfold rescale. cbn [coef expo].
  destruct (Z.leb_spec t (e + k)); [lia|].
  destruct (Z.leb_spec t e); [lia|].
  rewrite Habs, Hm.
  replace (t - e) with ((t - (e + k)) + k) by lia.
  rewrite pow10_split by lia.
  rewrite div_half_even_scale by (try apply pow10_pos; lia).
  assert (Hs1 : Z.sgn (sg * c * 100) = sg) by (destruct Hsg; subst; lia).
  rewrite Hs1.
  assert (Hs2 : Z.sgn (sg * m) = sg) by (destruct Hsg; subst; lia).
  assert (Ha2 : Z.abs (sg * m) = m) by (destruct Hsg; subst; lia).
  rewrite Hs2, Ha2. reflexivity.
Qed.

End PyDecimalFacts.

(** ** Pricing *)

Module ProductFacts.
Import PyDecimal PyDecimalFacts Products Samples.
Local Open Scope Z_scope.

(** The arithmetic of [discount_percentage] on stored values: the division
    at 28 digits, the product by 100 and the rounding to two places give
    the exact ratio rounded once. *)
Lemma percentage_arith (P D : Z) :
  Z.abs P < 10 ^ 10 -> Z.abs D < 10 ^ 10 -> D < P -> P <> 0 ->
  (q <~ dec_div (dec_sub (mkDec P (-2)) (mkDec D (-2))) (mkDec P (-2)) ;;
   py_round (dec_mul q (of_int 100)) 2)
  = Ok (mkDec (Product.round_ratio (100 * (100 * (P - D))) P) (-2)).
Proof.
  intros HP HD Hlt HP0.
  assert (Hsub : dec_sub (mkDec P (-2)) (mkDec D (-2)) = mkDec (P - D) (-2)).
  { unfold dec_sub. cbn [coef expo]. change (Z.min (-2) (-2)) with (-2).
    change (-2 - -2) with 0. change (10 ^ 0) with 1. rewrite !Z.mul_1_r.
    apply fix_small. cbn [coef]. unfold prec. lia. }
  rewrite Hsub. unfold dec_div. cbn [coef expo].
  destruct (Z.eqb_spec P 0) as [|_]; [contradiction|].
  destruct (Z.eqb_spec (P - D) 0) as [|_]; [lia|].
  set (a := Z.abs (P - D)). set (b := Z.abs P).
  assert (Ha : 0 < a < 10 ^ 11) by (unfold a; lia).
  assert (Hb : 0 < b < 10 ^ 10) by (unfold b; lia).
  set (s := if quot_has_extra_digit a b
            then ndigits b - ndigits a + prec - 1
            else ndigits b - ndigits a + prec).
  assert (Hna : 1 <= ndigits a <= 11).
  { split; [apply (ndigits_spec a); lia | apply ndigits_upper; lia]. }
  assert (Hnb : 1 <= ndigits b <= 10).
  { split; [apply (ndigits_spec b); lia | apply ndigits_upper; lia]. }
  assert (Hs : 17 <= s <= 37).
  { unfold s, prec. destruct (quot_has_extra_digit a b); lia. }
  pose proof (quot_scale_bound a b s ltac:(lia) ltac:(lia) eq_refl ltac:(lia)) as Hscale.
  cbn [rbind]. unfold py_round, quantize, dec_mul, of_int. cbn [coef expo].
  change (- (2)) with (-2).
  replace (-2 - -2 - s + 0) with (- s) by lia.
  set (sg := Z.sgn (P - D) * Z.sgn P).
  assert (Hsg : sg = 1 \/ sg = -1) by (unfold sg; lia).
  assert (Hsq : scaled_quot a b s = div_half_even (a * 10 ^ s) b).
  { unfold scaled_quot. destruct (Z.leb_spec 0 s); [reflexivity | lia]. }
  rewrite Hsq. set (c := div_half_even (a * 10 ^ s) b).
  pose proof (pow10_pos s ltac:(lia)) as Hps.
  assert (Hc : 0 < c <= 10 ^ prec).
  { split.
    - destruct (div_half_even_nearest (a * 10 ^ s) b ltac:(lia)) as [Hn _].
      fold c in Hn.
      assert (10 ^ 10 <= 10 ^ s) by (apply pow10_le; lia). nia.
    - apply div_half_even_le; lia. }
  rewrite rescale_fix_mul100 by lia.
  unfold rescale. cbn [coef expo].
  destruct (Z.leb_spec (- 2) (- s)); [lia|].
  assert (Habs : Z.abs (sg * c * 100) = c * 100) by (destruct Hsg; subst; lia).
  assert (Hsgn : Z.sgn (sg * c * 100) = sg) by (destruct Hsg; subst; lia).
  rewrite Habs, Hsgn.
  set (N := 10 ^ (s - 4)).
  assert (HN : 10 ^ 10 <= N) by (apply pow10_le; lia).
  assert (HevN : Z.even N = true) by (unfold N; rewrite Z.even_pow by lia; reflexivity).
  assert (Hr : div_half_even (c * 100) (10 ^ (- 2 - - s)) = div_half_even (a * 10 ^ 4) b).
  { replace (- 2 - - s) with ((s - 4) + 2) by lia.
    rewrite pow10_split by lia. fold N. change (10 ^ 2) with 100.
    rewrite div_half_even_scale by lia.
    unfold c. replace s with (4 + (s - 4)) at 1 by lia.
    rewrite pow10_split by lia. fold N. rewrite Z.mul_assoc.
    apply div_half_even_twice; [lia | assumption]. }
  rewrite Hr. set (r := div_half_even (a * 10 ^ 4) b).
  assert (Hrb : 0 <= r < 10 ^ prec).
  { split; [apply div_half_even_nonneg; lia|].
    destruct (div_half_even_nearest (a * 10 ^ 4) b ltac:(lia)) as [Hn _].
    fold r in Hn. unfold prec. nia. }
  assert (Hnd : ndigits (Z.abs (sg * r)) <= prec).
  { apply ndigits_upper; [|unfold prec; lia]. destruct Hsg; subst sg; lia. }
  destruct (Z.leb_spec (ndigits (Z.abs (sg * r))) prec); [|lia].
  f_equal. f_equal. unfold Product.round_ratio.
  replace (Z.abs (100 * (100 * (P - D)))) with (a * 10 ^ 4) by (unfold a; lia).
  fold b r. unfold sg. f_equal. lia.
Qed.

Lemma rbind_assoc {A B C} (r : Result A) (f : A -> Result B) (g : B -> Result C) :
  rbind r (fun a => rbind (f a) g) = rbind (rbind r f) g.
Proof. destruct r; reflexivity. Qed.

Lemma dec_ltb_stored (a b : Z) : dec_ltb (mkDec a (-2)) (mkDec b (-2)) = (a <? b).
Proof.
  unfold dec_ltb, dec_cmp. cbn [coef expo]. change (Z.min (-2) (-2)) with (-2).
  change (-2 - -2) with 0. change (10 ^ 0) with 1. rewrite !Z.mul_1_r. reflexivity.
Qed.

Lemma py_eq_refl (d : Decimal) : Product.py_eq (Product.PyDec d) (Product.PyDec d) = true.
Proof.
  unfold Product.py_eq, dec_eqb, dec_cmp. cbn [Product.as_decimal].
  rewrite Z.compare_refl. reflexivity.
Qed.

(** On a positive price the specification's rounding is the nearest
    hundredth of a percent, ties to the even one. *)
Lemma round_ratio_nearest (P d : Z) :
  0 < P -> d < P ->
  nearest_even (100 * (100 * (P - d))) P
    (Product.round_ratio (100 * (100 * (P - d))) P).
Proof.
  intros HP Hd. unfold Product.round_ratio.
  replace (Z.sgn (100 * (100 * (P - d))) * Z.sgn P) with 1 by lia.
  rewrite Z.mul_1_l, !Z.abs_eq by lia.
  apply div_half_even_nearest. assumption.
Qed.

(** C2. For every product as the fields store it, [has_discount] holds
    exactly when a discount price is set and is below the price, and
    [discount_percentage] is 0 without a discount and otherwise equals
    [round(100 * (price - discount_price) / price, 2)] computed exactly;
    where that quotient has no value (a zero price) the property raises
    DivisionByZero. *)
Theorem discount_percentage_spec (p : Product.t) :
  Product.stored_product p ->
  let P := coef (Product.price p) in
  let D := option_map coef (Product.discount_price p) in
  (Product.has_discount p = true <-> exists d, D = Some d /\ d < P) /\
  match Product.spec_discount_percentage P D with
  | Some h =>
      exists n, Product.discount_percentage p = Ok n /\
                Product.py_eq n (Product.PyDec (mkDec h (-2))) = true
  | None => Product.discount_percentage p = Raise DivisionByZero
  end.
Proof.
  destruct p as [[P eP] [[Dc eD]|] st]; unfold Product.stored_product, Product.stored_decimal;
    cbn [Product.price Product.discount_price coef expo option_map].
  - intros [[-> HP] [-> HD]].
    unfold Product.has_discount, Product.discount_percentage, Product.spec_discount_percentage.
    unfold Product.has_discount. cbn [Product.price Product.discount_price].
    rewrite dec_ltb_stored. split.
    + split.
      * intros H. apply Z.ltb_lt in H. eauto.
      * intros (d & Hd & Hlt). inversion Hd; subst. apply Z.ltb_lt. assumption.
    + destruct (Z.leb_spec P Dc) as [Hle|Hlt].
      * destruct (Z.ltb_spec Dc P) as [|_]; [lia|].
        exists (Product.PyInt 0). split; reflexivity.
      * destruct (Z.ltb_spec Dc P) as [_|]; [|lia].
        destruct (Z.eqb_spec P 0) as [->|HP0].
        -- unfold dec_sub. cbn [coef expo]. change (Z.min (-2) (-2)) with (-2).
           change (-2 - -2) with 0. change (10 ^ 0) with 1. rewrite !Z.mul_1_r.
           rewrite fix_small by (cbn [coef]; unfold prec; lia).
           unfold dec_div. cbn [coef expo rbind].
           destruct (Z.eqb_spec (0 - Dc) 0); [lia | reflexivity].
        -- rewrite (rbind_assoc _ (fun q => py_round (dec_mul q (of_int 100)) 2)).
           rewrite percentage_arith by assumption. cbn [rbind].
           eexists. split; [reflexivity | apply py_eq_refl].
  - intros _. split.
    + split; [discriminate|]. intros (d & Hd & _). discriminate.
    + exists (Product.PyInt 0). split; reflexivity.
Qed.

(** price 100.00 with discount price 75.00: a discount of 25.00 percent *)
Lemma discount_percentage_spec_witness :
  Product.stored_product sample_product /\
  (Product.has_discount sample_product = true <->
     exists d, Some 7500 = Some d /\ d < 10000) /\
  exists n, Product.discount_percentage sample_product = Ok n /\
            Product.py_eq n (Product.PyDec (mkDec 2500 (-2))) = true.
Proof.
  assert (Hst : Product.stored_product sample_product)
    by (repeat split; vm_compute; reflexivity).
  split; [exact Hst|].
  exact (discount_percentage_spec sample_product Hst).
Defined.

(** With a zero price the comparison of [has_discount] lets through
    negative discount prices only: any other one gives 0. *)
Lemma zero_price_guarded (p : Product.t) (d : Decimal) :
  Product.stored_product p ->
  coef (Product.price p) = 0 ->
  Product.discount_price p = Some d ->
  0 <= coef d ->
  Product.discount_percentage p = Ok (Product.PyInt 0).
Proof.
  destruct p as [[P eP] dp st]. destruct d as [Dc eD].
  unfold Product.stored_product, Product.stored_decimal.
  cbn [Product.price Product.discount_price coef expo].
  intros [[He _] Hd] HP Hdp Hnn. subst. destruct Hd as [HeD _].
  cbn [expo] in HeD. subst. unfold Product.discount_percentage, Product.has_discount.
  cbn [Product.price Product.discount_price]. rewrite dec_ltb_stored.
  destruct (Z.ltb_spec Dc 0); [lia | reflexivity].
Qed.

(** C3, as stated, fails on the products the fields admit: at the price
    0.00 the discount prices 0.00 and 5.00, which the validator of the
    field lets pass, do not get past [has_discount], and
    [discount_percentage] returns 0 without dividing. *)
Lemma zero_price_returns_zero :
  Product.has_discount (Product.mk (mkDec 0 (-2)) (Some (mkDec 0 (-2))) 0) = false /\
  Product.discount_percentage (Product.mk (mkDec 0 (-2)) (Some (mkDec 0 (-2))) 0)
  = Ok (Product.PyInt 0) /\
  Product.has_discount (Product.mk (mkDec 0 (-2)) (Some (mkDec 500 (-2))) 0) = false /\
  Product.discount_percentage (Product.mk (mkDec 0 (-2)) (Some (mkDec 500 (-2))) 0)
  = Ok (Product.PyInt 0).
Proof. repeat split; vm_compute; reflexivity. Qed.

(** C3, amended. For every product as the fields store it with base price
    0 and a discount price set: when the discount price is not negative
    (what MinValueValidator(0) admits) [has_discount] is false and
    [discount_percentage] returns 0, the comparison of [has_discount]
    guarding the division; the division by the zero price is reached for a
    negative discount price only, and raises DivisionByZero. *)
Theorem zero_price_policy (p : Product.t) (d : Decimal) :
  Product.stored_product p ->
  coef (Product.price p) = 0 ->
  Product.discount_price p = Some d ->
  (0 <= coef d ->
     Product.has_discount p = false /\
     Product.discount_percentage p = Ok (Product.PyInt 0)) /\
  (coef d < 0 ->
     Product.has_discount p = true /\
     Product.discount_percentage p = Raise DivisionByZero).
Proof.
  destruct p as [[P eP] dp st]. destruct d as [Dc eD].
  unfold Product.stored_product, Product.stored_decimal.
  cbn [Product.price Product.discount_price coef expo].
  intros [[He _] Hd] HP Hdp. subst. destruct Hd as [HeD HD].
  cbn [expo coef] in HeD, HD. subst.
  unfold Product.discount_percentage, Product.has_discount.
  cbn [Product.price Product.discount_price]. rewrite dec_ltb_stored.
  split; intros Hsign.
  - destruct (Z.ltb_spec Dc 0); [lia | split; reflexivity].
  - destruct (Z.ltb_spec Dc 0); [|lia]. split; [reflexivity|].
    unfold dec_sub. cbn [coef expo]. change (Z.min (-2) (-2)) with (-2).
    change (-2 - -2) with 0. change (10 ^ 0) with 1. rewrite !Z.mul_1_r.
    rewrite fix_small by (cbn [coef]; unfold prec; lia).
    unfold dec_div. cbn [coef expo rbind].
    destruct (Z.eqb_spec (0 - Dc) 0); [lia | reflexivity].
Qed.

(** The price 0.00 with the discount price 5.00. *)
Lemma zero_price_policy_witness :
  let p := Product.mk (mkDec 0 (-2)) (Some (mkDec 500 (-2))) 0 in
  Product.stored_product p /\
  coef (Product.price p) = 0 /\
  Product.discount_price p = Some (mkDec 500 (-2)) /\
  Product.has_discount p = false /\
  Product.discount_percentage p = Ok (Product.PyInt 0).
Proof.
  intros p.
  assert (Hst : Product.stored_product p) by (repeat split; vm_compute; reflexivity).
  split; [exact Hst|]. split; [reflexivity|]. split; [reflexivity|].
  apply (proj1 (zero_price_policy p (mkDec 500 (-2)) Hst eq_refl eq_refl)).
  cbn [coef]. lia.
Defined.

End ProductFacts.

(** ** Lists *)

Module ListFacts.

Lemma nodup_map_nodup {A B} (f : A -> B) (l : list A) : NoDup (map f l) -> NoDup l.
Proof.
  induction l as [|a l IH]; cbn [map]; intros H; [apply NoDup_nil; exact I|].
  apply NoDup_cons in H as [Hn H]. apply NoDup_cons. split; [|auto].
  intros Hin. apply Hn. apply list_elem_of_In, in_map, list_elem_of_In, Hin.
Qed.

Lemma nodup_map_inj {A B} (f : A -> B) (l : list A) (x y : A) :
  NoDup (map f l) -> In x l -> In y l -> f x = f y -> x = y.
Proof.
  induction l as [|a l IH]; cbn [map]; intros Hnd Hx Hy Hf; [destruct Hx|].
  apply NoDup_cons in Hnd as [Hnotin Hnd].
  destruct Hx as [->|Hx], Hy as [->|Hy]; auto.
  - exfalso. apply Hnotin. rewrite Hf. apply list_elem_of_In, in_map, Hy.
  - exfalso. apply Hnotin. rewrite <- Hf. apply list_elem_of_In, in_map, Hx.
Qed.

Lemma find_app_last {A} (f : A -> bool) (l : list A) (x : A) :
  find f l = None -> f x = true -> find f (l ++ [x]) = Some x.
Proof.
  intros Hl Hx. induction l as [|a l IH]; cbn [app find] in *.
  - rewrite Hx. reflexivity.
  - destruct (f a); [discriminate | auto].
Qed.

End ListFacts.

(** ** The storage layer *)

Module OrmFacts.
Section Table.
Context {R : Type}.
Variable get_pk : R -> option nat.
Variable set_pk : nat -> R -> R.
Variable ck : list R -> bool.

Lemma has_pk_spec (k : nat) (x : R) :
  Orm.has_pk get_pk k x = true <-> get_pk x = Some k.
Proof.
  unfold Orm.has_pk. destruct (get_pk x) as [k'|]; [|split; discriminate].
  rewrite Nat.eqb_eq. split; congruence.
Qed.

(** A statement leaves a table that passes the constraints, or the table
    it found. *)
Lemma model_save_cases (r : R) (t : Orm.Table R) :
  (exists r' t', Orm.written get_pk set_pk r t = (r', t') /\ ck (Orm.rows t') = true /\
                 Orm.model_save get_pk set_pk ck r t = (Ok r', t')) \/
  Orm.model_save get_pk set_pk ck r t = (Raise IntegrityError, t).
Proof.
  unfold Orm.model_save. destruct (Orm.written get_pk set_pk r t) as [r' t'] eqn:Hw.
  destruct (ck (Orm.rows t')) eqn:Hck; [left; eauto | right; reflexivity].
Qed.

Lemma qs_update_cases (sel : R -> bool) (f : R -> R) (t : Orm.Table R) :
  let rows' := map (fun x => if sel x then f x else x) (Orm.rows t) in
  (ck rows' = true /\
   Orm.qs_update ck sel f t
     = (Ok (length (List.filter sel (Orm.rows t))), Orm.mkTable rows' (Orm.next_pk t))) \/
  (ck rows' = false /\ Orm.qs_update ck sel f t = (Raise IntegrityError, t)).
Proof.
  intros rows'. unfold Orm.qs_update. fold rows'.
  destruct (ck rows'); [left | right]; split; reflexivity.
Qed.

(** Every row [save] leaves is the saved one or was there before. *)
Lemma written_rows (r r' : R) (t t' : Orm.Table R) :
  Orm.written get_pk set_pk r t = (r', t') ->
  forall x, In x (Orm.rows t') -> x = r' \/ In x (Orm.rows t).
Proof.
  unfold Orm.written. intros Hw x Hx.
  destruct (get_pk r) as [k|].
  - destruct (existsb (Orm.has_pk get_pk k) (Orm.rows t)); inversion Hw; subst; clear Hw;
      cbn [Orm.rows] in Hx.
    + unfold Orm.replace_row in Hx. apply in_map_iff in Hx as (y & Hy & Hin).
      destruct (Orm.has_pk get_pk k y); subst; auto.
    + apply in_app_iff in Hx as [Hx|[Hx|[]]]; auto.
  - inversion Hw; subst; clear Hw. cbn [Orm.rows] in Hx.
    apply in_app_iff in Hx as [Hx|[Hx|[]]]; auto.
Qed.

(** A row with another pk than the saved one stays. *)
Lemma written_keeps (r r' : R) (t t' : Orm.Table R) :
  (forall k x, get_pk (set_pk k x) = Some k) ->
  Orm.written get_pk set_pk r t = (r', t') ->
  forall x, In x (Orm.rows t) -> get_pk x <> get_pk r' -> In x (Orm.rows t').
Proof.
  unfold Orm.written. intros Hset Hw x Hx Hne.
  destruct (get_pk r) as [k|] eqn:Hk.
  - destruct (existsb (Orm.has_pk get_pk k) (Orm.rows t)); inversion Hw; subst; clear Hw;
      cbn [Orm.rows].
    + unfold Orm.replace_row. apply in_map_iff. exists x. split; [|assumption].
      unfold Orm.has_pk. destruct (get_pk x) as [k'|] eqn:Hx'; [|reflexivity].
      destruct (Nat.eqb_spec k' k); [subst; congruence | reflexivity].
    + apply in_app_iff. auto.
  - inversion Hw; subst; clear Hw. cbn [Orm.rows]. apply in_app_iff. auto.
Qed.
Lemma find_replaced (k : nat) (r : R) (l : list R) :
  get_pk r = Some k -> existsb (Orm.has_pk get_pk k) l = true ->
  find (Orm.has_pk get_pk k) (Orm.replace_row get_pk k r l) = Some r.
Proof.
  intros Hk. induction l as [|a l IH]; cbn [existsb Orm.replace_row map find];
    [discriminate|].
  intros H. destruct (Orm.has_pk get_pk k a) eqn:Ha.
  - assert (Hr : Orm.has_pk get_pk k r = true)
      by (unfold Orm.has_pk; rewrite Hk; apply Nat.eqb_refl).
    rewrite Hr. reflexivity.
  - rewrite Ha. apply IH. cbn [orb] in H. exact H.
Qed.

Lemma find_appended (k : nat) (r : R) (l : list R) :
  get_pk r = Some k -> existsb (Orm.has_pk get_pk k) l = false ->
  find (Orm.has_pk get_pk k) (l ++ [r]) = Some r.
Proof.
  intros Hk. induction l as [|a l IH]; cbn [existsb app find].
  - intros _. unfold Orm.has_pk. rewrite Hk, Nat.eqb_refl. reflexivity.
  - intros H. apply orb_false_iff in H as [Ha Hl]. rewrite Ha. apply IH, Hl.
Qed.

(** The row [save] wrote is the one found under its pk afterwards. *)
Lemma written_find (r r' : R) (t t' : Orm.Table R) (k : nat) :
  get_pk r = Some k ->
  Orm.written get_pk set_pk r t = (r', t') ->
  r' = r /\ find (Orm.has_pk get_pk k) (Orm.rows t') = Some r.
Proof.
  unfold Orm.written. intros Hk Hw. rewrite Hk in Hw.
  destruct (existsb (Orm.has_pk get_pk k) (Orm.rows t)) eqn:Hex;
    inversion Hw; subst; cbn [Orm.rows]; split; try reflexivity.
  - apply find_replaced; assumption.
  - apply find_appended; assumption.
Qed.
End Table.
End OrmFacts.

(** ** Product images *)

Module ProductImageFacts.
Import Products Products.ProductImage Samples.

(** Among rows with distinct keys, at most one matches a selection that
    fixes the key. *)
Lemma filter_key_length (sel : t -> bool) (k : nat * bool) (l : list t) :
  NoDup (map key l) ->
  (forall r, sel r = true -> key r = k) ->
  length (List.filter sel l) <= 1.
Proof.
  intros Hnd Hsel. induction l as [|r l IH]; cbn [List.filter map] in *; [simpl; lia|].
  apply NoDup_cons in Hnd as [Hnotin Hnd]. specialize (IH Hnd).
  destruct (sel r) eqn:Hr; [|assumption].
  assert (Hnil : List.filter sel l = []).
  { destruct (List.filter sel l) as [|y l'] eqn:Hf; [reflexivity|exfalso].
    assert (Hy : In y (List.filter sel l)) by (rewrite Hf; left; reflexivity).
    apply filter_In in Hy as [Hy Hys].
    apply Hnotin. rewrite (Hsel _ Hr), <- (Hsel _ Hys).
    apply list_elem_of_In, in_map, Hy. }
  rewrite Hnil. simpl. lia.
Qed.

Lemma primary_of_key (p : nat) (r : t) : primary_of p r = true -> key r = (p, true).
Proof.
  unfold primary_of, key. intros H. apply andb_true_iff in H as [H1 H2].
  apply Nat.eqb_eq in H1. congruence.
Qed.

(** The images of a product are its primary and its other ones. *)
Lemma images_of_split (p : nat) (l : list t) :
  length (images_of p l)
  = length (List.filter (primary_of p) l)
    + length (List.filter (secondary_of p) l).
Proof.
  unfold images_of, primary_of, secondary_of.
  induction l as [|r l IH]; cbn [List.filter]; [reflexivity|].
  destruct (Nat.eqb (product r) p), (is_primary r); cbn [andb negb length]; lia.
Qed.

Lemma secondary_of_key (p : nat) (r : t) : secondary_of p r = true -> key r = (p, false).
Proof.
  unfold secondary_of, key. intros H. apply andb_true_iff in H as [H1 H2].
  apply Nat.eqb_eq in H1. destruct (is_primary r); [discriminate | congruence].
Qed.

Lemma constraints_images (p : nat) (l : list t) :
  constraints_ok l = true ->
  length (List.filter (primary_of p) l) <= 1 /\
  length (List.filter (secondary_of p) l) <= 1 /\
  length (images_of p l) <= 2.
Proof.
  unfold constraints_ok. intros Hck. apply bool_decide_eq_true in Hck.
  assert (H1 : length (List.filter (primary_of p) l) <= 1)
    by (eapply filter_key_length; eauto using primary_of_key).
  assert (H2 : length (List.filter (secondary_of p) l) <= 1)
    by (eapply filter_key_length; eauto using secondary_of_key).
  repeat split; try assumption. rewrite images_of_split. lia.
Qed.

(** Each save leaves the constraints in force. *)
Lemma save_constraints (i : t) (tb : Table) :
  constraints_ok (Orm.rows tb) = true ->
  constraints_ok (Orm.rows (snd (save i tb))) = true.
Proof.
  intros Hck. unfold save, save_under, Orm.bind.
  destruct (is_primary i).
  - destruct (OrmFacts.qs_update_cases constraints_ok (primary_of (product i))
                (set_is_primary false) tb) as [[Hok ->]|[_ ->]]; [|assumption].
    destruct (OrmFacts.model_save_cases pk set_pk constraints_ok i
                (Orm.mkTable
                   (map (fun x => if primary_of (product i) x then set_is_primary false x else x)
                      (Orm.rows tb)) (Orm.next_pk tb)))
      as [(r' & t' & _ & Hck' & ->)| ->]; assumption.
  - cbn [Orm.ret].
    destruct (OrmFacts.model_save_cases pk set_pk constraints_ok i tb)
      as [(r' & t' & _ & Hck' & ->)| ->]; assumption.
Qed.

Lemma save_all_constraints (l : list t) (tb : Table) :
  constraints_ok (Orm.rows tb) = true ->
  constraints_ok (Orm.rows (save_all l tb)) = true.
Proof.
  revert tb. induction l as [|i l IH]; intros tb Hck; [assumption|].
  change (save_all (i :: l) tb) with (save_all l (snd (save i tb))).
  apply IH, save_constraints, Hck.
Qed.

(** A successful save of a primary image is the write of the image on the
    table with the primaries of its product demoted. *)
Lemma save_primary_ok (i i' : t) (tb tb' : Table) :
  is_primary i = true ->
  save i tb = (Ok i', tb') ->
  Orm.written pk set_pk i
    (Orm.mkTable (demoted (product i) (Orm.rows tb)) (Orm.next_pk tb)) = (i', tb').
Proof.
  intros Hp. unfold save, save_under, Orm.bind. rewrite Hp.
  destruct (OrmFacts.qs_update_cases constraints_ok (primary_of (product i))
              (set_is_primary false) tb) as [[_ ->]|[_ ->]]; [|discriminate].
  destruct (OrmFacts.model_save_cases pk set_pk constraints_ok i
              (Orm.mkTable (demoted (product i) (Orm.rows tb)) (Orm.next_pk tb)))
    as [(r' & t' & Hw & _ & ->)| ->]; [|discriminate].
  intros H. inversion H; subst. exact Hw.
Qed.

Lemma demoted_not_primary (p : nat) (l : list t) (r : t) :
  In r (demoted p l) -> primary_of p r = false.
Proof.
  intros Hr. apply in_map_iff in Hr as (x & <- & _).
  destruct (primary_of p x) eqn:Hx; [|assumption].
  unfold primary_of, set_is_primary. cbn [is_primary]. apply andb_false_r.
Qed.

Lemma written_primary (i i' : t) (tb tb' : Table) :
  Orm.written pk set_pk i tb = (i', tb') ->
  product i' = product i /\ is_primary i' = is_primary i.
Proof.
  unfold Orm.written. intros H.
  destruct (pk i); [destruct (existsb _ _)|]; inversion H; subst; split; reflexivity.
Qed.

(** *** The write rule on its own

    The demotion before the write keeps the primaries exclusive whatever
    the store checks, the declared constraint or none. *)

Lemma one_primary_length (l : list t) (p : nat) :
  NoDup l -> one_primary l -> length (List.filter (primary_of p) l) <= 1.
Proof.
  intros Hnd Hone.
  assert (Hndf : NoDup (List.filter (primary_of p) l))
    by (apply NoDup_ListNoDup, List.NoDup_filter, NoDup_ListNoDup, Hnd).
  destruct (List.filter (primary_of p) l) as [|a [|b l']] eqn:Hf; cbn [length]; try lia.
  exfalso.
  assert (Ha : In a (List.filter (primary_of p) l)) by (rewrite Hf; left; reflexivity).
  assert (Hb : In b (List.filter (primary_of p) l))
    by (rewrite Hf; right; left; reflexivity).
  apply filter_In in Ha as [Ha Hpa]. apply filter_In in Hb as [Hb Hpb].
  assert (a = b) by (eapply Hone; eauto). subst b.
  apply NoDup_cons in Hndf as [Hn _]. apply Hn. apply list_elem_of_In. left. reflexivity.
Qed.

Lemma demoted_in (p q : nat) (l : list t) (r : t) :
  In r (demoted p l) -> primary_of q r = true -> In r l.
Proof.
  intros Hr Hq. apply in_map_iff in Hr as (x & Hx & Hin).
  destruct (primary_of p x); subst r; [|assumption].
  unfold primary_of, set_is_primary in Hq. cbn [is_primary] in Hq.
  rewrite andb_false_r in Hq. discriminate.
Qed.

Lemma demoted_pks (p : nat) (l : list t) : map pk (demoted p l) = map pk l.
Proof.
  induction l as [|x l IH]; cbn [map]; [reflexivity|].
  rewrite IH. destruct (primary_of p x); reflexivity.
Qed.

Lemma written_pks_ok (i i' : t) (tb tb' : Table) :
  pks_ok tb -> Orm.written pk set_pk i tb = (i', tb') -> pks_ok tb'.
Proof.
  intros [Hnd Hb] Hw. unfold Orm.written in Hw.
  destruct (pk i) as [k|] eqn:Hk.
  - destruct (existsb (Orm.has_pk pk k) (Orm.rows tb)) eqn:Hex;
      inversion Hw; subst; clear Hw; unfold pks_ok; cbn [Orm.rows Orm.next_pk].
    + assert (Hsame : forall x, pk (if Orm.has_pk pk k x then i' else x) = pk x).
      { intros x. destruct (Orm.has_pk pk k x) eqn:Hx; [|reflexivity].
        apply OrmFacts.has_pk_spec in Hx. congruence. }
      split.
      * unfold Orm.replace_row. rewrite map_map, (map_ext _ pk Hsame). assumption.
      * intros r Hr. apply in_map_iff in Hr as (x & Hx & Hin).
        destruct (Hb x Hin) as (k' & Hk' & Hlt). exists k'.
        rewrite <- Hx, Hsame. auto.
    + split.
      * rewrite map_app. apply NoDup_app. split; [assumption|].
        split; [|apply NoDup_singleton].
        intros x Hx Hx'. cbn [map] in Hx'. apply list_elem_of_singleton in Hx'. subst x.
        apply list_elem_of_In, in_map_iff in Hx as (y & Hy & Hin).
        assert (existsb (Orm.has_pk pk k) (Orm.rows tb) = true); [|congruence].
        apply existsb_exists. exists y. split; [assumption|].
        apply OrmFacts.has_pk_spec. congruence.
      * intros r Hr. apply in_app_iff in Hr as [Hr|[<-|[]]].
        -- destruct (Hb r Hr) as (k' & Hk' & Hlt). exists k'. split; [assumption | lia].
        -- exists k. split; [assumption | lia].
  - inversion Hw; subst; clear Hw. unfold pks_ok. cbn [Orm.rows Orm.next_pk]. split.
    + rewrite map_app. apply NoDup_app. split; [assumption|].
      split; [|apply NoDup_singleton].
      intros x Hx Hx'. cbn [map set_pk pk] in Hx'. apply list_elem_of_singleton in Hx'.
      subst x. apply list_elem_of_In, in_map_iff in Hx as (y & Hy & Hin).
      destruct (Hb y Hin) as (k' & Hk' & Hlt). rewrite Hk' in Hy. inversion Hy. lia.
    + intros r Hr. apply in_app_iff in Hr as [Hr|[<-|[]]].
      * destruct (Hb r Hr) as (k' & Hk' & Hlt). exists k'. split; [assumption | lia].
      * exists (Orm.next_pk tb). split; [reflexivity | lia].
Qed.

Lemma written_one_primary (i i' : t) (tb tb' : Table) :
  Orm.written pk set_pk i tb = (i', tb') ->
  one_primary (Orm.rows tb) ->
  (is_primary i = true ->
   forall r, In r (Orm.rows tb) -> primary_of (product i) r = false) ->
  one_primary (Orm.rows tb').
Proof.
  intros Hw Hone Hclean q r1 r2 H1 H2 Hq1 Hq2.
  destruct (written_primary _ _ _ _ Hw) as [Hprod Hprim].
  assert (Hnew : forall r, In r (Orm.rows tb) -> primary_of q r = true ->
                           primary_of q i' = true -> False).
  { intros r Hr Hqr Hqi. unfold primary_of in Hqi.
    apply andb_true_iff in Hqi as [Hpq Hip]. apply Nat.eqb_eq in Hpq.
    rewrite Hprim in Hip. specialize (Hclean Hip r Hr).
    rewrite <- Hprod, Hpq in Hclean. congruence. }
  destruct (OrmFacts.written_rows _ _ _ _ _ _ Hw r1 H1) as [->|H1'],
           (OrmFacts.written_rows _ _ _ _ _ _ Hw r2 H2) as [->|H2']; auto.
  - exfalso. eapply Hnew; eauto.
  - exfalso. eapply Hnew; eauto.
  - eapply Hone; eauto.
Qed.

Lemma save_under_inv (ck : list t -> bool) (i : t) (tb : Table) :
  pks_ok tb -> one_primary (Orm.rows tb) ->
  pks_ok (snd (save_under ck i tb)) /\ one_primary (Orm.rows (snd (save_under ck i tb))).
Proof.
  intros Hpk Hone. unfold save_under, Orm.bind.
  destruct (is_primary i) eqn:Hp.
  - destruct (OrmFacts.qs_update_cases ck (primary_of (product i))
                (set_is_primary false) tb) as [[_ ->]|[_ ->]]; [|split; assumption].
    set (t1 := Orm.mkTable (demoted (product i) (Orm.rows tb)) (Orm.next_pk tb)).
    assert (Hpk1 : pks_ok t1).
    { destruct Hpk as [Hnd Hb]. split; cbn [t1 Orm.rows Orm.next_pk].
      - rewrite demoted_pks. assumption.
      - intros r Hr. apply in_map_iff in Hr as (x & Hx & Hin).
        destruct (Hb x Hin) as (k & Hk & Hlt). exists k.
        destruct (primary_of (product i) x); subst r; auto. }
    assert (Hone1 : one_primary (Orm.rows t1)).
    { intros q r1 r2 H1 H2 Hq1 Hq2. cbn [t1 Orm.rows] in H1, H2.
      eapply Hone; eauto using demoted_in. }
    destruct (OrmFacts.model_save_cases pk set_pk ck i t1)
      as [(r' & t' & Hw & _ & ->)| ->]; cbn [snd]; [|split; assumption].
    split; [eapply written_pks_ok; eauto|].
    eapply written_one_primary; eauto.
    intros _ r Hr. cbn [t1 Orm.rows] in Hr. apply demoted_not_primary in Hr. exact Hr.
  - cbn [Orm.ret].
    destruct (OrmFacts.model_save_cases pk set_pk ck i tb)
      as [(r' & t' & Hw & _ & ->)| ->]; cbn [snd]; [|split; assumption].
    split; [eapply written_pks_ok; eauto|].
    eapply written_one_primary; eauto. intros Hc. congruence.
Qed.

Lemma save_all_under_inv (ck : list t -> bool) (l : list t) (tb : Table) :
  pks_ok tb -> one_primary (Orm.rows tb) ->
  pks_ok (save_all_under ck l tb) /\ one_primary (Orm.rows (save_all_under ck l tb)).
Proof.
  revert tb. induction l as [|i l IH]; intros tb Hpk Hone; cbn [save_all_under];
    [split; assumption|].
  destruct (save_under_inv ck i tb Hpk Hone) as [H1 H2]. apply IH; assumption.
Qed.

(** Whatever constraints the store checks, after any sequence of saves from
    the empty table and a further save no product has two primary
    images. *)
Lemma write_rule_alone (ck : list t -> bool) (history : list t) (i : t) (p : nat) :
  length (List.filter (primary_of p)
            (Orm.rows (snd (save_under ck i (save_all_under ck history Orm.empty))))) <= 1.
Proof.
  assert (H0 : pks_ok (@Orm.empty t)).
  { split; cbn; [apply NoDup_nil; exact I | intros r []]. }
  assert (H0' : one_primary (Orm.rows (@Orm.empty t))) by (intros q r1 r2 []).
  destruct (save_all_under_inv ck history Orm.empty H0 H0') as [H1 H2].
  destruct (save_under_inv ck i _ H1 H2) as [[Hnd _] Hone].
  apply one_primary_length; [apply (ListFacts.nodup_map_nodup pk); assumption | assumption].
Qed.

(** C10. In every table that satisfies the declared constraint, and in
    every table a sequence of saves makes of it (the empty table to begin
    with), a product has at most one image with [is_primary] false and at
    most one with it true, hence at most two images; and the insertion of
    an image that is not primary (a save under no pk, or under a pk no row
    has) for a product that has such an image already raises
    IntegrityError and stores nothing. *)
Theorem unique_together_two_images (tb0 : Table) (history : list t) (p : nat) :
  constraints_ok (Orm.rows tb0) = true ->
  let tb := save_all history tb0 in
  length (List.filter (secondary_of p) (Orm.rows tb)) <= 1 /\
  length (List.filter (primary_of p) (Orm.rows tb)) <= 1 /\
  length (images_of p (Orm.rows tb)) <= 2 /\
  (forall i r,
     (forall k, pk i = Some k -> existsb (Orm.has_pk pk k) (Orm.rows tb) = false) ->
     is_primary i = false -> product i = p ->
     In r (Orm.rows tb) -> secondary_of p r = true ->
     save i tb = (Raise IntegrityError, tb)).
Proof.
  intros Hck0 tb.
  assert (Hck : constraints_ok (Orm.rows tb) = true)
    by (apply save_all_constraints; assumption).
  destruct (constraints_images p _ Hck) as (H1 & H2 & H3).
  repeat split; try assumption.
  intros i r Hpk Hnp Hprod Hr Hsec.
  assert (Hbad : forall i', key i' = (p, false) ->
                            constraints_ok (Orm.rows tb ++ [i']) = false).
  { intros i' Hkey. unfold constraints_ok. apply bool_decide_eq_false. rewrite map_app.
    intros Hnd. apply NoDup_app in Hnd as (_ & Hdisj & _).
    apply (Hdisj (p, false)).
    - rewrite <- (secondary_of_key _ _ Hsec). apply list_elem_of_In, in_map, Hr.
    - cbn [map]. rewrite Hkey. apply list_elem_of_In. left. reflexivity. }
  assert (Hkey : key i = (p, false)) by (unfold key; congruence).
  unfold save, save_under, Orm.bind. rewrite Hnp. cbn [Orm.ret].
  unfold Orm.model_save, Orm.written.
  destruct (pk i) as [k|] eqn:Hk.
  - rewrite (Hpk k eq_refl). cbn [Orm.rows]. rewrite (Hbad i Hkey). reflexivity.
  - cbn [Orm.rows]. rewrite (Hbad (set_pk (Orm.next_pk tb) i) Hkey). reflexivity.
Qed.

(** A second image of product 7 that is not primary is refused. *)
Lemma unique_together_two_images_witness :
  constraints_ok (Orm.rows (@Orm.empty t)) = true /\
  (forall k, pk other_image = Some k ->
             existsb (Orm.has_pk pk k) (Orm.rows (save_all [other_image] Orm.empty)) = false) /\
  is_primary other_image = false /\ product other_image = 7 /\
  In (mk (Some 1) 7 false 0) (Orm.rows (save_all [other_image] Orm.empty)) /\
  secondary_of 7 (mk (Some 1) 7 false 0) = true /\
  length (images_of 7 (Orm.rows (save_all [other_image] Orm.empty))) <= 2 /\
  save other_image (save_all [other_image] Orm.empty)
  = (Raise IntegrityError, save_all [other_image] Orm.empty).
Proof.
  assert (Hin : In (mk (Some 1) 7 false 0) (Orm.rows (save_all [other_image] Orm.empty)))
    by (left; reflexivity).
  assert (Hnew : forall k, pk other_image = Some k ->
             existsb (Orm.has_pk pk k) (Orm.rows (save_all [other_image] Orm.empty)) = false)
    by (intros k Hk; discriminate Hk).
  split; [reflexivity|]. split; [exact Hnew|].
  do 2 (split; [reflexivity|]). split; [exact Hin|]. split; [reflexivity|].
  destruct (unique_together_two_images Orm.empty [other_image] 7 eq_refl)
    as (_ & _ & Hlen & H).
  split; [exact Hlen|].
  exact (H other_image (mk (Some 1) 7 false 0) Hnew eq_refl eq_refl Hin eq_refl).
Defined.

End ProductImageFacts.

(** ** Categories *)

Module CategoryFacts.
Import Products Products.Category Samples.

(** Rewriting a stored row changes no column on which the new row agrees
    with it. *)
Lemma replace_row_map {B} (f : t -> B) (l : list t) (c c' : t) (k : nat) :
  NoDup (map pk l) -> In c l -> pk c = Some k -> f c' = f c ->
  map f (Orm.replace_row pk k c' l) = map f l.
Proof.
  intros Hnd Hc Hk Hf. unfold Orm.replace_row. rewrite map_map.
  apply map_ext_in. intros x Hx.
  destruct (Orm.has_pk pk k x) eqn:Hpk; [|reflexivity].
  apply OrmFacts.has_pk_spec in Hpk.
  rewrite (ListFacts.nodup_map_inj pk l x c Hnd Hx Hc) by congruence. assumption.
Qed.

Lemma exists_pk_map (k : nat) (l l' : list t) :
  map pk l = map pk l' ->
  existsb (Orm.has_pk pk k) l = existsb (Orm.has_pk pk k) l'.
Proof.
  revert l'. induction l as [|a l IH]; intros [|a' l'] H; cbn [map] in H;
    try discriminate; [reflexivity|].
  inversion H as [[Ha Hl]]. cbn [existsb]. rewrite (IH _ Hl).
  unfold Orm.has_pk. rewrite Ha. reflexivity.
Qed.

(** C5, as stated, fails: with "Shoes" stored as category 1 and "Boots" as
    its child 2, the update of category 1 with parent 2 is accepted and
    written, and both categories are their own ancestors afterwards. *)
Lemma category_cycle_accepted :
  let tb := snd (save boots (snd (save shoes Orm.empty))) in
  own_ancestor (Orm.rows tb) 1 = false /\
  exists tb',
    save (mk (Some 1) "Shoes" "shoes" (Some 2)) tb
    = (Ok (mk (Some 1) "Shoes" "shoes" (Some 2)), tb') /\
    own_ancestor (Orm.rows tb') 1 = true /\
    own_ancestor (Orm.rows tb') 2 = true.
Proof.
  split; [vm_compute; reflexivity|].
  eexists. split; [vm_compute; reflexivity|]. split; vm_compute; reflexivity.
Qed.

(** C5, amended. [Category.save] validates no parent chain: for a stored
    category and any stored category [kp] as its new parent, the category
    itself included, the update is accepted and written with that parent;
    with itself as parent the category is its own ancestor afterwards. *)
Theorem category_parent_unchecked (tb : Table) (c : t) (k kp : nat) :
  table_ok tb ->
  In c (Orm.rows tb) ->
  pk c = Some k ->
  slug c <> EmptyString ->
  existsb (Orm.has_pk pk kp) (Orm.rows tb) = true ->
  let c' := set_parent (Some kp) c in
  let rows' := Orm.replace_row pk k c' (Orm.rows tb) in
  save c' tb = (Ok c', Orm.mkTable rows' (Orm.next_pk tb)) /\
  parent_of rows' k = Some kp /\
  (kp = k -> own_ancestor rows' k = true).
Proof.
  intros [Hck Hnd] Hc Hk Hslug Hkp c' rows'.
  assert (Hex : existsb (Orm.has_pk pk k) (Orm.rows tb) = true).
  { apply existsb_exists. exists c. split; [assumption | apply OrmFacts.has_pk_spec, Hk]. }
  assert (Hpks : map pk rows' = map pk (Orm.rows tb))
    by (apply (replace_row_map pk _ c); auto).
  assert (Hck' : constraints_ok rows' = true).
  { unfold constraints_ok in *.
    apply andb_true_iff in Hck as [Hck Hfk]. apply andb_true_iff in Hck as [Hn Hs].
    unfold rows'.
    rewrite (replace_row_map name _ c c' k), (replace_row_map slug _ c c' k), Hn, Hs by auto.
    cbn [andb]. apply forallb_forall. intros y Hy.
    apply in_map_iff in Hy as (x & Hy & Hx).
    assert (Hsame : forall j, existsb (Orm.has_pk pk j) (Orm.replace_row pk k c' (Orm.rows tb))
                              = existsb (Orm.has_pk pk j) (Orm.rows tb))
      by (intros j; apply exists_pk_map, Hpks).
    destruct (Orm.has_pk pk k x); subst y.
    - cbn [c' set_parent parent]. rewrite Hsame. exact Hkp.
    - pose proof (proj1 (forallb_forall _ _) Hfk x Hx) as Hpx. cbn beta in Hpx.
      destruct (parent x) as [j|]; [|reflexivity]. rewrite Hsame. exact Hpx. }
  assert (Hfind : parent_of rows' k = Some kp).
  { unfold parent_of, rows'. rewrite OrmFacts.find_replaced; auto. }
  split; [|split; [exact Hfind|]].
  - assert (Hpk' : pk c' = Some k) by exact Hk.
    assert (Hslug' : slug c' = slug c) by reflexivity.
    unfold save. rewrite Hslug'.
    destruct (String.eqb_spec (slug c) EmptyString) as [|_]; [contradiction|].
    cbv zeta. unfold Orm.model_save, Orm.written. rewrite Hpk', Hex. cbn [Orm.rows].
    change (Orm.replace_row pk k c' (Orm.rows tb)) with rows'.
    rewrite Hck'. reflexivity.
  - intros ->. unfold own_ancestor.
    assert (Hlen : length rows' = length (Orm.rows tb))
      by (unfold rows', Orm.replace_row; apply length_map).
    rewrite Hlen. destruct (Orm.rows tb) as [|a l]; [destruct Hc|].
    cbn [length ancestors]. rewrite Hfind. cbn [existsb].
    rewrite Nat.eqb_refl. reflexivity.
Qed.

(** The category "Shoes" made its own parent. *)
Lemma category_parent_unchecked_witness :
  let tb := snd (save shoes Orm.empty) in
  table_ok tb /\ In stored_shoes (Orm.rows tb) /\ pk stored_shoes = Some 1 /\
  slug stored_shoes <> EmptyString /\
  existsb (Orm.has_pk pk 1) (Orm.rows tb) = true /\
  save (set_parent (Some 1) stored_shoes) tb
  = (Ok (set_parent (Some 1) stored_shoes),
     Orm.mkTable (Orm.replace_row pk 1 (set_parent (Some 1) stored_shoes) (Orm.rows tb))
       (Orm.next_pk tb)) /\
  own_ancestor (Orm.replace_row pk 1 (set_parent (Some 1) stored_shoes) (Orm.rows tb)) 1 = true.
Proof.
  intros tb.
  assert (Hok : table_ok tb).
  { split; [vm_compute; reflexivity|].
    apply (bool_decide_eq_true_1 (NoDup (map pk (Orm.rows tb)))).
    vm_compute. reflexivity. }
  assert (Hin : In stored_shoes (Orm.rows tb)) by (left; vm_compute; reflexivity).
  assert (Hslug : slug stored_shoes <> EmptyString) by discriminate.
  assert (Hex : existsb (Orm.has_pk pk 1) (Orm.rows tb) = true) by (vm_compute; reflexivity).
  destruct (category_parent_unchecked tb stored_shoes 1 1 Hok Hin eq_refl Hslug Hex)
    as (Hs & _ & Hown).
  split; [exact Hok|]. split; [exact Hin|]. split; [reflexivity|].
  split; [exact Hslug|]. split; [exact Hex|].
  split; [exact Hs | exact (Hown eq_refl)].
Defined.

End CategoryFacts.

(** ** Account views *)

Module AccountsFacts.
Import Accounts Samples.

(** C4, as stated, fails: the list of users and the list of profiles asked
    by alice, who is no administrator, are answered 403 and not by her own
    record. *)
Lemma list_denied_to_non_admin :
  UserViewSet.list_endpoint (mkRequest (AuthUser alice) []) two_users
  = (denied, two_users) /\
  UserProfileViewSet.list_endpoint (mkRequest (AuthUser alice) []) two_users
  = (denied, two_users) /\
  fst (UserViewSet.list_endpoint (mkRequest (AuthUser alice) []) two_users)
  <> mkResponse 200 (UserList [alice]).
Proof. repeat split; discriminate. Qed.

(** C4, amended. For an authenticated caller who is no administrator the
    list of users and the list of profiles are refused with 403 and change
    nothing, while the queryset the viewset works on for that caller holds
    exactly the caller's own record, or profile. For an administrator the
    queryset is all records, and both lists answer 200 with the first page
    of them: the count of all records and the first PAGE_SIZE of them, which
    are all of them while there are no more than PAGE_SIZE. *)
Theorem list_scoping (req : Request) (w : World) (u : User.t) :
  user req = AuthUser u ->
  (User.is_staff u = false ->
     UserViewSet.list_endpoint req w = (denied, w) /\
     UserProfileViewSet.list_endpoint req w = (denied, w) /\
     (forall x, In x (UserViewSet.get_queryset req w)
                <-> In x (Orm.rows (users w)) /\ User.pk x = User.pk u) /\
     (exists l, UserProfileViewSet.get_queryset req w = Ok l /\
                forall x, In x l
                          <-> In x (profiles w) /\ Some (UserProfile.user_id x) = User.pk u)) /\
  (User.is_staff u = true ->
     UserViewSet.get_queryset req w = Orm.rows (users w) /\
     UserProfileViewSet.get_queryset req w = Ok (profiles w) /\
     UserViewSet.list_endpoint req w
     = (mkResponse 200
          (Page (length (Orm.rows (users w)))
                (Nat.ltb PAGE_SIZE (length (Orm.rows (users w))))
                (UserList (List.firstn PAGE_SIZE (Orm.rows (users w))))), w) /\
     UserProfileViewSet.list_endpoint req w
     = (mkResponse 200
          (Page (length (profiles w))
                (Nat.ltb PAGE_SIZE (length (profiles w)))
                (ProfileList (List.firstn PAGE_SIZE (profiles w)))), w) /\
     (length (Orm.rows (users w)) <= PAGE_SIZE ->
      UserViewSet.list_endpoint req w
      = (mkResponse 200
           (Page (length (Orm.rows (users w))) false (UserList (Orm.rows (users w)))), w)) /\
     (length (profiles w) <= PAGE_SIZE ->
      UserProfileViewSet.list_endpoint req w
      = (mkResponse 200
           (Page (length (profiles w)) false (ProfileList (profiles w))), w))).
Proof.
  intros Hu. split; intros Hstaff.
  - unfold UserViewSet.list_endpoint, UserProfileViewSet.list_endpoint, respond,
      check_permissions, UserViewSet.get_queryset, UserProfileViewSet.get_queryset.
    cbn [UserViewSet.get_permissions UserProfileViewSet.get_permissions forallb
         has_permission].
    rewrite Hu, Hstaff. cbn [andb ret].
    split; [reflexivity|]. split; [reflexivity|]. split.
    + intros x. rewrite filter_In, bool_decide_eq_true. reflexivity.
    + eexists. split; [reflexivity|]. intros x.
      rewrite filter_In, bool_decide_eq_true. reflexivity.
  - assert (Hq : UserViewSet.get_queryset req w = Orm.rows (users w)).
    { unfold UserViewSet.get_queryset. rewrite Hu, Hstaff. reflexivity. }
    assert (Hp : UserProfileViewSet.get_queryset req w = Ok (profiles w)).
    { unfold UserProfileViewSet.get_queryset. rewrite Hu, Hstaff. reflexivity. }
    assert (Hl : UserViewSet.list_endpoint req w
                 = (mkResponse 200 (first_page UserList (Orm.rows (users w))), w)).
    { unfold UserViewSet.list_endpoint, respond, check_permissions, UserViewSet.list.
      cbn [UserViewSet.get_permissions forallb has_permission].
      rewrite Hu, Hstaff. cbn [andb]. cbv beta iota. rewrite Hq. reflexivity. }
    assert (Hlp : UserProfileViewSet.list_endpoint req w
                  = (mkResponse 200 (first_page ProfileList (profiles w)), w)).
    { unfold UserProfileViewSet.list_endpoint, respond, check_permissions,
        UserProfileViewSet.list.
      cbn [UserProfileViewSet.get_permissions forallb has_permission].
      rewrite Hu, Hstaff. cbn [andb]. cbv beta iota. rewrite Hp. reflexivity. }
    split; [exact Hq|]. split; [exact Hp|]. split; [exact Hl|]. split; [exact Hlp|].
    split; intros Hle.
    + rewrite Hl. unfold first_page.
      rewrite (proj2 (Nat.ltb_ge _ _) Hle), (List.firstn_all2 _ Hle). reflexivity.
    + rewrite Hlp. unfold first_page.
      rewrite (proj2 (Nat.ltb_ge _ _) Hle), (List.firstn_all2 _ Hle). reflexivity.
Qed.

(** alice is refused the list, her queryset being her own record; carol, an
    administrator, is answered with the three users on one page. *)
Lemma list_scoping_witness :
  user (mkRequest (AuthUser alice) []) = AuthUser alice /\
  User.is_staff alice = false /\
  UserViewSet.list_endpoint (mkRequest (AuthUser alice) []) two_users = (denied, two_users) /\
  (forall x, In x (UserViewSet.get_queryset (mkRequest (AuthUser alice) []) two_users)
             <-> In x (Orm.rows (users two_users)) /\ User.pk x = User.pk alice) /\
  User.is_staff carol = true /\
  UserViewSet.list_endpoint (mkRequest (AuthUser carol) []) three_users
  = (mkResponse 200 (Page 3 false (UserList [alice; bob; carol])), three_users).
Proof.
  split; [reflexivity|]. split; [reflexivity|].
  destruct (list_scoping (mkRequest (AuthUser alice) []) two_users alice eq_refl)
    as [H _].
  destruct (H eq_refl) as (H1 & _ & H3 & _). split; [exact H1|]. split; [exact H3|].
  split; [reflexivity|].
  destruct (list_scoping (mkRequest (AuthUser carol) []) three_users carol eq_refl)
    as [_ Ha].
  destruct (Ha eq_refl) as (_ & _ & Hl & _). exact Hl.
Defined.

(** C8. When the current credential supplied to change_password does not
    verify against the hash of the calling principal, the answer is the
    error on [old_password] with status 400 and the world is left as it
    was: the stored hash and the tokens are unchanged. *)
Theorem change_password_mismatch (env : Env) (req : Request) (w : World)
    (u : User.t) (old new : string) :
  user req = AuthUser u ->
  ChangePasswordSerializer env (data req) = inr (old, new) ->
  check_password env old (User.password u) = false ->
  UserViewSet.change_password_endpoint env req w = (wrong_password, w).
Proof.
  intros Hu Hser Hchk.
  unfold UserViewSet.change_password_endpoint, respond, check_permissions,
    UserViewSet.change_password.
  cbn [UserViewSet.get_permissions forallb has_permission].
  rewrite Hu, Hser, Hchk. reflexivity.
Qed.

(** alice supplies a wrong current password. *)
Lemma change_password_mismatch_witness :
  let req := mkRequest (AuthUser alice)
               [("old_password", "not-my-password"); ("new_password", "N3wPassw0rd!")]%string in
  user req = AuthUser alice /\
  ChangePasswordSerializer Example.env (data req)
  = inr ("not-my-password", "N3wPassw0rd!")%string /\
  check_password Example.env "not-my-password" (User.password alice) = false /\
  UserViewSet.change_password_endpoint Example.env req registered = (wrong_password, registered).
Proof.
  intros req. split; [reflexivity|]. split; [reflexivity|]. split; [reflexivity|].
  apply (change_password_mismatch Example.env req registered alice
           "not-my-password" "N3wPassw0rd!"); reflexivity.
Defined.

(** C9. Both logout endpoints delete the caller's token when there is one
    and answer 200; when the caller has none, or is anonymous, they change
    nothing and answer with an error status (400, or 401 where the viewset
    asks for authentication). *)
Theorem logout_signals (req : Request) (w : World) :
  (forall u k t,
     user req = AuthUser u -> User.pk u = Some k ->
     token_of k (tokens w) = Some t ->
     UserViewSet.logout_endpoint req w = (logged_out, without_token t w) /\
     logout_view req w = (logged_out, without_token t w) /\
     ~ In t (tokens (without_token t w)) /\
     (NoDup (map Token.user_id (tokens w)) ->
      token_of k (tokens (without_token t w)) = None)) /\
  (forall u k,
     user req = AuthUser u -> User.pk u = Some k ->
     token_of k (tokens w) = None ->
     UserViewSet.logout_endpoint req w
     = (mkResponse 400 (ErrorBody "CustomUser has no auth_token."), w) /\
     logout_view req w = (mkResponse 400 (ErrorBody "Logout failed"), w)) /\
  (user req = AnonymousUser ->
     UserViewSet.logout_endpoint req w = (unauthenticated, w) /\
     logout_view req w = (mkResponse 400 (ErrorBody "Logout failed"), w)).
Proof.
  unfold UserViewSet.logout_endpoint, logout_view, respond, check_permissions,
    UserViewSet.logout, try_except, bind, auth_token.
  cbn [UserViewSet.get_permissions forallb has_permission].
  split; [|split].
  - intros u k t Hu Hk Ht. rewrite Hu. cbn beta iota. rewrite Hk. cbn [andb]. rewrite Ht.
    split; [reflexivity|]. split; [reflexivity|]. split.
    + unfold without_token, set_tokens. cbn [tokens]. intros Hin.
      apply filter_In in Hin as [_ Hin]. rewrite String.eqb_refl in Hin. discriminate.
    + intros Hnd. unfold without_token, set_tokens, token_of. cbn [tokens].
      destruct (find _ (List.filter _ (tokens w))) as [x|] eqn:Hf; [exfalso|reflexivity].
      apply find_some in Hf as [Hx Hxk]. apply filter_In in Hx as [Hx Hne].
      apply find_some in Ht as [Hti Htk].
      apply Nat.eqb_eq in Hxk, Htk.
      assert (x = t) by (eapply ListFacts.nodup_map_inj; eauto; congruence). subst x.
      rewrite String.eqb_refl in Hne. discriminate.
  - intros u k Hu Hk Ht. rewrite Hu. cbn beta iota. rewrite Hk. cbn [andb]. rewrite Ht.
    split; reflexivity.
  - intros Hu. rewrite Hu. split; reflexivity.
Qed.

(** alice logs out twice: the token goes, then there is none to delete. *)
Lemma logout_signals_witness :
  let req := mkRequest (AuthUser alice) [] in
  user req = AuthUser alice /\ User.pk alice = Some 1 /\
  token_of 1 (tokens registered) = Some (Token.mk "k" 1) /\
  UserViewSet.logout_endpoint req registered
  = (logged_out, without_token (Token.mk "k" 1) registered) /\
  token_of 1 (tokens (without_token (Token.mk "k" 1) registered)) = None /\
  UserViewSet.logout_endpoint req (without_token (Token.mk "k" 1) registered)
  = (mkResponse 400 (ErrorBody "CustomUser has no auth_token."),
     without_token (Token.mk "k" 1) registered).
Proof.
  intros req. split; [reflexivity|]. split; [reflexivity|]. split; [reflexivity|].
  destruct (logout_signals req registered) as (H1 & _ & _).
  destruct (H1 alice 1 (Token.mk "k" 1) eq_refl eq_refl eq_refl) as (Ha & _ & _ & _).
  split; [exact Ha|]. split; [reflexivity|].
  destruct (logout_signals req (without_token (Token.mk "k" 1) registered)) as (_ & H2 & _).
  destruct (H2 alice 1 eq_refl eq_refl eq_refl) as (Hb & _). exact Hb.
Defined.

(** *** Token issuance *)

(** With a token stored, [get_or_create] returns it and creates nothing. *)
Lemma get_or_create_found (env : Env) (u : User.t) (w : World) (k : nat) (t : Token.t) :
  User.pk u = Some k -> token_of k (tokens w) = Some t ->
  get_or_create env u w = (Ok (t, false), w).
Proof. intros Hk Ht. unfold get_or_create. rewrite Hk, Ht. reflexivity. Qed.

(** With none stored, it appends one under the fresh key. *)
Lemma get_or_create_created (env : Env) (u : User.t) (w : World) (k : nat) :
  User.pk u = Some k -> token_of k (tokens w) = None ->
  existsb (fun t => String.eqb (Token.key t) (generate_key env (entropy w))) (tokens w)
  = false ->
  get_or_create env u w
  = (Ok (Token.mk (generate_key env (entropy w)) k, true),
     draw (set_tokens (tokens w ++ [Token.mk (generate_key env (entropy w)) k]) w)).
Proof. intros Hk Ht Hex. unfold get_or_create. rewrite Hk, Ht, Hex. reflexivity. Qed.

Lemma token_of_app_other (k k' : nat) (key : string) (l : list Token.t) :
  k' <> k -> token_of k' (l ++ [Token.mk key k]) = token_of k' l.
Proof.
  intros Hne. unfold token_of. induction l as [|a l IH]; cbn [app find Token.user_id].
  - destruct (Nat.eqb_spec k k'); [congruence | reflexivity].
  - destruct (Nat.eqb (Token.user_id a) k'); [reflexivity | exact IH].
Qed.

Lemma login_view_issues (env : Env) (req : Request) (w w1 : World) (u : User.t)
    (t : Token.t) (c : bool) :
  UserLoginSerializer env (users w) (data req) = inr u ->
  get_or_create env u w = (Ok (t, c), w1) ->
  login_view env req w
  = (mkResponse 200 (AuthPayload u (Token.key t) "Login successful"), w1).
Proof.
  intros Hser Hg.
  unfold login_view, respond, check_permissions, UserLoginViewSet.create, bind.
  cbn [forallb has_permission andb]. rewrite Hser, Hg. reflexivity.
Qed.

Lemma register_view_issues (env : Env) (req : Request) (w0 w w1 : World) (v u : User.t)
    (t : Token.t) (c : bool) :
  UserRegistrationSerializer env (users w0) (data req) = inr v ->
  registration_save v w0 = (Ok u, w) ->
  get_or_create env u w = (Ok (t, c), w1) ->
  register_view env req w0
  = (mkResponse 201 (AuthPayload u (Token.key t) "User registered successfully"), w1).
Proof.
  intros Hser Hs Hg.
  unfold register_view, respond, check_permissions, UserRegistrationViewSet.create, bind.
  cbn [forallb has_permission andb]. rewrite Hser, Hs, Hg. reflexivity.
Qed.

(** C6. Token issuance is a get-or-create. In a world where a token is
    stored for the principal, [get_or_create], a login that authenticates
    the principal and a registration that created the principal return
    the value of that token and leave the world, its tokens included,
    exactly as it was. Where none is stored (and the fresh key is unused)
    one token is appended for the principal, the tokens of all others
    staying as they were, and it is the token returned; a second login
    with the same request is then answered with that same value and
    creates nothing. *)
Theorem token_issuance_idempotent (env : Env) (w : World) (u : User.t) (k : nat) :
  User.pk u = Some k ->
  let key := generate_key env (entropy w) in
  let issued := draw (set_tokens (tokens w ++ [Token.mk key k]) w) in
  (forall t, token_of k (tokens w) = Some t ->
     get_or_create env u w = (Ok (t, false), w) /\
     (forall req, UserLoginSerializer env (users w) (data req) = inr u ->
        login_view env req w
        = (mkResponse 200 (AuthPayload u (Token.key t) "Login successful"), w)) /\
     (forall req v w0,
        UserRegistrationSerializer env (users w0) (data req) = inr v ->
        registration_save v w0 = (Ok u, w) ->
        register_view env req w0
        = (mkResponse 201 (AuthPayload u (Token.key t) "User registered successfully"), w))) /\
  (token_of k (tokens w) = None ->
   existsb (fun t => String.eqb (Token.key t) key) (tokens w) = false ->
     get_or_create env u w = (Ok (Token.mk key k, true), issued) /\
     token_of k (tokens issued) = Some (Token.mk key k) /\
     (forall k', k' <> k -> token_of k' (tokens issued) = token_of k' (tokens w)) /\
     (forall req, UserLoginSerializer env (users w) (data req) = inr u ->
        login_view env req w
        = (mkResponse 200 (AuthPayload u key "Login successful"), issued) /\
        login_view env req issued
        = (mkResponse 200 (AuthPayload u key "Login successful"), issued)) /\
     (forall req v w0,
        UserRegistrationSerializer env (users w0) (data req) = inr v ->
        registration_save v w0 = (Ok u, w) ->
        register_view env req w0
        = (mkResponse 201 (AuthPayload u key "User registered successfully"), issued))).
Proof.
  intros Hk key issued. split.
  - intros t Ht. pose proof (get_or_create_found env u w k t Hk Ht) as Hg.
    split; [exact Hg|]. split.
    + intros req Hser. exact (login_view_issues env req w w u t false Hser Hg).
    + intros req v w0 Hser Hs.
      exact (register_view_issues env req w0 w w v u t false Hser Hs Hg).
  - intros Ht Hex. pose proof (get_or_create_created env u w k Hk Ht Hex) as Hg.
    fold key in Hg. fold issued in Hg.
    assert (Hnew : token_of k (tokens issued) = Some (Token.mk key k)).
    { unfold issued. cbn [tokens draw set_tokens]. unfold token_of in *.
      apply ListFacts.find_app_last; [exact Ht|]. cbn [Token.user_id]. apply Nat.eqb_refl. }
    split; [exact Hg|]. split; [exact Hnew|]. split.
    { intros k' Hne. unfold issued. cbn [tokens draw set_tokens].
      apply token_of_app_other. exact Hne. }
    split.
    + intros req Hser. split.
      * exact (login_view_issues env req w issued u (Token.mk key k) true Hser Hg).
      * apply (login_view_issues env req issued issued u (Token.mk key k) false);
          [exact Hser | exact (get_or_create_found env u issued k _ Hk Hnew)].
    + intros req v w0 Hser Hs.
      exact (register_view_issues env req w0 w issued v u (Token.mk key k) true Hser Hs Hg).
Qed.

(** alice registers in the empty world, where her token is created, and
    logs in twice in the world that leaves: the same token each time. *)
Lemma token_issuance_idempotent_witness :
  let saved := mkWorld (Orm.mkTable [alice] 2) [] [] 0 in
  User.pk alice = Some 1 /\
  token_of 1 (tokens registered) = Some (Token.mk "k" 1) /\
  login_view Example.env credentials registered
  = (mkResponse 200 (AuthPayload alice "k" "Login successful"), registered) /\
  token_of 1 (tokens saved) = None /\
  register_view Example.env registration Example.empty_world
  = (mkResponse 201 (AuthPayload alice "k" "User registered successfully"), registered) /\
  login_view Example.env credentials saved
  = (mkResponse 200 (AuthPayload alice "k" "Login successful"), registered).
Proof.
  intros saved.
  assert (Hser : UserLoginSerializer Example.env (users registered) (data credentials)
                 = inr alice) by (vm_compute; reflexivity).
  assert (Hreg : UserRegistrationSerializer Example.env (users Example.empty_world)
                   (data registration)
                 = inr (User.mk None "a@x.com" "plain$Str0ngPass!" true false))
    by (vm_compute; reflexivity).
  assert (Hsave : registration_save (User.mk None "a@x.com" "plain$Str0ngPass!" true false)
                    Example.empty_world = (Ok alice, saved)) by (vm_compute; reflexivity).
  destruct (token_issuance_idempotent Example.env registered alice 1 eq_refl) as [Hfound _].
  destruct (Hfound (Token.mk "k" 1) eq_refl) as (_ & Hlogin & _).
  destruct (token_issuance_idempotent Example.env saved alice 1 eq_refl) as [_ Hnone].
  destruct (Hnone eq_refl eq_refl) as (_ & _ & _ & Hlogin2 & Hregister).
  split; [reflexivity|]. split; [reflexivity|].
  split; [exact (Hlogin credentials Hser)|]. split; [reflexivity|].
  split; [exact (Hregister registration _ Example.empty_world Hreg Hsave)|].
  exact (proj1 (Hlogin2 credentials Hser)).
Defined.

(** *** Password change *)

(** C7, as stated, fails: alice changes her password to the one she has;
    the change succeeds and the old credential still verifies against the
    stored hash. *)
Lemma change_password_same_credential :
  let req := mkRequest (AuthUser alice)
               [("old_password", "Str0ngPass!"); ("new_password", "Str0ngPass!")]%string in
  exists w' h,
    UserViewSet.change_password_endpoint Example.env req registered
    = (password_changed, w') /\
    stored_password w' 1 = Some h /\
    check_password Example.env "Str0ngPass!" h = true.
Proof.
  intros req. eexists. eexists.
  split; [vm_compute; reflexivity|]. split; vm_compute; reflexivity.
Qed.

(** C7, amended. After a change_password that succeeded, the supplied
    current credential had matched the hash of the caller, and the hash
    stored for the caller is the hasher's encoding of the new credential,
    the rest of the caller's row being as the request carried it. With a
    hasher that verifies what it encoded the new credential therefore
    verifies against the stored hash, and so does the old one when it
    equals the new one, which the view does not compare. *)
Theorem change_password_stores (env : Env) (req : Request) (w w' : World)
    (u : User.t) (k : nat) (old new : string) :
  user req = AuthUser u ->
  User.pk u = Some k ->
  ChangePasswordSerializer env (data req) = inr (old, new) ->
  UserViewSet.change_password_endpoint env req w = (password_changed, w') ->
  check_password env old (User.password u) = true /\
  find (Orm.has_pk User.pk k) (Orm.rows (users w'))
  = Some (User.set_password_hash (make_password env (entropy w) new) u) /\
  stored_password w' k = Some (make_password env (entropy w) new) /\
  (hasher_verifies env ->
   forall h, stored_password w' k = Some h ->
     check_password env new h = true /\
     (old = new -> check_password env old h = true)).
Proof.
  intros Hu Hk Hser.
  unfold UserViewSet.change_password_endpoint, respond, check_permissions,
    UserViewSet.change_password.
  cbn [UserViewSet.get_permissions forallb has_permission].
  rewrite Hu, Hser. cbn [andb].
  destruct (check_password env old (User.password u)) eqn:Hold; [|discriminate].
  set (u' := User.set_password_hash (make_password env (entropy w) new) u).
  unfold bind, user_save, on_users.
  destruct (OrmFacts.model_save_cases User.pk User.set_pk User.constraints_ok u'
              (users (draw w))) as [(r' & t' & Hw & _ & ->)| ->]; [|discriminate].
  cbn [ret]. intros H. inversion H; subst w'. clear H.
  split; [reflexivity|].
  assert (Hk' : User.pk u' = Some k) by exact Hk.
  destruct (OrmFacts.written_find User.pk User.set_pk u' r' _ t' k Hk' Hw) as [_ Hfind].
  unfold stored_password. cbn [set_users users]. rewrite Hfind.
  split; [reflexivity|]. split; [reflexivity|].
  intros Hver h Hh. inversion Hh; subst h. clear Hh.
  split; [apply Hver | intros ->; apply Hver].
Qed.

Lemma example_hasher_verifies : hasher_verifies Example.env.
Proof. intros n raw. cbn. unfold Example.check_password. apply String.eqb_refl. Qed.

(** alice changes her password to another one. *)
Lemma change_password_stores_witness :
  let req := mkRequest (AuthUser alice)
               [("old_password", "Str0ngPass!"); ("new_password", "N3wPassw0rd!")]%string in
  let w' := mkWorld (Orm.mkTable [User.set_password_hash "plain$N3wPassw0rd!" alice] 2)
                    [Token.mk "k" 1] [] 2 in
  user req = AuthUser alice /\ User.pk alice = Some 1 /\
  ChangePasswordSerializer Example.env (data req)
  = inr ("Str0ngPass!", "N3wPassw0rd!")%string /\
  UserViewSet.change_password_endpoint Example.env req registered = (password_changed, w') /\
  check_password Example.env "Str0ngPass!" (User.password alice) = true /\
  stored_password w' 1 = Some "plain$N3wPassw0rd!"%string /\
  check_password Example.env "N3wPassw0rd!" "plain$N3wPassw0rd!" = true.
Proof.
  intros req w'.
  assert (Hrun : UserViewSet.change_password_endpoint Example.env req registered
                 = (password_changed, w')) by (vm_compute; reflexivity).
  do 3 (split; [reflexivity|]). split; [exact Hrun|].
  destruct (change_password_stores Example.env req registered w' alice 1
              "Str0ngPass!" "N3wPassw0rd!" eq_refl eq_refl eq_refl Hrun)
    as (Hold & _ & Hst & Hv).
  split; [exact Hold|]. split; [exact Hst|].
  exact (proj1 (Hv example_hasher_verifies _ Hst)).
Defined.

End AccountsFacts.

(** * Further properties of the modelled code *)

(** ** The storage layer, continued *)

Module OrmMore.
Section Table.
Context {R : Type}.
Variable get_pk : R -> option nat.
Variable set_pk : nat -> R -> R.
Hypothesis get_set_pk : forall k x, get_pk (set_pk k x) = Some k.

Lemma replaced_pks (k : nat) (r : R) (l : list R) :
  get_pk r = Some k ->
  map get_pk (Orm.replace_row get_pk k r l) = map get_pk l.
Proof.
  intros Hk. unfold Orm.replace_row. rewrite map_map. apply map_ext. intros x.
  destruct (Orm.has_pk get_pk k x) eqn:Hx; [|reflexivity].
  apply OrmFacts.has_pk_spec in Hx. congruence.
Qed.

Lemma not_stored (k : nat) (l : list R) :
  existsb (Orm.has_pk get_pk k) l = false -> ~ In (Some k) (map get_pk l).
Proof.
  intros Hex Hin. apply in_map_iff in Hin as (y & Hy & Hin).
  assert (existsb (Orm.has_pk get_pk k) l = true); [|congruence].
  apply existsb_exists. exists y. split; [assumption|].
  apply OrmFacts.has_pk_spec. assumption.
Qed.

Lemma nodup_snoc {A} (l : list A) (x : A) : NoDup l -> ~ In x l -> NoDup (l ++ [x]).
Proof.
  intros Hl Hx. apply NoDup_app. split; [assumption|]. split; [|apply NoDup_singleton].
  intros y Hy Hy'. apply list_elem_of_singleton in Hy'. subst y.
  apply Hx, list_elem_of_In, Hy.
Qed.

(** A write keeps the pks distinct and below the next automatic one. *)
Lemma written_keeps_pks (r r' : R) (t t' : Orm.Table R) :
  Orm.pks_ok get_pk t -> Orm.written get_pk set_pk r t = (r', t') ->
  Orm.pks_ok get_pk t'.
Proof.
  intros [Hnd Hb] Hw. unfold Orm.written in Hw.
  destruct (get_pk r) as [k|] eqn:Hk.
  - destruct (existsb (Orm.has_pk get_pk k) (Orm.rows t)) eqn:Hex;
      inversion Hw; subst; clear Hw; unfold Orm.pks_ok; cbn [Orm.rows Orm.next_pk].
    + split; [rewrite replaced_pks; assumption|].
      intros x Hx. apply in_map_iff in Hx as (y & Hy & Hin).
      destruct (Orm.has_pk get_pk k y) eqn:Hyk; subst x; [|auto].
      apply OrmFacts.has_pk_spec in Hyk. destruct (Hb y Hin) as (k' & Hk' & Hlt).
      exists k'. split; [congruence | assumption].
    + split.
      * rewrite map_app. apply nodup_snoc; [assumption|]. cbn [map]. rewrite Hk.
        apply not_stored. assumption.
      * intros x Hx. apply in_app_iff in Hx as [Hx|[<-|[]]].
        -- destruct (Hb x Hx) as (k' & Hk' & Hlt). exists k'. split; [assumption | lia].
        -- exists k. split; [assumption | lia].
  - inversion Hw; subst; clear Hw. unfold Orm.pks_ok. cbn [Orm.rows Orm.next_pk]. split.
    + rewrite map_app. apply nodup_snoc; [assumption|]. cbn [map]. rewrite get_set_pk.
      intros Hin. apply in_map_iff in Hin as (y & Hy & Hin).
      destruct (Hb y Hin) as (k' & Hk' & Hlt). rewrite Hk' in Hy. inversion Hy. lia.
    + intros x Hx. apply in_app_iff in Hx as [Hx|[<-|[]]].
      * destruct (Hb x Hx) as (k' & Hk' & Hlt). exists k'. split; [assumption | lia].
      * exists (Orm.next_pk t). split; [apply get_set_pk | lia].
Qed.

(** The instance a write returns has a pk, the next automatic one when it
    had none, and is the row found under that pk afterwards. *)
Lemma written_lookup (r r' : R) (t t' : Orm.Table R) :
  Orm.pks_ok get_pk t -> Orm.written get_pk set_pk r t = (r', t') ->
  exists k, get_pk r' = Some k /\
            find (Orm.has_pk get_pk k) (Orm.rows t') = Some r' /\
            (get_pk r = None -> k = Orm.next_pk t /\ r' = set_pk k r) /\
            (get_pk r <> None -> r' = r).
Proof.
  intros [Hnd Hb] Hw. destruct (get_pk r) as [k|] eqn:Hk.
  - destruct (OrmFacts.written_find get_pk set_pk r r' t t' k Hk Hw) as [-> Hf].
    exists k. split; [assumption|]. split; [assumption|].
    split; [discriminate | reflexivity].
  - unfold Orm.written in Hw. rewrite Hk in Hw. inversion Hw; subst; clear Hw.
    exists (Orm.next_pk t). cbn [Orm.rows]. split; [apply get_set_pk|]. split.
    + apply OrmFacts.find_appended; [apply get_set_pk|].
      destruct (existsb _ (Orm.rows t)) eqn:Hex; [exfalso|reflexivity].
      apply existsb_exists in Hex as (y & Hy & Hyk). apply OrmFacts.has_pk_spec in Hyk.
      destruct (Hb y Hy) as (k' & Hk' & Hlt). rewrite Hk' in Hyk. inversion Hyk. lia.
    + split; [intros _; split; reflexivity | intros H; contradiction].
Qed.

(** A write leaves what is found under every other pk. *)
Lemma written_other (r r' : R) (t t' : Orm.Table R) (k' : nat) :
  Orm.written get_pk set_pk r t = (r', t') -> get_pk r' <> Some k' ->
  find (Orm.has_pk get_pk k') (Orm.rows t') = find (Orm.has_pk get_pk k') (Orm.rows t).
Proof.
  intros Hw Hne.
  assert (Hr' : Orm.has_pk get_pk k' r' = false).
  { destruct (Orm.has_pk get_pk k' r') eqn:H; [|reflexivity].
    apply OrmFacts.has_pk_spec in H. contradiction. }
  assert (Happ : forall l, find (Orm.has_pk get_pk k') (l ++ [r'])
                           = find (Orm.has_pk get_pk k') l).
  { induction l as [|a l IH]; cbn [app find]; [rewrite Hr'; reflexivity|].
    destruct (Orm.has_pk get_pk k' a); auto. }
  unfold Orm.written in Hw. destruct (get_pk r) as [k|] eqn:Hk.
  - destruct (existsb (Orm.has_pk get_pk k) (Orm.rows t)) eqn:Hex;
      inversion Hw; subst; clear Hw; cbn [Orm.rows]; [|apply Happ].
    clear Hex.
    induction (Orm.rows t) as [|a l IH]; cbn [Orm.replace_row map find]; [reflexivity|].
    destruct (Orm.has_pk get_pk k a) eqn:Ha.
    + rewrite Hr'. apply OrmFacts.has_pk_spec in Ha.
      destruct (Orm.has_pk get_pk k' a) eqn:Ha'.
      * apply OrmFacts.has_pk_spec in Ha'. congruence.
      * apply IH.
    + destruct (Orm.has_pk get_pk k' a); [reflexivity | apply IH].
  - inversion Hw; subst; clear Hw. cbn [Orm.rows]. apply Happ.
Qed.

(** Rewriting the one row under a pk changes no column on which the new
    row agrees with it. *)
Lemma replace_row_column {B} (f : R -> B) (l : list R) (c c' : R) (k : nat) :
  NoDup (map get_pk l) -> In c l -> get_pk c = Some k -> f c' = f c ->
  map f (Orm.replace_row get_pk k c' l) = map f l.
Proof.
  intros Hnd Hc Hk Hf. unfold Orm.replace_row. rewrite map_map.
  apply map_ext_in. intros x Hx.
  destruct (Orm.has_pk get_pk k x) eqn:Hpk; [|reflexivity].
  apply OrmFacts.has_pk_spec in Hpk.
  rewrite (ListFacts.nodup_map_inj get_pk l x c Hnd Hx Hc) by congruence. assumption.
Qed.

(** The instance a write returns: the given one, under the next automatic
    pk when it had none. *)
Lemma written_instance (r r' : R) (t t' : Orm.Table R) :
  Orm.written get_pk set_pk r t = (r', t') ->
  (exists k, get_pk r = Some k /\ r' = r) \/
  (get_pk r = None /\ r' = set_pk (Orm.next_pk t) r).
Proof.
  unfold Orm.written. intros Hw. destruct (get_pk r) as [k|] eqn:Hk.
  - left. exists k. destruct (existsb _ _); inversion Hw; auto.
  - right. inversion Hw; auto.
Qed.

(** The instance a write returns is a row afterwards. *)
Lemma written_in (r r' : R) (t t' : Orm.Table R) :
  Orm.written get_pk set_pk r t = (r', t') -> In r' (Orm.rows t').
Proof.
  unfold Orm.written. intros Hw. destruct (get_pk r) as [k|] eqn:Hk.
  - destruct (existsb (Orm.has_pk get_pk k) (Orm.rows t)) eqn:Hex;
      inversion Hw; subst; clear Hw; cbn [Orm.rows]; [|apply in_app_iff; right; left; reflexivity].
    apply existsb_exists in Hex as (y & Hy & Hyk).
    apply in_map_iff. exists y. rewrite Hyk. auto.
  - inversion Hw; subst. cbn [Orm.rows]. apply in_app_iff. right. left. reflexivity.
Qed.

(** What an insertion writes: the instance, under the next automatic pk
    when it has none, after the rows there were. *)
Lemma written_insert (r : R) (t : Orm.Table R) :
  (forall k, get_pk r = Some k -> existsb (Orm.has_pk get_pk k) (Orm.rows t) = false) ->
  exists r' t',
    Orm.written get_pk set_pk r t = (r', t') /\
    Orm.rows t' = Orm.rows t ++ [r'] /\
    ((get_pk r <> None /\ r' = r) \/
     (get_pk r = None /\ r' = set_pk (Orm.next_pk t) r)).
Proof.
  intros Hnew. unfold Orm.written. destruct (get_pk r) as [k|] eqn:Hk.
  - rewrite (Hnew k eq_refl). eexists. eexists. split; [reflexivity|].
    split; [reflexivity|]. left. split; [discriminate | reflexivity].
  - eexists. eexists. split; [reflexivity|]. split; [reflexivity|]. right. auto.
Qed.

Lemma model_save_ok (ck : list R -> bool) (r r' : R) (t t' : Orm.Table R) :
  Orm.model_save get_pk set_pk ck r t = (Ok r', t') ->
  Orm.written get_pk set_pk r t = (r', t') /\ ck (Orm.rows t') = true.
Proof.
  intros H.
  destruct (OrmFacts.model_save_cases get_pk set_pk ck r t)
    as [(r0 & t0 & Hw & Hck & Heq)|Heq]; rewrite Heq in H; inversion H; subst. auto.
Qed.

Lemma model_save_refused (ck : list R -> bool) (r : R) (t : Orm.Table R) :
  ck (Orm.rows (snd (Orm.written get_pk set_pk r t))) = false ->
  Orm.model_save get_pk set_pk ck r t = (Raise IntegrityError, t).
Proof.
  unfold Orm.model_save. destruct (Orm.written get_pk set_pk r t) as [r' t'].
  cbn [snd]. intros ->. reflexivity.
Qed.

Lemma find_existsb {A} (p : A -> bool) (l : list A) (x : A) :
  find p l = Some x -> existsb p l = true.
Proof.
  intros H. apply find_some in H as [Hin Hp]. apply existsb_exists. eauto.
Qed.

(** Rewriting a row by itself changes nothing. *)
Lemma replace_row_same (k : nat) (r : R) (l : list R) :
  NoDup (map get_pk l) -> In r l -> get_pk r = Some k ->
  Orm.replace_row get_pk k r l = l.
Proof.
  intros Hnd Hin Hk. unfold Orm.replace_row.
  rewrite <- (List.map_id l) at 2. apply List.map_ext_in. intros x Hx.
  destruct (Orm.has_pk get_pk k x) eqn:Hp; [|reflexivity].
  apply OrmFacts.has_pk_spec in Hp.
  apply (ListFacts.nodup_map_inj get_pk l r x Hnd Hin Hx). congruence.
Qed.

(** The later of two rewritings of the same row is the one that stays. *)
Lemma replace_row_twice (k : nat) (r r' : R) (l : list R) :
  get_pk r' = Some k ->
  Orm.replace_row get_pk k r (Orm.replace_row get_pk k r' l)
  = Orm.replace_row get_pk k r l.
Proof.
  intros Hk. unfold Orm.replace_row. rewrite List.map_map. apply List.map_ext.
  intros x. destruct (Orm.has_pk get_pk k x) eqn:Hp.
  - rewrite (proj2 (OrmFacts.has_pk_spec get_pk k r') Hk). reflexivity.
  - rewrite Hp. reflexivity.
Qed.

(** Saving again the instance a save returned writes the same table. *)
Lemma model_save_again (ck : list R -> bool) (r r' : R) (t t' : Orm.Table R) :
  Orm.pks_ok get_pk t ->
  Orm.model_save get_pk set_pk ck r t = (Ok r', t') ->
  Orm.model_save get_pk set_pk ck r' t' = (Ok r', t').
Proof.
  intros Hok Hs. apply model_save_ok in Hs as [Hw Hck].
  destruct (written_lookup r r' t t' Hok Hw) as (k & Hk & Hf & _).
  destruct (written_keeps_pks r r' t t' Hok Hw) as [Hnd _].
  unfold Orm.model_save, Orm.written. rewrite Hk.
  rewrite (find_existsb _ _ _ Hf).
  rewrite (replace_row_same k r' (Orm.rows t') Hnd (written_in r r' t t' Hw) Hk).
  destruct t' as [l n]. cbn [Orm.rows Orm.next_pk] in *. rewrite Hck. reflexivity.
Qed.

End Table.
End OrmMore.

(** ** Pricing, continued *)

Module ProductMore.
Import PyDecimal PyDecimalFacts Products Samples ProductFacts.
Local Open Scope Z_scope.

(** What [discount_percentage] returns on stored values when the discount
    price is below a non-zero price. *)
Lemma discounted_value (P D st : Z) :
  Z.abs P < 10 ^ 10 -> Z.abs D < 10 ^ 10 -> D < P -> P <> 0 ->
  Product.discount_percentage (Product.mk (mkDec P (-2)) (Some (mkDec D (-2))) st)
  = Ok (Product.PyDec (mkDec (Product.round_ratio (100 * (100 * (P - D))) P) (-2))).
Proof.
  intros HP HD Hlt HP0. unfold Product.discount_percentage, Product.has_discount.
  cbn [Product.price Product.discount_price]. rewrite dec_ltb_stored.
  destruct (Z.ltb_spec D P); [|lia].
  rewrite (rbind_assoc _ (fun q => py_round (dec_mul q (of_int 100)) 2)).
  rewrite percentage_arith by assumption. reflexivity.
Qed.

Lemma div_half_even_mono (n1 n2 den : Z) :
  0 < den -> n1 <= n2 -> div_half_even n1 den <= div_half_even n2 den.
Proof.
  intros Hd Hn.
  pose proof (div_half_even_nearest n1 den Hd) as H1.
  pose proof (div_half_even_nearest n2 den Hd) as H2.
  destruct (Z_le_gt_dec (div_half_even n1 den) (div_half_even n2 den)) as [|Hgt];
    [assumption|exfalso].
  assert (Heq : n1 = n2) by (destruct H1 as [H1 _], H2 as [H2 _]; nia).
  subst n2. lia.
Qed.

(** X1. For a product as the fields store it whose price and discount
    price are not negative, [discount_percentage] raises nothing and
    returns the int 0 or a Decimal with two places between 0.00 and
    100.00. *)
Theorem discount_percentage_range (p : Product.t) :
  Product.stored_product p ->
  0 <= coef (Product.price p) ->
  (forall d, Product.discount_price p = Some d -> 0 <= coef d) ->
  Product.discount_percentage p = Ok (Product.PyInt 0) \/
  exists h, 0 <= h <= 10000 /\
            Product.discount_percentage p = Ok (Product.PyDec (mkDec h (-2))).
Proof.
  destruct p as [[P eP] [[D eD]|] st]; unfold Product.stored_product, Product.stored_decimal;
    cbn [Product.price Product.discount_price coef expo].
  - intros [[-> HP] [-> HD]] HP0 HD0. specialize (HD0 _ eq_refl). cbn [coef] in HD0.
    destruct (Z_lt_le_dec D P) as [Hlt|Hge].
    + right. exists (Product.round_ratio (100 * (100 * (P - D))) P). split.
      * destruct (round_ratio_nearest P D ltac:(lia) Hlt) as [Hn _]. nia.
      * apply discounted_value; lia.
    + left. unfold Product.discount_percentage, Product.has_discount.
      cbn [Product.price Product.discount_price]. rewrite dec_ltb_stored.
      destruct (Z.ltb_spec D P); [lia | reflexivity].
  - intros _ _ _. left. reflexivity.
Qed.

Lemma discount_percentage_range_witness :
  Product.stored_product sample_product /\
  0 <= coef (Product.price sample_product) /\
  (forall d, Product.discount_price sample_product = Some d -> 0 <= coef d) /\
  (Product.discount_percentage sample_product = Ok (Product.PyInt 0) \/
   exists h, 0 <= h <= 10000 /\
             Product.discount_percentage sample_product
             = Ok (Product.PyDec (mkDec h (-2)))).
Proof.
  assert (Hst : Product.stored_product sample_product)
    by (repeat split; vm_compute; reflexivity).
  assert (Hp : 0 <= coef (Product.price sample_product)) by (vm_compute; discriminate).
  assert (Hd : forall d, Product.discount_price sample_product = Some d -> 0 <= coef d).
  { intros d H. inversion H; subst. vm_compute. discriminate. }
  split; [exact Hst|]. split; [exact Hp|]. split; [exact Hd|].
  exact (discount_percentage_range sample_product Hst Hp Hd).
Defined.

(** X2. At one price, the lower of two discount prices below it never
    gets the lower percentage: [discount_percentage] is monotone in the
    discount price, rounding included. *)
Theorem discount_percentage_monotone (P D1 D2 st1 st2 h1 h2 : Z) :
  0 < P < 10 ^ 10 -> 0 <= D1 -> D1 <= D2 -> D2 < P ->
  Product.discount_percentage (Product.mk (mkDec P (-2)) (Some (mkDec D1 (-2))) st1)
  = Ok (Product.PyDec (mkDec h1 (-2))) ->
  Product.discount_percentage (Product.mk (mkDec P (-2)) (Some (mkDec D2 (-2))) st2)
  = Ok (Product.PyDec (mkDec h2 (-2))) ->
  h2 <= h1.
Proof.
  intros HP HD1 HD12 HD2 H1 H2.
  rewrite discounted_value in H1 by lia. rewrite discounted_value in H2 by lia.
  inversion H1; inversion H2; subst. unfold Product.round_ratio.
  replace (Z.sgn (100 * (100 * (P - D1))) * Z.sgn P) with 1 by lia.
  replace (Z.sgn (100 * (100 * (P - D2))) * Z.sgn P) with 1 by lia.
  rewrite !Z.mul_1_l, !Z.abs_eq by lia.
  apply div_half_even_mono; lia.
Qed.

Lemma discount_percentage_monotone_witness :
  0 < 10000 < 10 ^ 10 /\ 0 <= 7500 /\ 7500 <= 8000 /\ 8000 < 10000 /\
  Product.discount_percentage sample_product = Ok (Product.PyDec (mkDec 2500 (-2))) /\
  Product.discount_percentage cheaper_product = Ok (Product.PyDec (mkDec 2000 (-2))) /\
  2000 <= 2500.
Proof.
  assert (H1 : Product.discount_percentage sample_product
               = Ok (Product.PyDec (mkDec 2500 (-2)))) by (vm_compute; reflexivity).
  assert (H2 : Product.discount_percentage cheaper_product
               = Ok (Product.PyDec (mkDec 2000 (-2)))) by (vm_compute; reflexivity).
  split; [lia|]. split; [lia|]. split; [lia|]. split; [lia|].
  split; [exact H1|]. split; [exact H2|].
  exact (discount_percentage_monotone 10000 7500 8000 3 3 2500 2000
           ltac:(lia) ltac:(lia) ltac:(lia) ltac:(lia) H1 H2).
Defined.

End ProductMore.

(** ** Product images, continued *)

Module ProductImageMore.
Import Products Products.ProductImage Samples ProductImageFacts.

(** The table the write of [save] works on: the given one, its primaries
    of the product demoted when the image is primary. *)
Lemma save_ok_inv (i i' : t) (tb tb' : Table) :
  save i tb = (Ok i', tb') ->
  exists t1,
    t1 = (if is_primary i
          then Orm.mkTable (demoted (product i) (Orm.rows tb)) (Orm.next_pk tb)
          else tb) /\
    Orm.written pk set_pk i t1 = (i', tb') /\
    constraints_ok (Orm.rows tb') = true.
Proof.
  unfold save, save_under, Orm.bind. destruct (is_primary i).
  - destruct (OrmFacts.qs_update_cases constraints_ok (primary_of (product i))
                (set_is_primary false) tb) as [[_ ->]|[_ ->]]; [|discriminate].
    destruct (OrmFacts.model_save_cases pk set_pk constraints_ok i
                (Orm.mkTable (demoted (product i) (Orm.rows tb)) (Orm.next_pk tb)))
      as [(r' & t' & Hw & Hck & ->)| ->]; [|discriminate].
    intros H. inversion H; subst. eauto.
  - cbn [Orm.ret].
    destruct (OrmFacts.model_save_cases pk set_pk constraints_ok i tb)
      as [(r' & t' & Hw & Hck & ->)| ->]; [|discriminate].
    intros H. inversion H; subst. eauto.
Qed.

Lemma demoted_pks_ok (p : nat) (tb : Table) :
  pks_ok tb -> pks_ok (Orm.mkTable (demoted p (Orm.rows tb)) (Orm.next_pk tb)).
Proof.
  intros [Hnd Hb]. split; cbn [Orm.rows Orm.next_pk].
  - rewrite demoted_pks. assumption.
  - intros r Hr. apply in_map_iff in Hr as (x & Hx & Hin).
    destruct (Hb x Hin) as (k & Hk & Hlt). exists k.
    destruct (primary_of p x); subst r; auto.
Qed.

Lemma pks_ok_reached (history : list t) : pks_ok (save_all history Orm.empty).
Proof.
  apply (save_all_under_inv constraints_ok history Orm.empty).
  - split; cbn; [apply NoDup_nil; exact I | intros r []].
  - intros q r1 r2 [].
Qed.

Lemma key_primary (p : nat) (r : t) : key r = (p, true) -> primary_of p r = true.
Proof.
  unfold key, primary_of. intros H. inversion H; subst.
  rewrite Nat.eqb_refl. reflexivity.
Qed.

Lemma replaced_keys (k : nat) (i : t) (l : list t) :
  NoDup (map pk l) -> NoDup (map key l) -> pk i = Some k ->
  ~ In (key i) (map key l) ->
  NoDup (map key (Orm.replace_row pk k i l)).
Proof.
  intros Hpks Hkeys Hk Hnew. induction l as [|a l IH]; cbn [Orm.replace_row map] in *;
    [assumption|].
  apply NoDup_cons in Hpks as [Hpa Hpks]. apply NoDup_cons in Hkeys as [Hka Hkeys].
  assert (Hnew' : ~ In (key i) (map key l)) by (intros H; apply Hnew; right; exact H).
  specialize (IH Hpks Hkeys Hnew').
  destruct (Orm.has_pk pk k a) eqn:Ha.
  - apply OrmFacts.has_pk_spec in Ha.
    assert (Hsame : map (fun x => if Orm.has_pk pk k x then i else x) l = l).
    { rewrite <- (map_id l) at 2. apply map_ext_in. intros x Hx.
      destruct (Orm.has_pk pk k x) eqn:Hxk; [exfalso|reflexivity].
      apply OrmFacts.has_pk_spec in Hxk. apply Hpa. rewrite Ha, <- Hxk.
      apply list_elem_of_In, in_map, Hx. }
    rewrite Hsame. apply NoDup_cons. split; [|assumption].
    intros H. apply Hnew', list_elem_of_In, H.
  - apply NoDup_cons. split; [|exact IH].
    intros H. apply list_elem_of_In, in_map_iff in H as (y & Hy & Hin).
    apply in_map_iff in Hin as (x & Hx & Hin).
    destruct (Orm.has_pk pk k x); subst y.
    + apply Hnew. left. symmetry. exact Hy.
    + apply Hka. rewrite <- Hy. apply list_elem_of_In, in_map, Hin.
Qed.

(** With the primaries of its product demoted, the write of a primary
    image passes the constraint. *)
Lemma primary_write_passes (i i' : t) (t1 t' : Table) :
  pks_ok t1 -> constraints_ok (Orm.rows t1) = true ->
  (forall r, In r (Orm.rows t1) -> primary_of (product i) r = false) ->
  is_primary i = true ->
  Orm.written pk set_pk i t1 = (i', t') ->
  constraints_ok (Orm.rows t') = true.
Proof.
  intros [Hpks Hb] Hck Hclean Hp Hw. unfold constraints_ok in *.
  apply bool_decide_eq_true in Hck. apply bool_decide_eq_true.
  assert (Hnew : forall x, product x = product i -> is_primary x = true ->
                           ~ In (key x) (map key (Orm.rows t1))).
  { intros x Hpx Hix Hin. apply in_map_iff in Hin as (y & Hy & Hin).
    specialize (Hclean y Hin).
    rewrite key_primary in Hclean; [discriminate|].
    rewrite Hy. unfold key. congruence. }
  unfold Orm.written in Hw. destruct (pk i) as [k|] eqn:Hk.
  - destruct (existsb (Orm.has_pk pk k) (Orm.rows t1));
      inversion Hw; subst; clear Hw; cbn [Orm.rows].
    + apply replaced_keys; auto.
    + rewrite map_app. apply OrmMore.nodup_snoc; auto.
  - inversion Hw; subst; clear Hw. cbn [Orm.rows].
    rewrite map_app. apply OrmMore.nodup_snoc; [assumption|]. cbn [map].
    apply Hnew; [reflexivity | exact Hp].
Qed.

(** X4. While a product has a primary image and another image that is
    not primary, every save of an image flagged primary for that product,
    the re-save of the primary one included, raises IntegrityError and
    writes nothing: the demotion collides with the other image under
    [unique_together]. *)
Theorem primary_save_blocked (i r s : t) (tb : Table) :
  is_primary i = true ->
  In r (Orm.rows tb) -> primary_of (product i) r = true ->
  In s (Orm.rows tb) -> secondary_of (product i) s = true ->
  save i tb = (Raise IntegrityError, tb).
Proof.
  intros Hp Hr Hpr Hs Hss. unfold save, save_under, Orm.bind. rewrite Hp.
  destruct (OrmFacts.qs_update_cases constraints_ok (primary_of (product i))
              (set_is_primary false) tb) as [[Hck _]|[_ ->]]; [exfalso|reflexivity].
  unfold constraints_ok in Hck. apply bool_decide_eq_true in Hck. rewrite map_map in Hck.
  assert (Hsp : primary_of (product i) s = false).
  { unfold secondary_of, primary_of in *. apply andb_true_iff in Hss as [-> Hn].
    destruct (is_primary s); [discriminate | reflexivity]. }
  assert (r = s).
  { apply (ListFacts.nodup_map_inj _ _ r s Hck Hr Hs). cbn beta. rewrite Hpr, Hsp.
    rewrite (secondary_of_key _ _ Hss). unfold key, set_is_primary. cbn [product is_primary].
    apply primary_of_key in Hpr. unfold key in Hpr. congruence. }
  subst s. congruence.
Qed.

Lemma primary_save_blocked_witness :
  let tb := save_all [other_image; first_image] Orm.empty in
  is_primary second_image = true /\
  In (mk (Some 2) 7 true 0) (Orm.rows tb) /\ primary_of 7 (mk (Some 2) 7 true 0) = true /\
  In (mk (Some 1) 7 false 0) (Orm.rows tb) /\ secondary_of 7 (mk (Some 1) 7 false 0) = true /\
  save second_image tb = (Raise IntegrityError, tb) /\
  save (mk (Some 2) 7 true 0) tb = (Raise IntegrityError, tb).
Proof.
  intros tb.
  assert (Hr : In (mk (Some 2) 7 true 0) (Orm.rows tb)) by (right; left; reflexivity).
  assert (Hs : In (mk (Some 1) 7 false 0) (Orm.rows tb)) by (left; reflexivity).
  split; [reflexivity|]. split; [exact Hr|]. split; [reflexivity|].
  split; [exact Hs|]. split; [reflexivity|]. split.
  - exact (primary_save_blocked second_image _ _ tb eq_refl Hr eq_refl Hs eq_refl).
  - exact (primary_save_blocked (mk (Some 2) 7 true 0) _ _ tb eq_refl Hr eq_refl Hs eq_refl).
Defined.

(** X5. A successful save changes no other row than the saved one and,
    when the image is primary, the primaries of its product: every other
    stored row is stored unchanged afterwards. *)
Theorem save_local (i i' r : t) (tb tb' : Table) :
  save i tb = (Ok i', tb') ->
  In r (Orm.rows tb) ->
  pk r <> pk i' ->
  (is_primary i = true -> primary_of (product i) r = false) ->
  In r (Orm.rows tb').
Proof.
  intros Hs Hr Hne Hnp. destruct (save_ok_inv _ _ _ _ Hs) as (t1 & Ht1 & Hw & _).
  apply (OrmFacts.written_keeps pk set_pk i i' t1 tb' (fun k x => eq_refl) Hw r);
    [|exact Hne].
  subst t1. destruct (is_primary i); [|exact Hr].
  cbn [Orm.rows]. apply in_map_iff. exists r. rewrite (Hnp eq_refl). auto.
Qed.

Lemma save_local_witness :
  let tb := save_all [image_of_8] Orm.empty in
  let tb' := Orm.mkTable [mk (Some 1) 8 true 0; mk (Some 2) 7 true 0] 3 in
  save first_image tb = (Ok (mk (Some 2) 7 true 0), tb') /\
  In (mk (Some 1) 8 true 0) (Orm.rows tb) /\
  pk (mk (Some 1) 8 true 0) <> pk (mk (Some 2) 7 true 0) /\
  (is_primary first_image = true -> primary_of (product first_image) (mk (Some 1) 8 true 0) = false) /\
  In (mk (Some 1) 8 true 0) (Orm.rows tb').
Proof.
  intros tb tb'.
  assert (Hs : save first_image tb = (Ok (mk (Some 2) 7 true 0), tb'))
    by (vm_compute; reflexivity).
  assert (Hr : In (mk (Some 1) 8 true 0) (Orm.rows tb)) by (left; reflexivity).
  assert (Hne : pk (mk (Some 1) 8 true 0) <> pk (mk (Some 2) 7 true 0)) by discriminate.
  assert (Hnp : is_primary first_image = true ->
                primary_of (product first_image) (mk (Some 1) 8 true 0) = false)
    by (intros _; reflexivity).
  split; [exact Hs|]. split; [exact Hr|]. split; [exact Hne|]. split; [exact Hnp|].
  exact (save_local _ _ _ _ _ Hs Hr Hne Hnp).
Defined.

(** X6. On a table with distinct pks a successful save returns the image
    under a pk, the next automatic one when it had none, with the fields
    it was given; the image is the row found under that pk afterwards, and
    the table still has distinct pks and satisfies the constraint. *)
Theorem save_then_find (i i' : t) (tb tb' : Table) :
  pks_ok tb ->
  save i tb = (Ok i', tb') ->
  exists k,
    pk i' = Some k /\
    (pk i = None -> k = Orm.next_pk tb) /\
    (forall k0, pk i = Some k0 -> k = k0) /\
    product i' = product i /\ is_primary i' = is_primary i /\ order i' = order i /\
    find (Orm.has_pk pk k) (Orm.rows tb') = Some i' /\
    pks_ok tb' /\ constraints_ok (Orm.rows tb') = true.
Proof.
  intros Hpk Hs. destruct (save_ok_inv _ _ _ _ Hs) as (t1 & Ht1 & Hw & Hck).
  assert (Hpk1 : pks_ok t1).
  { subst t1. destruct (is_primary i); [apply demoted_pks_ok|]; assumption. }
  assert (Hnext : Orm.next_pk t1 = Orm.next_pk tb)
    by (subst t1; destruct (is_primary i); reflexivity).
  destruct (OrmMore.written_lookup pk set_pk (fun k x => eq_refl) i i' t1 tb' Hpk1 Hw)
    as (k & Hk & Hf & Hnone & Hsome).
  exists k. split; [exact Hk|]. split.
  { intros Hn. rewrite <- Hnext. apply (Hnone Hn). }
  split.
  { intros k0 Hk0. rewrite Hsome in Hk by congruence. congruence. }
  assert (Hfields : product i' = product i /\ is_primary i' = is_primary i /\ order i' = order i).
  { destruct (pk i) eqn:Hpki.
    - rewrite Hsome by discriminate. auto.
    - destruct (Hnone eq_refl) as [_ ->]. auto. }
  destruct Hfields as (H1 & H2 & H3).
  repeat (split; [assumption|]).
  split; [|exact Hck].
  exact (OrmMore.written_keeps_pks pk set_pk (fun k x => eq_refl) i i' t1 tb' Hpk1 Hw).
Qed.

Lemma save_then_find_witness :
  let tb := save_all [first_image] Orm.empty in
  let tb' := Orm.mkTable [mk (Some 1) 7 false 0; mk (Some 2) 7 true 1] 3 in
  pks_ok tb /\
  save second_image tb = (Ok (mk (Some 2) 7 true 1), tb') /\
  find (Orm.has_pk pk 2) (Orm.rows tb') = Some (mk (Some 2) 7 true 1) /\
  pks_ok tb'.
Proof.
  intros tb tb'.
  assert (Hpk : pks_ok tb) by apply pks_ok_reached.
  assert (Hs : save second_image tb = (Ok (mk (Some 2) 7 true 1), tb'))
    by (vm_compute; reflexivity).
  split; [exact Hpk|]. split; [exact Hs|].
  destruct (save_then_find _ _ _ _ Hpk Hs) as (k & Hk & _ & _ & _ & _ & _ & Hf & Hpk' & _).
  inversion Hk; subst k. split; [exact Hf | exact Hpk'].
Defined.

End ProductImageMore.

(** ** The write rule of the primary image *)

Module ProductImageRule.
Import Products Products.ProductImage Samples ProductImageFacts ProductImageMore.

(** What the demotion followed by the write leaves, whatever is checked. *)
Lemma demote_then_write (i i' : t) (tb tb' : Table) :
  is_primary i = true ->
  Orm.written pk set_pk i
    (Orm.mkTable (demoted (product i) (Orm.rows tb)) (Orm.next_pk tb)) = (i', tb') ->
  In i' (Orm.rows tb') /\ primary_of (product i) i' = true /\
  (forall r, In r (Orm.rows tb') -> primary_of (product i) r = true -> r = i') /\
  (forall r, In r (Orm.rows tb) -> primary_of (product i) r = true -> pk r <> pk i' ->
             In (set_is_primary false r) (Orm.rows tb')).
Proof.
  intros Hp Hw. split; [exact (OrmMore.written_in pk set_pk i i' _ tb' Hw)|]. split.
  { destruct (written_primary _ _ _ _ Hw) as [Hprod Hprim].
    unfold primary_of. rewrite Hprod, Hprim, Hp, Nat.eqb_refl. reflexivity. }
  split.
  - intros r Hr Hprim.
    destruct (OrmFacts.written_rows _ _ _ _ _ _ Hw r Hr) as [|Hin]; [assumption|].
    cbn [Orm.rows] in Hin. apply demoted_not_primary in Hin. congruence.
  - intros r Hr Hprim Hne.
    apply (OrmFacts.written_keeps pk set_pk i i' _ tb' (fun k x => eq_refl) Hw
             (set_is_primary false r)); [|exact Hne].
    cbn [Orm.rows]. apply in_map_iff. exists r. rewrite Hprim. auto.
Qed.

(** The two statements of a primary save under a store that checks [ck]. *)
Lemma save_under_primary (ck : list t -> bool) (i : t) (tb : Table) :
  is_primary i = true ->
  save_under ck i tb
  = (if ck (demoted (product i) (Orm.rows tb))
     then
       if ck (Orm.rows (snd (Orm.written pk set_pk i
                (Orm.mkTable (demoted (product i) (Orm.rows tb)) (Orm.next_pk tb)))))
       then (Ok (fst (Orm.written pk set_pk i
                (Orm.mkTable (demoted (product i) (Orm.rows tb)) (Orm.next_pk tb)))),
             snd (Orm.written pk set_pk i
                (Orm.mkTable (demoted (product i) (Orm.rows tb)) (Orm.next_pk tb))))
       else (Raise IntegrityError,
             Orm.mkTable (demoted (product i) (Orm.rows tb)) (Orm.next_pk tb))
     else (Raise IntegrityError, tb)).
Proof.
  intros Hp. unfold save_under, Orm.bind, Orm.qs_update. rewrite Hp.
  destruct (ck (demoted (product i) (Orm.rows tb))); [|reflexivity].
  unfold Orm.model_save.
  destruct (Orm.written pk set_pk i
              (Orm.mkTable (demoted (product i) (Orm.rows tb)) (Orm.next_pk tb)))
    as [i' tb']. cbn [fst snd Orm.rows]. reflexivity.
Qed.

(** The demotion collides when the product has an image that is not
    primary beside its primary one. *)
Lemma demotion_collides (p : nat) (l : list t) (r s : t) :
  In r l -> primary_of p r = true -> In s l -> secondary_of p s = true ->
  constraints_ok (demoted p l) = false.
Proof.
  intros Hr Hpr Hs Hss. apply bool_decide_eq_false_2. intros Hnd.
  rewrite map_map in Hnd.
  assert (Hsp : primary_of p s = false).
  { unfold secondary_of, primary_of in *. apply andb_true_iff in Hss as [-> Hn].
    destruct (is_primary s); [discriminate | reflexivity]. }
  assert (r = s).
  { apply (ListFacts.nodup_map_inj _ _ r s Hnd Hr Hs). cbn beta. rewrite Hpr, Hsp.
    rewrite (secondary_of_key _ _ Hss). unfold key, set_is_primary. cbn [product is_primary].
    apply primary_of_key in Hpr. unfold key in Hpr. congruence. }
  subst s. congruence.
Qed.

Lemma key_secondary (p : nat) (r : t) : key r = (p, false) -> secondary_of p r = true.
Proof.
  unfold key, secondary_of. intros H. inversion H as [[Hp Hf]].
  rewrite Hf, Nat.eqb_refl. reflexivity.
Qed.

(** It passes when the product has no such pair. *)
Lemma demotion_passes (p : nat) (l : list t) :
  constraints_ok l = true ->
  (forall r s, In r l -> primary_of p r = true -> In s l -> secondary_of p s = true ->
               False) ->
  constraints_ok (demoted p l) = true.
Proof.
  intros Hck Hno. apply bool_decide_eq_true_2. apply bool_decide_eq_true_1 in Hck.
  rewrite map_map. induction l as [|a l IH]; cbn [map] in *; [exact Hck|].
  apply NoDup_cons in Hck as [Ha Hnd]. apply NoDup_cons. split.
  - intros Hin. apply list_elem_of_In, in_map_iff in Hin as (y & Hy & Hyl).
    destruct (primary_of p a) eqn:Hpa; destruct (primary_of p y) eqn:Hpy.
    + apply Ha, list_elem_of_In, in_map_iff. exists y. split; [|exact Hyl].
      rewrite (primary_of_key _ _ Hpa), (primary_of_key _ _ Hpy). reflexivity.
    + apply (Hno a y); [left; reflexivity | exact Hpa | right; exact Hyl |].
      apply key_secondary. rewrite Hy. unfold key, set_is_primary.
      cbn [product is_primary]. apply primary_of_key in Hpa. unfold key in Hpa. congruence.
    + apply (Hno y a); [right; exact Hyl | exact Hpy | left; reflexivity |].
      apply key_secondary. rewrite <- Hy. unfold key, set_is_primary.
      cbn [product is_primary]. apply primary_of_key in Hpy. unfold key in Hpy. congruence.
    + apply Ha, list_elem_of_In, in_map_iff. exists y. split; [exact Hy | exact Hyl].
  - apply IH; [exact Hnd|]. intros r s Hr Hpr Hs Hss.
    apply (Hno r s); [right; exact Hr | exact Hpr | right; exact Hs | exact Hss].
Qed.

(** C1. The save of an image flagged primary, on a table with distinct
    pks. The UPDATE and the write that [save] issues would leave the saved
    image as the only primary one of its product, every other image of the
    product that was primary being stored with the flag cleared; a store
    that checks nothing, or whose checks [ck] pass both statements, ends
    there, and whatever [ck] refuses no product ever has two primary
    images. With the declared constraint the save ends there exactly when
    the product does not hold a primary image beside one that is not
    primary; when it does, the demotion collides with the other image, the
    save raises IntegrityError and the table stays as it was, the former
    primary still primary and the image not stored. *)
Theorem primary_write_rule (ck : list t -> bool) (i : t) (tb : Table) :
  pks_ok tb -> is_primary i = true ->
  let p := product i in
  let tb1 := Orm.mkTable (demoted p (Orm.rows tb)) (Orm.next_pk tb) in
  let i' := fst (Orm.written pk set_pk i tb1) in
  let tb' := snd (Orm.written pk set_pk i tb1) in
  (In i' (Orm.rows tb') /\ primary_of p i' = true /\
   (forall r, In r (Orm.rows tb') -> primary_of p r = true -> r = i') /\
   (forall r, In r (Orm.rows tb) -> primary_of p r = true -> pk r <> pk i' ->
              In (set_is_primary false r) (Orm.rows tb'))) /\
  save_under (fun _ => true) i tb = (Ok i', tb') /\
  save_under ck i tb
  = (if ck (Orm.rows tb1)
     then if ck (Orm.rows tb') then (Ok i', tb') else (Raise IntegrityError, tb1)
     else (Raise IntegrityError, tb)) /\
  (one_primary (Orm.rows tb) -> one_primary (Orm.rows (snd (save_under ck i tb)))) /\
  (constraints_ok (Orm.rows tb) = true ->
   ((exists r s, In r (Orm.rows tb) /\ primary_of p r = true /\
                 In s (Orm.rows tb) /\ secondary_of p s = true) ->
    save i tb = (Raise IntegrityError, tb)) /\
   ((forall r s, In r (Orm.rows tb) -> primary_of p r = true ->
                 In s (Orm.rows tb) -> secondary_of p s = true -> False) ->
    save i tb = (Ok i', tb'))).
Proof.
  intros Hpk Hp p tb1 i' tb'.
  assert (Hw : Orm.written pk set_pk i tb1 = (i', tb'))
    by (unfold i', tb'; destruct (Orm.written pk set_pk i tb1); reflexivity).
  split; [exact (demote_then_write i i' tb tb' Hp Hw)|].
  split; [rewrite (save_under_primary (fun _ => true) i tb Hp); reflexivity|].
  split; [exact (save_under_primary ck i tb Hp)|].
  split; [intros Hone; exact (proj2 (save_under_inv ck i tb Hpk Hone))|].
  intros Hck. unfold save. rewrite (save_under_primary constraints_ok i tb Hp).
  assert (Hpk1 : pks_ok tb1) by (apply demoted_pks_ok; exact Hpk).
  assert (Hclean : forall r, In r (Orm.rows tb1) -> primary_of (product i) r = false)
    by (intros r Hr; exact (demoted_not_primary _ _ _ Hr)).
  subst p tb1 i' tb'. cbn [Orm.rows] in *. split.
  - intros (r & s & Hr & Hpr & Hs & Hss).
    rewrite (demotion_collides (product i) (Orm.rows tb) r s Hr Hpr Hs Hss). reflexivity.
  - intros Hno.
    pose proof (demotion_passes (product i) (Orm.rows tb) Hck Hno) as Hck1.
    rewrite Hck1.
    rewrite (primary_write_passes i _ _ _ Hpk1 Hck1 Hclean Hp Hw). reflexivity.
Qed.

(** Product 7 holds image 1, not primary, and image 2, primary: the save
    of a further primary image raises and leaves both as they were. Where
    only a primary image is stored, a further primary one takes its
    place. *)
Lemma primary_write_rule_witness :
  let tb := save_all [other_image; first_image] Orm.empty in
  pks_ok tb /\ is_primary second_image = true /\
  constraints_ok (Orm.rows tb) = true /\
  Orm.rows tb = [mk (Some 1) 7 false 0; mk (Some 2) 7 true 0] /\
  save second_image tb = (Raise IntegrityError, tb) /\
  save second_image (save_all [first_image] Orm.empty)
  = (Ok (mk (Some 2) 7 true 1),
     Orm.mkTable [mk (Some 1) 7 false 0; mk (Some 2) 7 true 1] 3).
Proof.
  intros tb.
  assert (Hpk : pks_ok tb) by apply pks_ok_reached.
  assert (Hck : constraints_ok (Orm.rows tb) = true) by (vm_compute; reflexivity).
  split; [exact Hpk|]. split; [reflexivity|]. split; [exact Hck|].
  split; [reflexivity|]. split.
  - destruct (primary_write_rule constraints_ok second_image tb Hpk eq_refl)
      as (_ & _ & _ & _ & Hdecl).
    apply (proj1 (Hdecl Hck)).
    exists (mk (Some 2) 7 true 0), (mk (Some 1) 7 false 0).
    split; [right; left; reflexivity|]. split; [reflexivity|].
    split; [left; reflexivity | reflexivity].
  - pose proof (pks_ok_reached [first_image]) as Hpk1.
    destruct (primary_write_rule constraints_ok second_image
                (save_all [first_image] Orm.empty) Hpk1 eq_refl)
      as (_ & _ & _ & _ & Hdecl).
    refine (proj2 (Hdecl _) _); [vm_compute; reflexivity|].
    intros r s Hr _ Hs Hss. destruct Hs as [<-|[]]. discriminate Hss.
Defined.

End ProductImageRule.

(** ** Categories and brands, continued *)

Module CategoryMore.
Import Products Products.Category Samples.

Lemma dup_snoc {A} (l : list A) (x : A) : In x l -> ~ NoDup (l ++ [x]).
Proof.
  intros Hin Hnd. apply NoDup_app in Hnd as (_ & Hdisj & _).
  apply (Hdisj x); apply list_elem_of_In; [assumption | left; reflexivity].
Qed.

(** The instance [save] hands to the store. *)
Lemma category_save_unfold (c : t) :
  save c = Orm.model_save pk set_pk constraints_ok (mk (pk c) (name c) (written_slug c) (parent c)).
Proof.
  unfold save, written_slug. destruct c as [k n s p]. cbn [slug name pk parent set_slug].
  destruct (String.eqb s EmptyString); reflexivity.
Qed.

(** X7. The insertion of a category whose name is the name of a stored
    category, or whose slug (the given one, or the one derived from the
    name when none is given) is the slug of one, raises IntegrityError and
    writes nothing: a collision is an error and no renaming. Where the
    slug is derived, the name is ASCII. *)
Theorem category_insert_conflict (c r : t) (tb : Table) :
  (slug c = EmptyString -> Slug.is_ascii (name c) = true) ->
  (forall k, pk c = Some k -> existsb (Orm.has_pk pk k) (Orm.rows tb) = false) ->
  In r (Orm.rows tb) ->
  name r = name c \/ slug r = written_slug c ->
  save c tb = (Raise IntegrityError, tb).
Proof.
  intros _ Hnew Hr Hdup. rewrite category_save_unfold.
  set (c0 := mk (pk c) (name c) (written_slug c) (parent c)).
  apply OrmMore.model_save_refused.
  destruct (OrmMore.written_insert pk set_pk c0 tb Hnew) as (c1 & t1 & Hw & Hrows & Hc1).
  rewrite Hw. cbn [snd]. rewrite Hrows.
  assert (Hn : name c1 = name c) by (destruct Hc1 as [[_ ->]|[_ ->]]; reflexivity).
  assert (Hs : slug c1 = written_slug c) by (destruct Hc1 as [[_ ->]|[_ ->]]; reflexivity).
  unfold constraints_ok. rewrite !map_app. cbn [map]. rewrite Hn, Hs.
  destruct Hdup as [Hd|Hd].
  - rewrite (bool_decide_eq_false_2 (NoDup (map name (Orm.rows tb) ++ [name c])));
      [reflexivity|].
    apply dup_snoc. rewrite <- Hd. apply in_map, Hr.
  - rewrite (bool_decide_eq_false_2 (NoDup (map slug (Orm.rows tb) ++ [written_slug c])));
      [rewrite andb_false_r; reflexivity|].
    apply dup_snoc. rewrite <- Hd. apply in_map, Hr.
Qed.

(** A second category named "Shoes". *)
Lemma category_insert_conflict_witness :
  let tb := snd (save shoes Orm.empty) in
  (slug shoes = EmptyString -> Slug.is_ascii (name shoes) = true) /\
  (forall k, pk shoes = Some k -> existsb (Orm.has_pk pk k) (Orm.rows tb) = false) /\
  In stored_shoes (Orm.rows tb) /\
  (name stored_shoes = name shoes \/ slug stored_shoes = written_slug shoes) /\
  save shoes tb = (Raise IntegrityError, tb).
Proof.
  intros tb.
  assert (Hnew : forall k, pk shoes = Some k ->
                           existsb (Orm.has_pk pk k) (Orm.rows tb) = false)
    by (intros k Hk; discriminate Hk).
  assert (Hin : In stored_shoes (Orm.rows tb)) by (left; vm_compute; reflexivity).
  assert (Hdup : name stored_shoes = name shoes \/ slug stored_shoes = written_slug shoes)
    by (left; reflexivity).
  assert (Hasc : slug shoes = EmptyString -> Slug.is_ascii (name shoes) = true)
    by (intros _; reflexivity).
  split; [exact Hasc|]. split; [exact Hnew|]. split; [exact Hin|]. split; [exact Hdup|].
  exact (category_insert_conflict shoes stored_shoes tb Hasc Hnew Hin Hdup).
Defined.

(** X8. On a table with distinct pks a successful save returns the
    category with the name and the parent it was given and with the given
    slug, or the slug derived from the name (an ASCII name) when none was
    given; it is the row found under its pk afterwards, its parent is a
    stored category, and the table keeps distinct pks and its
    constraints. *)
Theorem category_save_stored (c c' : t) (tb tb' : Table) :
  (slug c = EmptyString -> Slug.is_ascii (name c) = true) ->
  Orm.pks_ok pk tb ->
  save c tb = (Ok c', tb') ->
  name c' = name c /\ parent c' = parent c /\ slug c' = written_slug c /\
  (exists k, pk c' = Some k /\
             find (Orm.has_pk pk k) (Orm.rows tb') = Some c') /\
  (forall kp, parent c = Some kp -> existsb (Orm.has_pk pk kp) (Orm.rows tb') = true) /\
  Orm.pks_ok pk tb' /\ constraints_ok (Orm.rows tb') = true.
Proof.
  intros _ Hpk. rewrite category_save_unfold.
  set (c0 := mk (pk c) (name c) (written_slug c) (parent c)). intros Hs.
  apply OrmMore.model_save_ok in Hs as [Hw Hck].
  destruct (OrmMore.written_lookup pk set_pk (fun k x => eq_refl) c0 c' tb tb' Hpk Hw)
    as (k & Hk & Hf & Hnone & Hsome).
  assert (Hfields : name c' = name c /\ parent c' = parent c /\ slug c' = written_slug c).
  { destruct (pk c0) eqn:Hpk0.
    - rewrite Hsome by discriminate. auto.
    - destruct (Hnone eq_refl) as [_ ->]. auto. }
  destruct Hfields as (H1 & H2 & H3).
  do 3 (split; [assumption|]). split; [eauto|]. split.
  - intros kp Hkp.
    unfold constraints_ok in Hck. apply andb_true_iff in Hck as [_ Hfk].
    pose proof (proj1 (forallb_forall _ _) Hfk c'
                  (OrmMore.written_in pk set_pk c0 c' tb tb' Hw)) as Hc'.
    cbn beta in Hc'. rewrite H2, Hkp in Hc'. exact Hc'.
  - split; [|exact Hck].
    exact (OrmMore.written_keeps_pks pk set_pk (fun k x => eq_refl) c0 c' tb tb' Hpk Hw).
Qed.

Lemma category_save_stored_witness :
  let tb := snd (save shoes Orm.empty) in
  let stored_boots := mk (Some 2) "Boots" "boots" (Some 1) in
  (slug shoes = EmptyString -> Slug.is_ascii (name shoes) = true) /\
  (slug boots = EmptyString -> Slug.is_ascii (name boots) = true) /\
  Orm.pks_ok pk (@Orm.empty t) /\
  save shoes Orm.empty = (Ok stored_shoes, tb) /\
  slug stored_shoes = written_slug shoes /\
  Orm.pks_ok pk tb /\
  save boots tb = (Ok stored_boots, Orm.mkTable [stored_shoes; stored_boots] 3) /\
  existsb (Orm.has_pk pk 1) [stored_shoes; stored_boots] = true.
Proof.
  intros tb stored_boots.
  assert (H0 : Orm.pks_ok pk (@Orm.empty t))
    by (split; cbn; [apply NoDup_nil; exact I | intros r []]).
  assert (Hs : save shoes Orm.empty = (Ok stored_shoes, tb)) by (vm_compute; reflexivity).
  assert (Ha1 : slug shoes = EmptyString -> Slug.is_ascii (name shoes) = true)
    by (intros _; reflexivity).
  assert (Ha2 : slug boots = EmptyString -> Slug.is_ascii (name boots) = true)
    by (intros _; reflexivity).
  destruct (category_save_stored _ _ _ _ Ha1 H0 Hs) as (_ & _ & Hslug & _ & _ & Hpk & _).
  assert (Hb : save boots tb = (Ok stored_boots, Orm.mkTable [stored_shoes; stored_boots] 3))
    by (vm_compute; reflexivity).
  destruct (category_save_stored _ _ _ _ Ha2 Hpk Hb) as (_ & _ & _ & _ & Hpar & _ & _).
  split; [exact Ha1|]. split; [exact Ha2|]. split; [exact H0|]. split; [exact Hs|]. split; [exact Hslug|]. split; [exact Hpk|].
  split; [exact Hb|]. exact (Hpar 1 eq_refl).
Defined.

(** X9. A save with a parent that no stored category carries, other than
    the pk the category itself is written under, raises IntegrityError and
    writes nothing. *)
Theorem category_parent_must_exist (c : t) (tb : Table) (kp : nat) :
  parent c = Some kp ->
  existsb (Orm.has_pk pk kp) (Orm.rows tb) = false ->
  (forall k, pk c = Some k -> k <> kp) ->
  (pk c = None -> Orm.next_pk tb <> kp) ->
  save c tb = (Raise IntegrityError, tb).
Proof.
  intros Hpar Hmiss Hown Hnext. rewrite category_save_unfold.
  set (c0 := mk (pk c) (name c) (written_slug c) (parent c)).
  apply OrmMore.model_save_refused.
  destruct (Orm.written pk set_pk c0 tb) as [c1 t1] eqn:Hw. cbn [snd].
  assert (Hc1 : pk c1 <> Some kp /\ parent c1 = Some kp).
  { destruct (OrmMore.written_instance pk set_pk c0 c1 tb t1 Hw)
      as [(k & Hk & ->)|[Hk ->]].
    - split; [|exact Hpar]. intros H. apply (Hown k Hk). congruence.
    - split; [|exact Hpar]. cbn [set_pk pk]. intros H. apply (Hnext Hk). congruence. }
  destruct Hc1 as [Hpk1 Hpar1].
  assert (Hno : existsb (Orm.has_pk pk kp) (Orm.rows t1) = false).
  { destruct (existsb _ (Orm.rows t1)) eqn:Hex; [exfalso|reflexivity].
    apply existsb_exists in Hex as (y & Hy & Hyk). apply OrmFacts.has_pk_spec in Hyk.
    destruct (OrmFacts.written_rows _ _ _ _ _ _ Hw y Hy) as [->|Hold]; [contradiction|].
    assert (existsb (Orm.has_pk pk kp) (Orm.rows tb) = true); [|congruence].
    apply existsb_exists. exists y. split; [assumption | apply OrmFacts.has_pk_spec, Hyk]. }
  unfold constraints_ok.
  assert (Hfk : forallb (fun c => match parent c with
                                  | None => true
                                  | Some k => existsb (Orm.has_pk pk k) (Orm.rows t1)
                                  end) (Orm.rows t1) = false).
  { destruct (forallb _ (Orm.rows t1)) eqn:Hall; [exfalso|reflexivity].
    pose proof (proj1 (forallb_forall _ _) Hall c1
                  (OrmMore.written_in pk set_pk c0 c1 tb t1 Hw)) as H.
    cbn beta in H. rewrite Hpar1, Hno in H. discriminate. }
  rewrite Hfk. apply andb_false_r.
Qed.

(** A category under a parent that is not stored. *)
Lemma category_parent_must_exist_witness :
  parent orphan = Some 5 /\
  existsb (Orm.has_pk pk 5) (Orm.rows (@Orm.empty t)) = false /\
  (forall k, pk orphan = Some k -> k <> 5) /\
  (pk orphan = None -> Orm.next_pk (@Orm.empty t) <> 5) /\
  save orphan Orm.empty = (Raise IntegrityError, Orm.empty).
Proof.
  assert (H3 : forall k, pk orphan = Some k -> k <> 5) by (intros k Hk; discriminate Hk).
  assert (H4 : pk orphan = None -> Orm.next_pk (@Orm.empty t) <> 5)
    by (intros _; discriminate).
  split; [reflexivity|]. split; [reflexivity|]. split; [exact H3|]. split; [exact H4|].
  exact (category_parent_must_exist orphan Orm.empty 5 eq_refl eq_refl H3 H4).
Defined.

End CategoryMore.

Module BrandFacts.
Import Products Products.Brand Samples.

Lemma brand_save_unfold (b : t) :
  save b = Orm.model_save pk set_pk constraints_ok (mk (pk b) (name b) (written_slug b)).
Proof.
  unfold save, written_slug. destruct b as [k n s]. cbn [slug name pk set_slug].
  destruct (String.eqb s EmptyString); reflexivity.
Qed.

(** X10. The insertion of a brand whose name is the name of a stored
    brand, or whose slug (given, or derived from the name when none is
    given) is the slug of one, raises IntegrityError and writes nothing.
    Where the slug is derived, the name is ASCII. *)
Theorem brand_insert_conflict (b r : t) (tb : Table) :
  (slug b = EmptyString -> Slug.is_ascii (name b) = true) ->
  (forall k, pk b = Some k -> existsb (Orm.has_pk pk k) (Orm.rows tb) = false) ->
  In r (Orm.rows tb) ->
  name r = name b \/ slug r = written_slug b ->
  save b tb = (Raise IntegrityError, tb).
Proof.
  intros _ Hnew Hr Hdup. rewrite brand_save_unfold.
  set (b0 := mk (pk b) (name b) (written_slug b)).
  apply OrmMore.model_save_refused.
  destruct (OrmMore.written_insert pk set_pk b0 tb Hnew) as (b1 & t1 & Hw & Hrows & Hb1).
  rewrite Hw. cbn [snd]. rewrite Hrows.
  assert (Hn : name b1 = name b) by (destruct Hb1 as [[_ ->]|[_ ->]]; reflexivity).
  assert (Hs : slug b1 = written_slug b) by (destruct Hb1 as [[_ ->]|[_ ->]]; reflexivity).
  unfold constraints_ok. rewrite !map_app. cbn [map]. rewrite Hn, Hs.
  destruct Hdup as [Hd|Hd].
  - rewrite (bool_decide_eq_false_2 (NoDup (map name (Orm.rows tb) ++ [name b])));
      [reflexivity|].
    apply CategoryMore.dup_snoc. rewrite <- Hd. apply in_map, Hr.
  - rewrite (bool_decide_eq_false_2 (NoDup (map slug (Orm.rows tb) ++ [written_slug b])));
      [apply andb_false_r|].
    apply CategoryMore.dup_snoc. rewrite <- Hd. apply in_map, Hr.
Qed.

(** A second brand named "Nike". *)
Lemma brand_insert_conflict_witness :
  let tb := snd (save nike Orm.empty) in
  (slug nike = EmptyString -> Slug.is_ascii (name nike) = true) /\
  (forall k, pk nike = Some k -> existsb (Orm.has_pk pk k) (Orm.rows tb) = false) /\
  In stored_nike (Orm.rows tb) /\
  (name stored_nike = name nike \/ slug stored_nike = written_slug nike) /\
  save nike tb = (Raise IntegrityError, tb).
Proof.
  intros tb.
  assert (Hnew : forall k, pk nike = Some k ->
                           existsb (Orm.has_pk pk k) (Orm.rows tb) = false)
    by (intros k Hk; discriminate Hk).
  assert (Hin : In stored_nike (Orm.rows tb)) by (left; vm_compute; reflexivity).
  assert (Hdup : name stored_nike = name nike \/ slug stored_nike = written_slug nike)
    by (left; reflexivity).
  assert (Hasc : slug nike = EmptyString -> Slug.is_ascii (name nike) = true)
    by (intros _; reflexivity).
  split; [exact Hasc|]. split; [exact Hnew|]. split; [exact Hin|]. split; [exact Hdup|].
  exact (brand_insert_conflict nike stored_nike tb Hasc Hnew Hin Hdup).
Defined.

(** X11. The insertion of a brand whose name and whose slug (given, or
    derived from the name, an ASCII name) no stored brand has succeeds on
    a table that satisfies the constraints: the brand is appended under
    its pk, the next automatic one when it has none, with that slug. *)
Theorem brand_insert_stored (b : t) (tb : Table) :
  (slug b = EmptyString -> Slug.is_ascii (name b) = true) ->
  constraints_ok (Orm.rows tb) = true ->
  (forall k, pk b = Some k -> existsb (Orm.has_pk pk k) (Orm.rows tb) = false) ->
  ~ In (name b) (map name (Orm.rows tb)) ->
  ~ In (written_slug b) (map slug (Orm.rows tb)) ->
  exists b' tb',
    save b tb = (Ok b', tb') /\
    Orm.rows tb' = Orm.rows tb ++ [b'] /\
    name b' = name b /\ slug b' = written_slug b /\
    (pk b = None -> pk b' = Some (Orm.next_pk tb)) /\
    (pk b <> None -> pk b' = pk b).
Proof.
  intros _ Hck Hnew Hname Hslug. rewrite brand_save_unfold.
  set (b0 := mk (pk b) (name b) (written_slug b)).
  unfold Orm.model_save.
  destruct (OrmMore.written_insert pk set_pk b0 tb Hnew) as (b1 & t1 & Hw & Hrows & Hb1).
  rewrite Hw.
  assert (Hn : name b1 = name b) by (destruct Hb1 as [[_ ->]|[_ ->]]; reflexivity).
  assert (Hs : slug b1 = written_slug b) by (destruct Hb1 as [[_ ->]|[_ ->]]; reflexivity).
  assert (Hck1 : constraints_ok (Orm.rows t1) = true).
  { unfold constraints_ok in *. apply andb_true_iff in Hck as [H1 H2].
    apply bool_decide_eq_true in H1. apply bool_decide_eq_true in H2.
    rewrite Hrows, !map_app. cbn [map]. rewrite Hn, Hs.
    apply andb_true_iff. split; apply bool_decide_eq_true; apply OrmMore.nodup_snoc; assumption. }
  rewrite Hck1. exists b1, t1. split; [reflexivity|]. split; [exact Hrows|].
  split; [exact Hn|]. split; [exact Hs|].
  destruct Hb1 as [[Hk ->]|[Hk ->]].
  - split; [intros H; exfalso; apply Hk; exact H | intros _; reflexivity].
  - split; [intros _; reflexivity | intros H; exfalso; apply H; exact Hk].
Qed.

Lemma brand_insert_stored_witness :
  (slug nike = EmptyString -> Slug.is_ascii (name nike) = true) /\
  constraints_ok (Orm.rows (@Orm.empty t)) = true /\
  (forall k, pk nike = Some k -> existsb (Orm.has_pk pk k) (Orm.rows (@Orm.empty t)) = false) /\
  ~ In (name nike) (map name (Orm.rows (@Orm.empty t))) /\
  ~ In (written_slug nike) (map slug (Orm.rows (@Orm.empty t))) /\
  exists b' tb',
    save nike Orm.empty = (Ok b', tb') /\
    Orm.rows tb' = Orm.rows (@Orm.empty t) ++ [b'] /\
    name b' = name nike /\ slug b' = written_slug nike /\
    (pk nike = None -> pk b' = Some (Orm.next_pk (@Orm.empty t))) /\
    (pk nike <> None -> pk b' = pk nike).
Proof.
  assert (Hnew : forall k, pk nike = Some k ->
             existsb (Orm.has_pk pk k) (Orm.rows (@Orm.empty t)) = false)
    by (intros k Hk; discriminate Hk).
  assert (H1 : ~ In (name nike) (map name (Orm.rows (@Orm.empty t)))) by (intros []).
  assert (H2 : ~ In (written_slug nike) (map slug (Orm.rows (@Orm.empty t)))) by (intros []).
  assert (Hasc : slug nike = EmptyString -> Slug.is_ascii (name nike) = true)
    by (intros _; reflexivity).
  split; [exact Hasc|].
  split; [reflexivity|]. split; [exact Hnew|]. split; [exact H1|]. split; [exact H2|].
  exact (brand_insert_stored nike Orm.empty Hasc eq_refl Hnew H1 H2).
Defined.

(** X12. A save is idempotent on the columns of this model: saving again
    the brand a successful save returned, on the table that save left,
    succeeds, returns the same brand and leaves the pk, the name and the
    slug of every stored brand, and the next automatic pk, as they are; the
    slug, once written, is not derived again to another value. Where the
    slug was derived, the name is ASCII. *)
Theorem brand_resave (b b' : t) (tb tb' : Table) :
  (slug b = EmptyString -> Slug.is_ascii (name b) = true) ->
  Orm.pks_ok pk tb ->
  save b tb = (Ok b', tb') ->
  exists tb'',
    save b' tb' = (Ok b', tb'') /\
    map pk (Orm.rows tb'') = map pk (Orm.rows tb') /\
    map name (Orm.rows tb'') = map name (Orm.rows tb') /\
    map slug (Orm.rows tb'') = map slug (Orm.rows tb') /\
    Orm.next_pk tb'' = Orm.next_pk tb'.
Proof.
  intros _ Hok Hs. rewrite brand_save_unfold in Hs.
  set (b0 := mk (pk b) (name b) (written_slug b)) in Hs.
  destruct (OrmMore.model_save_ok pk set_pk constraints_ok b0 b' tb tb' Hs) as [Hw _].
  assert (Hn : name b' = name b /\ slug b' = written_slug b).
  { destruct (OrmMore.written_instance pk set_pk b0 b' tb tb' Hw) as [(k & _ & ->)|[_ ->]];
      split; reflexivity. }
  destruct Hn as [Hn Hsl].
  assert (Hslug : written_slug b' = slug b').
  { unfold written_slug at 1. destruct (String.eqb (slug b') EmptyString) eqn:He;
      [|reflexivity].
    apply String.eqb_eq in He. rewrite He, Hn. rewrite He in Hsl.
    unfold written_slug in Hsl. destruct (String.eqb (slug b) EmptyString) eqn:Hb.
    - symmetry. exact Hsl.
    - rewrite <- Hsl in Hb. discriminate Hb. }
  exists tb'. rewrite brand_save_unfold, Hslug.
  replace (mk (pk b') (name b') (slug b')) with b' by (destruct b'; reflexivity).
  split; [|split; [reflexivity|split; [reflexivity|split; reflexivity]]].
  exact (OrmMore.model_save_again pk set_pk (fun k x => eq_refl) constraints_ok
           b0 b' tb tb' Hok Hs).
Qed.

(** The brand stored first is saved once more. *)
Lemma brand_resave_witness :
  (slug nike = EmptyString -> Slug.is_ascii (name nike) = true) /\
  Orm.pks_ok pk (@Orm.empty t) /\
  save nike Orm.empty = (Ok stored_nike, Orm.mkTable [stored_nike] 2) /\
  exists tb'',
    save stored_nike (Orm.mkTable [stored_nike] 2) = (Ok stored_nike, tb'') /\
    map pk (Orm.rows tb'') = [Some 1] /\
    map name (Orm.rows tb'') = ["Nike"%string] /\
    map slug (Orm.rows tb'') = ["nike"%string] /\
    Orm.next_pk tb'' = 2.
Proof.
  assert (Hasc : slug nike = EmptyString -> Slug.is_ascii (name nike) = true)
    by (intros _; reflexivity).
  assert (Hok : Orm.pks_ok pk (@Orm.empty t)).
  { split; [apply NoDup_nil; exact I | intros r []]. }
  assert (Hs : save nike Orm.empty = (Ok stored_nike, Orm.mkTable [stored_nike] 2))
    by (vm_compute; reflexivity).
  split; [exact Hasc|]. split; [exact Hok|]. split; [exact Hs|].
  exact (brand_resave nike stored_nike Orm.empty (Orm.mkTable [stored_nike] 2) Hasc Hok Hs).
Defined.

End BrandFacts.

(** ** Accounts, continued *)

Module AccountsMore.
Import Accounts Samples.

Lemma find_filter {A} (p q : A -> bool) (l : list A) :
  (forall x, p x = true -> q x = true) ->
  find p (List.filter q l) = find p l.
Proof.
  intros H. induction l as [|a l IH]; [reflexivity|]. cbn [List.filter find].
  destruct (q a) eqn:Hq; cbn [find]; destruct (p a) eqn:Hp; auto.
  rewrite (H a Hp) in Hq. discriminate Hq.
Qed.

Lemma find_filter_none {A} (p q : A -> bool) (l : list A) :
  (forall x, q x = true -> p x = false) ->
  find p (List.filter q l) = None.
Proof.
  intros H. induction l as [|a l IH]; [reflexivity|]. cbn [List.filter].
  destruct (q a) eqn:Hq; [|exact IH]. cbn [find]. rewrite (H a Hq). exact IH.
Qed.

(** *** Routing *)

(** X13. No action of the two viewsets runs for a caller who was not
    authenticated: whatever the action and its handler, the answer is 401
    and nothing is changed. *)
Theorem anonymous_refused (a : Action) (req : Request) (h : View Response) (w : World) :
  user req = AnonymousUser ->
  UserViewSet.route a req h w = (unauthenticated, w) /\
  UserProfileViewSet.route a req h w = (unauthenticated, w).
Proof.
  intros Hu. unfold UserViewSet.route, UserProfileViewSet.route, respond, check_permissions.
  destruct a; cbn [UserViewSet.get_permissions UserProfileViewSet.get_permissions forallb];
    unfold has_permission; rewrite Hu; cbn [andb]; split; reflexivity.
Qed.

(** An anonymous request to deactivate user 1. *)
Lemma anonymous_refused_witness :
  user (mkRequest AnonymousUser []) = AnonymousUser /\
  UserViewSet.deactivate_endpoint (mkRequest AnonymousUser []) 1 three_users
  = (unauthenticated, three_users).
Proof.
  split; [reflexivity|].
  exact (proj1 (anonymous_refused act_deactivate (mkRequest AnonymousUser [])
                  (UserViewSet.deactivate (mkRequest AnonymousUser []) 1)
                  three_users eq_refl)).
Defined.

(** X14. What [get_permissions] grants an authenticated caller. An
    administrator passes every action of both viewsets. A caller who is no
    administrator is refused with 403, nothing changed, on create, list and
    destroy of users and on list and destroy of profiles, and passes every
    other action: deactivate and activate among them, whose decorators name
    IsAdminUser. *)
Theorem action_permissions (a : Action) (req : Request) (u : User.t)
    (h : View Response) (w : World) :
  user req = AuthUser u ->
  (User.is_staff u = true ->
     UserViewSet.route a req h w = respond h w /\
     UserProfileViewSet.route a req h w = respond h w) /\
  (User.is_staff u = false ->
     (In a [act_create; act_list; act_destroy] ->
        UserViewSet.route a req h w = (denied, w)) /\
     (~ In a [act_create; act_list; act_destroy] ->
        UserViewSet.route a req h w = respond h w) /\
     (In a [act_list; act_destroy] ->
        UserProfileViewSet.route a req h w = (denied, w)) /\
     (~ In a [act_list; act_destroy] ->
        UserProfileViewSet.route a req h w = respond h w)).
Proof.
  intros Hu. unfold UserViewSet.route, UserProfileViewSet.route, check_permissions.
  split; intros Hs.
  - destruct a; cbn [UserViewSet.get_permissions UserProfileViewSet.get_permissions forallb];
      unfold has_permission; rewrite Hu, ?Hs; cbn [andb]; split; reflexivity.
  - repeat split; intros Ha;
      destruct a;
      cbn [UserViewSet.get_permissions UserProfileViewSet.get_permissions forallb];
      unfold has_permission; rewrite Hu, ?Hs; cbn [andb]; try reflexivity;
      try (exfalso; cbn [In] in Ha; intuition discriminate);
      try (exfalso; apply Ha; cbn [In]; auto 6).
Qed.

(** alice, no administrator, passes the permission check of deactivate and
    is refused the list. *)
Lemma action_permissions_witness :
  let req := mkRequest (AuthUser alice) [] in
  user req = AuthUser alice /\ User.is_staff alice = false /\
  UserViewSet.route act_deactivate req (UserViewSet.deactivate req 1) three_users
  = respond (UserViewSet.deactivate req 1) three_users /\
  UserViewSet.route act_list req (UserViewSet.list req) three_users = (denied, three_users).
Proof.
  intros req.
  pose proof (proj2 (action_permissions act_deactivate req alice
                       (UserViewSet.deactivate req 1) three_users eq_refl) eq_refl)
    as (_ & Hrun & _).
  pose proof (proj2 (action_permissions act_list req alice
                       (UserViewSet.list req) three_users eq_refl) eq_refl)
    as (Hden & _).
  split; [reflexivity|]. split; [reflexivity|]. split.
  - apply Hrun. cbn [In]. intuition discriminate.
  - apply Hden. cbn [In]. auto.
Defined.

(** *** deactivate, activate *)

(** The actions of the user viewset an authenticated caller passes. *)
Lemma users_route_passes (a : Action) (req : Request) (u : User.t)
    (h : View Response) (w : World) :
  user req = AuthUser u ->
  User.is_staff u = true \/ ~ In a [act_create; act_list; act_destroy] ->
  UserViewSet.route a req h w = respond h w.
Proof.
  intros Hu Hp. unfold UserViewSet.route, check_permissions.
  destruct (User.is_staff u) eqn:Hs.
  - destruct a; cbn [UserViewSet.get_permissions forallb];
      unfold has_permission; rewrite Hu, ?Hs; reflexivity.
  - destruct Hp as [Hp|Hp]; [discriminate Hp|].
    destruct a; cbn [UserViewSet.get_permissions forallb];
      unfold has_permission; rewrite Hu, ?Hs; try reflexivity;
      exfalso; apply Hp; cbn [In]; auto 6.
Qed.

(** What a caller who is no administrator finds under another pk than
    their own. *)
Lemma get_object_other (req : Request) (u : User.t) (k pk : nat) (w : World) :
  user req = AuthUser u -> User.is_staff u = false -> User.pk u = Some k -> pk <> k ->
  UserViewSet.get_object req pk w = None.
Proof.
  intros Hu Hs Hk Hne. unfold UserViewSet.get_object, UserViewSet.get_queryset.
  rewrite Hu, Hs, Hk. apply find_filter_none. intros x Hx.
  apply bool_decide_eq_true_1 in Hx. unfold Orm.has_pk. rewrite Hx.
  apply Nat.eqb_neq. congruence.
Qed.

(** What an administrator, or the holder of the pk, finds under a pk. *)
Lemma get_object_visible (req : Request) (u : User.t) (pk : nat) (w : World) :
  user req = AuthUser u ->
  User.is_staff u = true \/ User.pk u = Some pk ->
  UserViewSet.get_object req pk w
  = find (Orm.has_pk User.pk pk) (Orm.rows (users w)).
Proof.
  intros Hu Hv. unfold UserViewSet.get_object, UserViewSet.get_queryset. rewrite Hu.
  destruct (User.is_staff u) eqn:Hs; [reflexivity|].
  destruct Hv as [Hv|Hv]; [discriminate Hv|]. rewrite Hv.
  apply find_filter. intros x Hx. apply OrmFacts.has_pk_spec in Hx.
  apply bool_decide_eq_true_2. exact Hx.
Qed.

(** X15. For a caller who is no administrator, deactivate and activate
    reach no other record than the caller's own: under every other pk the
    answer is 404 and nothing is changed, whether a user is stored under
    that pk or not. *)
Theorem deactivate_scope (req : Request) (u : User.t) (k pk : nat) (w : World) :
  user req = AuthUser u -> User.is_staff u = false -> User.pk u = Some k -> pk <> k ->
  UserViewSet.deactivate_endpoint req pk w = (not_found, w) /\
  UserViewSet.activate_endpoint req pk w = (not_found, w).
Proof.
  intros Hu Hs Hk Hne.
  pose proof (get_object_other req u k pk w Hu Hs Hk Hne) as Hg.
  unfold UserViewSet.deactivate_endpoint, UserViewSet.activate_endpoint.
  split.
  - rewrite (users_route_passes act_deactivate req u _ w Hu);
      [|right; cbn [In]; intuition discriminate].
    unfold respond, UserViewSet.deactivate. rewrite Hg. reflexivity.
  - rewrite (users_route_passes act_activate req u _ w Hu);
      [|right; cbn [In]; intuition discriminate].
    unfold respond, UserViewSet.activate. rewrite Hg. reflexivity.
Qed.

(** alice asks to deactivate bob. *)
Lemma deactivate_scope_witness :
  let req := mkRequest (AuthUser alice) [] in
  user req = AuthUser alice /\ User.is_staff alice = false /\
  User.pk alice = Some 1 /\ 2 <> 1 /\
  UserViewSet.deactivate_endpoint req 2 three_users = (not_found, three_users).
Proof.
  intros req.
  assert (Hne : 2 <> 1) by discriminate.
  split; [reflexivity|]. split; [reflexivity|]. split; [reflexivity|].
  split; [exact Hne|].
  exact (proj1 (deactivate_scope req alice 1 2 three_users eq_refl eq_refl eq_refl Hne)).
Defined.

(** Writing the flag of a stored user. *)
Lemma save_is_active (b : bool) (t : User.t) (pk : nat) (w : World) :
  NoDup (map User.pk (Orm.rows (users w))) ->
  User.constraints_ok (Orm.rows (users w)) = true ->
  find (Orm.has_pk User.pk pk) (Orm.rows (users w)) = Some t ->
  user_save (User.set_is_active b t) w
  = (Ok (User.set_is_active b t), with_is_active b t pk w).
Proof.
  intros Hnd Hck Hf.
  pose proof (OrmMore.find_existsb _ _ _ Hf) as Hex.
  apply find_some in Hf as [Hin Hp]. apply OrmFacts.has_pk_spec in Hp.
  unfold user_save, on_users, Orm.model_save, Orm.written, with_is_active.
  cbn [User.pk User.set_is_active]. rewrite Hp, Hex. cbn [Orm.rows].
  assert (Hc : User.constraints_ok
                 (Orm.replace_row User.pk pk (User.set_is_active b t) (Orm.rows (users w)))
               = true).
  { unfold User.constraints_ok.
    rewrite (OrmMore.replace_row_column User.pk User.username _ t
               (User.set_is_active b t) pk Hnd Hin Hp eq_refl).
    exact Hck. }
  rewrite Hc. reflexivity.
Qed.

(** The store after the flag of a stored user was written. *)
Lemma with_is_active_store (b : bool) (t : User.t) (pk : nat) (w : World) :
  NoDup (map User.pk (Orm.rows (users w))) ->
  User.constraints_ok (Orm.rows (users w)) = true ->
  find (Orm.has_pk User.pk pk) (Orm.rows (users w)) = Some t ->
  NoDup (map User.pk (Orm.rows (users (with_is_active b t pk w)))) /\
  User.constraints_ok (Orm.rows (users (with_is_active b t pk w))) = true /\
  find (Orm.has_pk User.pk pk) (Orm.rows (users (with_is_active b t pk w)))
  = Some (User.set_is_active b t).
Proof.
  intros Hnd Hck Hf.
  pose proof (OrmMore.find_existsb _ _ _ Hf) as Hex.
  apply find_some in Hf as [Hin Hp]. apply OrmFacts.has_pk_spec in Hp.
  unfold with_is_active. cbn [users set_users Orm.rows]. split; [|split].
  - rewrite (OrmMore.replaced_pks User.pk pk (User.set_is_active b t)); assumption.
  - unfold User.constraints_ok.
    rewrite (OrmMore.replace_row_column User.pk User.username _ t
               (User.set_is_active b t) pk Hnd Hin Hp eq_refl).
    exact Hck.
  - apply OrmFacts.find_replaced; assumption.
Qed.

Lemma deactivate_runs (req : Request) (u t : User.t) (pk : nat) (w : World) :
  user req = AuthUser u ->
  User.is_staff u = true \/ User.pk u = Some pk ->
  NoDup (map User.pk (Orm.rows (users w))) ->
  User.constraints_ok (Orm.rows (users w)) = true ->
  find (Orm.has_pk User.pk pk) (Orm.rows (users w)) = Some t ->
  UserViewSet.deactivate_endpoint req pk w
  = (mkResponse 200
       (Message (String.append "User "
                   (String.append (User.username t) " has been deactivated"))),
     with_is_active false t pk w).
Proof.
  intros Hu Hv Hnd Hck Hf. unfold UserViewSet.deactivate_endpoint.
  rewrite (users_route_passes act_deactivate req u _ w Hu);
    [|right; cbn [In]; intuition discriminate].
  unfold respond, UserViewSet.deactivate.
  rewrite (get_object_visible req u pk w Hu Hv), Hf.
  unfold bind. rewrite (save_is_active false t pk w Hnd Hck Hf). reflexivity.
Qed.

Lemma activate_runs (req : Request) (u t : User.t) (pk : nat) (w : World) :
  user req = AuthUser u ->
  User.is_staff u = true \/ User.pk u = Some pk ->
  NoDup (map User.pk (Orm.rows (users w))) ->
  User.constraints_ok (Orm.rows (users w)) = true ->
  find (Orm.has_pk User.pk pk) (Orm.rows (users w)) = Some t ->
  UserViewSet.activate_endpoint req pk w
  = (mkResponse 200
       (Message (String.append "User "
                   (String.append (User.username t) " has been activated"))),
     with_is_active true t pk w).
Proof.
  intros Hu Hv Hnd Hck Hf. unfold UserViewSet.activate_endpoint.
  rewrite (users_route_passes act_activate req u _ w Hu);
    [|right; cbn [In]; intuition discriminate].
  unfold respond, UserViewSet.activate.
  rewrite (get_object_visible req u pk w Hu Hv), Hf.
  unfold bind. rewrite (save_is_active true t pk w Hnd Hck Hf). reflexivity.
Qed.

Lemma find_replace_other (k k' : nat) (r : User.t) (l : list User.t) :
  User.pk r = Some k -> k' <> k ->
  find (Orm.has_pk User.pk k') (Orm.replace_row User.pk k r l)
  = find (Orm.has_pk User.pk k') l.
Proof.
  intros Hr Hne. induction l as [|a l IH]; [reflexivity|].
  unfold Orm.replace_row in *. cbn [map find].
  destruct (Orm.has_pk User.pk k a) eqn:Ha; [|rewrite IH; reflexivity].
  apply OrmFacts.has_pk_spec in Ha.
  assert (H1 : Orm.has_pk User.pk k' r = false).
  { unfold Orm.has_pk. rewrite Hr. apply Nat.eqb_neq. congruence. }
  assert (H2 : Orm.has_pk User.pk k' a = false).
  { unfold Orm.has_pk. rewrite Ha. apply Nat.eqb_neq. congruence. }
  rewrite H1, H2. exact IH.
Qed.

(** X16. deactivate on a stored user the caller can reach (any user for an
    administrator, the caller's own record otherwise) answers 200 with the
    user's name and stores the user with [is_active] false; what is stored
    under every other pk, the tokens (that user's token included) and the
    profiles stay as they were. *)
Theorem deactivate_effect (req : Request) (u t : User.t) (pk : nat) (w : World) :
  user req = AuthUser u ->
  User.is_staff u = true \/ User.pk u = Some pk ->
  NoDup (map User.pk (Orm.rows (users w))) ->
  User.constraints_ok (Orm.rows (users w)) = true ->
  find (Orm.has_pk User.pk pk) (Orm.rows (users w)) = Some t ->
  exists w',
    UserViewSet.deactivate_endpoint req pk w
    = (mkResponse 200
         (Message (String.append "User "
                     (String.append (User.username t) " has been deactivated"))), w') /\
    find (Orm.has_pk User.pk pk) (Orm.rows (users w')) = Some (User.set_is_active false t) /\
    (forall k', k' <> pk ->
       find (Orm.has_pk User.pk k') (Orm.rows (users w'))
       = find (Orm.has_pk User.pk k') (Orm.rows (users w))) /\
    tokens w' = tokens w /\ profiles w' = profiles w.
Proof.
  intros Hu Hv Hnd Hck Hf. exists (with_is_active false t pk w).
  split; [exact (deactivate_runs req u t pk w Hu Hv Hnd Hck Hf)|].
  destruct (with_is_active_store false t pk w Hnd Hck Hf) as (_ & _ & Hf').
  split; [exact Hf'|]. split; [|split; reflexivity].
  intros k' Hne. unfold with_is_active. cbn [users set_users Orm.rows].
  apply find_replace_other; [|exact Hne].
  apply find_some in Hf as [_ Hp]. apply OrmFacts.has_pk_spec in Hp. exact Hp.
Qed.

(** carol, an administrator, deactivates bob: bob's token stays. *)
Lemma deactivate_effect_witness :
  let req := mkRequest (AuthUser carol) [] in
  user req = AuthUser carol /\
  (User.is_staff carol = true \/ User.pk carol = Some 2) /\
  NoDup (map User.pk (Orm.rows (users three_users))) /\
  User.constraints_ok (Orm.rows (users three_users)) = true /\
  find (Orm.has_pk User.pk 2) (Orm.rows (users three_users)) = Some bob /\
  exists w',
    UserViewSet.deactivate_endpoint req 2 three_users
    = (mkResponse 200 (Message "User b@x.com has been deactivated"), w') /\
    find (Orm.has_pk User.pk 2) (Orm.rows (users w')) = Some (User.set_is_active false bob) /\
    (forall k', k' <> 2 ->
       find (Orm.has_pk User.pk k') (Orm.rows (users w'))
       = find (Orm.has_pk User.pk k') (Orm.rows (users three_users))) /\
    tokens w' = tokens three_users /\ profiles w' = profiles three_users.
Proof.
  intros req.
  assert (Hv : User.is_staff carol = true \/ User.pk carol = Some 2) by (left; reflexivity).
  assert (Hnd : NoDup (map User.pk (Orm.rows (users three_users)))).
  { apply (bool_decide_eq_true_1 _). vm_compute. reflexivity. }
  assert (Hck : User.constraints_ok (Orm.rows (users three_users)) = true)
    by (vm_compute; reflexivity).
  split; [reflexivity|]. split; [exact Hv|]. split; [exact Hnd|]. split; [exact Hck|].
  split; [reflexivity|].
  exact (deactivate_effect req carol bob 2 three_users eq_refl Hv Hnd Hck eq_refl).
Defined.

(** X17. activate undoes deactivate: when an administrator deactivates a
    stored, active user other than themselves and then activates that user,
    the world is exactly as it was before the two requests. *)
Theorem activate_after_deactivate (req : Request) (u t : User.t) (pk : nat) (w : World) :
  user req = AuthUser u ->
  User.is_staff u = true ->
  User.pk u <> Some pk ->
  NoDup (map User.pk (Orm.rows (users w))) ->
  User.constraints_ok (Orm.rows (users w)) = true ->
  find (Orm.has_pk User.pk pk) (Orm.rows (users w)) = Some t ->
  User.is_active t = true ->
  snd (UserViewSet.activate_endpoint req pk
         (snd (UserViewSet.deactivate_endpoint req pk w))) = w.
Proof.
  intros Hu Hst _ Hnd Hck Hf Hact.
  assert (Hv : User.is_staff u = true \/ User.pk u = Some pk) by (left; exact Hst).
  rewrite (deactivate_runs req u t pk w Hu Hv Hnd Hck Hf). cbn [snd].
  destruct (with_is_active_store false t pk w Hnd Hck Hf) as (Hnd1 & Hck1 & Hf1).
  rewrite (activate_runs req u _ pk _ Hu Hv Hnd1 Hck1 Hf1). cbn [snd].
  apply find_some in Hf as [Hin Hp]. apply OrmFacts.has_pk_spec in Hp.
  assert (Ht : User.set_is_active true (User.set_is_active false t) = t).
  { destruct t as [k n h a s]. cbn in Hact. subst a. reflexivity. }
  unfold with_is_active. cbn [users set_users Orm.rows Orm.next_pk tokens profiles entropy].
  rewrite Ht. rewrite (OrmMore.replace_row_twice User.pk pk t (User.set_is_active false t));
    [|exact Hp].
  rewrite (OrmMore.replace_row_same User.pk pk t _ Hnd Hin Hp).
  destruct w as [[l n] tk pr e]. reflexivity.
Qed.

(** carol deactivates bob and activates him again. *)
Lemma activate_after_deactivate_witness :
  let req := mkRequest (AuthUser carol) [] in
  user req = AuthUser carol /\
  User.is_staff carol = true /\
  User.pk carol <> Some 2 /\
  NoDup (map User.pk (Orm.rows (users three_users))) /\
  User.constraints_ok (Orm.rows (users three_users)) = true /\
  find (Orm.has_pk User.pk 2) (Orm.rows (users three_users)) = Some bob /\
  User.is_active bob = true /\
  snd (UserViewSet.activate_endpoint req 2
         (snd (UserViewSet.deactivate_endpoint req 2 three_users))) = three_users.
Proof.
  intros req.
  assert (Hne : User.pk carol <> Some 2) by discriminate.
  assert (Hnd : NoDup (map User.pk (Orm.rows (users three_users)))).
  { apply (bool_decide_eq_true_1 _). vm_compute. reflexivity. }
  assert (Hck : User.constraints_ok (Orm.rows (users three_users)) = true)
    by (vm_compute; reflexivity).
  split; [reflexivity|]. split; [reflexivity|]. split; [exact Hne|].
  split; [exact Hnd|]. split; [exact Hck|].
  split; [reflexivity|]. split; [reflexivity|].
  exact (activate_after_deactivate req carol bob 2 three_users
           eq_refl eq_refl Hne Hnd Hck eq_refl eq_refl).
Defined.

(** *** The tokens stay one per user and one per key *)

Section Preserved.
Variable P : World -> Prop.

Lemma ret_preserves {A} (a : A) : preserves P (ret a).
Proof. intros w Hw. exact Hw. Qed.

Lemma raise_preserves {A} (e : PyExc) : preserves P (@raise A e).
Proof. intros w Hw. exact Hw. Qed.

Lemma bind_preserves {A B} (m : View A) (k : A -> View B) :
  preserves P m -> (forall a, preserves P (k a)) -> preserves P (bind m k).
Proof.
  intros Hm Hk w Hw. unfold bind. specialize (Hm w Hw).
  destruct (m w) as [[a|e] w1]; cbn [snd] in *; [apply Hk; exact Hm | exact Hm].
Qed.

Lemma try_except_preserves {A} (m : View A) (h : PyExc -> View A) :
  preserves P m -> (forall e, preserves P (h e)) -> preserves P (try_except m h).
Proof.
  intros Hm Hh w Hw. unfold try_except. specialize (Hm w Hw).
  destruct (m w) as [[a|e] w1]; cbn [snd] in *; [exact Hm | apply Hh; exact Hm].
Qed.

Lemma check_permissions_preserves (perms : list Permission) (req : Request)
    (h : View Response) :
  preserves P h -> preserves P (check_permissions perms req h).
Proof.
  intros Hh. unfold check_permissions.
  destruct (forallb (fun p => has_permission p req) perms); [exact Hh|].
  destruct (user req); apply ret_preserves.
Qed.

Lemma respond_preserves (v : View Response) (w : World) :
  preserves P v -> P w -> P (snd (respond v w)).
Proof.
  intros Hv Hw. unfold respond. specialize (Hv w Hw).
  destruct (v w) as [[r|e] w1]; exact Hv.
Qed.

End Preserved.

Lemma nodup_map_filter {A B} (f : A -> B) (p : A -> bool) (l : list A) :
  NoDup (map f l) -> NoDup (map f (List.filter p l)).
Proof.
  induction l as [|a l IH]; cbn [map List.filter]; intros H; [exact H|].
  apply NoDup_cons in H as [Hn H]. destruct (p a); [|auto].
  cbn [map]. apply NoDup_cons. split; [|auto].
  intros Hin. apply Hn. apply list_elem_of_In in Hin. apply list_elem_of_In.
  apply in_map_iff in Hin as (x & Hx & Hin). apply in_map_iff. exists x.
  split; [exact Hx|]. apply filter_In in Hin. tauto.
Qed.

Lemma on_users_tokens_ok {A} (m : Orm.DB User.t A) : preserves tokens_ok (on_users m).
Proof.
  intros w Hw. unfold on_users. destruct (m (users w)) as [r t]. exact Hw.
Qed.

Lemma token_delete_tokens_ok (t : Token.t) : preserves tokens_ok (token_delete t).
Proof.
  intros w [H1 H2]. unfold token_delete, without_token, tokens_ok.
  cbn [snd tokens set_tokens]. split; apply nodup_map_filter; assumption.
Qed.

Lemma auth_token_tokens_ok (c : Caller) : preserves tokens_ok (auth_token c).
Proof.
  intros w Hw. unfold auth_token. destruct c as [|u]; [exact Hw|].
  destruct (User.pk u) as [k|]; [|exact Hw].
  destruct (token_of k (tokens w)); exact Hw.
Qed.

(** A token is created only for a user who has none, under a key no token
    has. *)
Lemma get_or_create_tokens_ok (env : Env) (u : User.t) :
  preserves tokens_ok (get_or_create env u).
Proof.
  intros w Hw. unfold get_or_create. destruct (User.pk u) as [k|]; [|exact Hw].
  destruct (token_of k (tokens w)) eqn:Ht; [exact Hw|].
  destruct (existsb _ (tokens w)) eqn:Hex; [exact Hw|].
  destruct Hw as [H1 H2]. unfold tokens_ok. cbn [snd tokens draw set_tokens].
  rewrite !map_app. cbn [map Token.user_id Token.key].
  split; apply OrmMore.nodup_snoc; try assumption.
  - intros Hin. apply in_map_iff in Hin as (x & Hx & Hin).
    unfold token_of in Ht. apply (find_none _ _ Ht) in Hin.
    apply Nat.eqb_neq in Hin. contradiction.
  - intros Hin. apply in_map_iff in Hin as (x & Hx & Hin).
    assert (Hex' : existsb (fun t => String.eqb (Token.key t) (generate_key env (entropy w)))
                     (tokens w) = true).
    { apply existsb_exists. exists x. split; [exact Hin|]. apply String.eqb_eq. exact Hx. }
    rewrite Hex' in Hex. discriminate Hex.
Qed.

Lemma draw_tokens_ok (w : World) : tokens_ok w -> tokens_ok (draw w).
Proof. intros Hw. exact Hw. Qed.

Lemma register_tokens_ok (env : Env) (req : Request) :
  preserves tokens_ok (UserRegistrationViewSet.create env req).
Proof.
  intros w Hw. unfold UserRegistrationViewSet.create.
  destruct (UserRegistrationSerializer env (users w) (data req)) as [e|v]; [exact Hw|].
  revert w Hw. apply bind_preserves; [apply on_users_tokens_ok|]. intros u.
  apply bind_preserves; [apply get_or_create_tokens_ok|]. intros tc. apply ret_preserves.
Qed.

Lemma login_tokens_ok (env : Env) (req : Request) :
  preserves tokens_ok (UserLoginViewSet.create env req).
Proof.
  intros w Hw. unfold UserLoginViewSet.create.
  destruct (UserLoginSerializer env (users w) (data req)) as [e|v]; [exact Hw|].
  revert w Hw. apply bind_preserves; [apply get_or_create_tokens_ok|].
  intros tc. apply ret_preserves.
Qed.

Lemma logout_tokens_ok (c : Caller) (h : PyExc -> Response) :
  preserves tokens_ok
    (try_except (t <<- auth_token c ;; _ <<- token_delete t ;; ret logged_out)
                (fun e => ret (h e))).
Proof.
  apply try_except_preserves; [|intros e; apply ret_preserves].
  apply bind_preserves; [apply auth_token_tokens_ok|]. intros t.
  apply bind_preserves; [apply token_delete_tokens_ok|]. intros _. apply ret_preserves.
Qed.

Lemma change_password_tokens_ok (env : Env) (req : Request) :
  preserves tokens_ok (UserViewSet.change_password env req).
Proof.
  intros w Hw. unfold UserViewSet.change_password.
  destruct (ChangePasswordSerializer env (data req)) as [e|[old new]]; [exact Hw|].
  destruct (user req) as [|u]; [exact Hw|].
  destruct (check_password env old (User.password u)); [|exact Hw].
  apply draw_tokens_ok in Hw. revert Hw. generalize (draw w).
  apply bind_preserves; [apply on_users_tokens_ok|]. intros _. apply ret_preserves.
Qed.

Lemma deactivate_tokens_ok (req : Request) (pk : nat) :
  preserves tokens_ok (UserViewSet.deactivate req pk) /\
  preserves tokens_ok (UserViewSet.activate req pk).
Proof.
  split; intros w Hw; unfold UserViewSet.deactivate, UserViewSet.activate;
    (destruct (UserViewSet.get_object req pk w) as [t|]; [|exact Hw]);
    revert w Hw; (apply bind_preserves; [apply on_users_tokens_ok|]);
    intros u'; apply ret_preserves.
Qed.

(** X18. Every account endpoint that writes keeps the tokens one per user
    and one per key: registration and login in both forms, the two logouts,
    change_password, deactivate and activate, whatever the request and
    whether they succeed, are refused or fail. *)
Theorem tokens_stay_unique (env : Env) (req : Request) (pk : nat) (w : World) :
  tokens_ok w ->
  tokens_ok (snd (register_view env req w)) /\
  tokens_ok (snd (login_view env req w)) /\
  tokens_ok (snd (logout_view req w)) /\
  tokens_ok (snd (UserViewSet.logout_endpoint req w)) /\
  tokens_ok (snd (UserViewSet.change_password_endpoint env req w)) /\
  tokens_ok (snd (UserViewSet.deactivate_endpoint req pk w)) /\
  tokens_ok (snd (UserViewSet.activate_endpoint req pk w)).
Proof.
  intros Hw.
  unfold register_view, login_view, logout_view, UserViewSet.logout_endpoint,
    UserViewSet.change_password_endpoint, UserViewSet.deactivate_endpoint,
    UserViewSet.activate_endpoint, UserViewSet.route, UserViewSet.logout.
  refine (conj _ (conj _ (conj _ (conj _ (conj _ (conj _ _))))));
    (apply (respond_preserves tokens_ok); [|exact Hw]); apply check_permissions_preserves.
  - apply register_tokens_ok.
  - apply login_tokens_ok.
  - apply (logout_tokens_ok (user req) (fun _ => mkResponse 400 (ErrorBody "Logout failed"))).
  - apply (logout_tokens_ok (user req) (fun e => mkResponse 400 (ErrorBody (exc_str e)))).
  - apply change_password_tokens_ok.
  - apply deactivate_tokens_ok.
  - apply deactivate_tokens_ok.
Qed.

(** A login of alice where bob and alice hold tokens. *)
Lemma tokens_stay_unique_witness :
  tokens_ok three_users /\
  tokens_ok (snd (login_view Example.env credentials three_users)) /\
  tokens_ok (snd (UserViewSet.logout_endpoint (mkRequest (AuthUser alice) []) three_users)).
Proof.
  assert (Hw : tokens_ok three_users).
  { split; apply (bool_decide_eq_true_1 _); vm_compute; reflexivity. }
  split; [exact Hw|]. split.
  - exact (proj1 (proj2 (tokens_stay_unique Example.env credentials 1 three_users Hw))).
  - exact (proj1 (proj2 (proj2 (proj2
             (tokens_stay_unique Example.env (mkRequest (AuthUser alice) []) 1
                three_users Hw))))).
Defined.

(** *** change_password, continued *)

(** What a save of a user with pk [k] leaves of the world. *)
Lemma user_save_local (u : User.t) (k : nat) (w : World) :
  User.pk u = Some k ->
  tokens (snd (user_save u w)) = tokens w /\
  profiles (snd (user_save u w)) = profiles w /\
  entropy (snd (user_save u w)) = entropy w /\
  forall k', k' <> k ->
    stored_password (snd (user_save u w)) k' = stored_password w k'.
Proof.
  intros Hk. unfold user_save, on_users.
  destruct (OrmFacts.model_save_cases User.pk User.set_pk User.constraints_ok u (users w))
    as [(r' & t' & Hw & _ & ->)| ->]; cbn [snd tokens profiles entropy set_users].
  - split; [reflexivity|]. split; [reflexivity|]. split; [reflexivity|].
    intros k' Hne. unfold stored_password. cbn [users set_users].
    destruct (OrmFacts.written_find User.pk User.set_pk u r' (users w) t' k Hk Hw) as [-> _].
    rewrite (OrmMore.written_other User.pk User.set_pk u u (users w) t' k' Hw);
      [reflexivity | congruence].
  - split; [reflexivity|]. split; [reflexivity|]. split; [reflexivity|].
    intros k' _. destruct w as [us tk pr e]. reflexivity.
Qed.

(** X19. change_password writes the caller's row only: whatever the
    request and its outcome, the tokens (the caller's own included) and the
    profiles are as before, and so is the hash stored under every other pk
    than the caller's. *)
Theorem change_password_local (env : Env) (req : Request) (u : User.t) (k : nat)
    (w : World) :
  user req = AuthUser u -> User.pk u = Some k ->
  tokens (snd (UserViewSet.change_password_endpoint env req w)) = tokens w /\
  profiles (snd (UserViewSet.change_password_endpoint env req w)) = profiles w /\
  forall k', k' <> k ->
    stored_password (snd (UserViewSet.change_password_endpoint env req w)) k'
    = stored_password w k'.
Proof.
  intros Hu Hk. unfold UserViewSet.change_password_endpoint, respond, check_permissions.
  cbn [UserViewSet.get_permissions forallb]. unfold has_permission. rewrite Hu.
  cbn [andb]. unfold UserViewSet.change_password.
  destruct (ChangePasswordSerializer env (data req)) as [e|[old new]];
    [cbn [snd]; repeat split|].
  rewrite Hu. destruct (check_password env old (User.password u));
    [|cbn [snd]; repeat split].
  set (u' := User.set_password_hash (make_password env (entropy w) new) u).
  assert (Hk' : User.pk u' = Some k) by exact Hk.
  destruct (user_save_local u' k (draw w) Hk') as (Ht & Hp & _ & Hs).
  unfold bind. destruct (user_save u' (draw w)) as [[r|e] w1]; cbn [snd] in *.
  - cbn [ret snd]. split; [exact Ht|]. split; [exact Hp|]. exact Hs.
  - split; [exact Ht|]. split; [exact Hp|]. exact Hs.
Qed.

(** alice changes her password where bob is stored too. *)
Lemma change_password_local_witness :
  let req := mkRequest (AuthUser alice)
               [("old_password", "Str0ngPass!"); ("new_password", "N3wPassw0rd!")]%string in
  user req = AuthUser alice /\ User.pk alice = Some 1 /\
  tokens (snd (UserViewSet.change_password_endpoint Example.env req three_users))
  = tokens three_users /\
  stored_password (snd (UserViewSet.change_password_endpoint Example.env req three_users)) 2
  = stored_password three_users 2.
Proof.
  intros req.
  pose proof (change_password_local Example.env req alice 1 three_users eq_refl eq_refl)
    as (Ht & _ & Hs).
  split; [reflexivity|]. split; [reflexivity|]. split; [exact Ht|].
  apply Hs. discriminate.
Defined.

End AccountsMore.
